(** * uexcorp-openapi: the URL-variant generator and the OpenAPI schema manager

    A shallow embedding of [generator.py]:
    - [UEXEndpointDocsParser]: [get_defaults], [create_endpoint_url],
      [create_method_urls_for_all_optional_params] and
      [create_method_paths_for_all_params];
    - [OpenAPIManager]: [deep_equals], [deep_get_overwrite],
      [add_new_schema], [update_path_data], [extract_schemas] and
      [consolidate_recursive_object_references].

    Python dictionaries are association lists in insertion order with unique
    keys; a Python exception is the result [None]; the logger is a list of
    events carried in the state. *)

From Stdlib Require Import List ZArith Bool Arith Lia Permutation.
From Stdlib Require Import Strings.String Strings.Ascii Numbers.DecimalString.
Import ListNotations.

Local Open Scope list_scope.
Local Open Scope string_scope.

(* ================================================================== *)
(** * Python values that appear as sample parameter values *)

Inductive PyVal : Type :=
| PyInt (z : Z)
| PyStr (s : string)
| PyBool (b : bool)
| PyNone.

(** [str(v)], as an f-string renders a value. *)
Definition py_str (v : PyVal) : string :=
  match v with
  | PyInt z => NilZero.string_of_int (Z.to_int z)
  | PyStr s => s
  | PyBool true => "True"
  | PyBool false => "False"
  | PyNone => "None"
  end.

(** [sep.join(parts)]. *)
Fixpoint join (sep : string) (parts : list string) : string :=
  match parts with
  | [] => ""
  | [p] => p
  | p :: rest => p ++ sep ++ join sep rest
  end.

(** A [dict] with string keys: association list in insertion order. *)
Section Dict.
Context {V : Type}.

Fixpoint dict_get (key : string) (d : list (string * V)) : option V :=
  match d with
  | [] => None
  | (k, v) :: rest => if String.eqb key k then Some v else dict_get key rest
  end.

Definition dict_mem (key : string) (d : list (string * V)) : bool :=
  match dict_get key d with Some _ => true | None => false end.

(** [d[key] = v]: an existing key keeps its position, a new key goes last. *)
Fixpoint dict_set (key : string) (v : V) (d : list (string * V))
  : list (string * V) :=
  match d with
  | [] => [(key, v)]
  | (k, w) :: rest =>
      if String.eqb key k then (k, v) :: rest
      else (k, w) :: dict_set key v rest
  end.

(** [d.update(other)]. *)
Definition dict_update (d other : list (string * V)) : list (string * V) :=
  fold_left (fun acc kv => dict_set (fst kv) (snd kv) acc) other d.

Definition dict_keys (d : list (string * V)) : list string := map fst d.
End Dict.

(* ================================================================== *)
(** * UEXEndpointDocsParser *)

Record UEXEndpointParameter : Type := mkParam {
  param_name : string;
  param_type : string;
  param_length : Z;
  is_required : bool
}.

Record UEXEndpointLink : Type := mkLink {
  link : string;
  required_params : list UEXEndpointParameter
}.

Definition param_eq_dec (p q : UEXEndpointParameter) : {p = q} + {p <> q}.
Proof.
  decide equality; auto using string_dec, Z.eq_dec, bool_dec.
Defined.

(** What the parser has read off one documentation page: the endpoint id taken
    from the page URL by [get_id], the base path, and the parameters that
    [get_required_parameters] and [get_optional_parameters] yield, in the
    order of the page.  [get_templated_paths] is the constructor flag. *)
Record Parser : Type := mkParser {
  get_id : string;
  get_base_path : string;
  get_templated_paths : bool;
  get_required_parameters : list UEXEndpointParameter;
  get_optional_parameters : list UEXEndpointParameter
}.

(** The class attribute [defaults]. *)
Definition defaults : list (string * PyVal) :=
  [ ("id_commodity", PyInt 33);
    ("id_star_system", PyInt 68);
    ("id_planet", PyInt 116);
    ("id_orbit", PyInt 116);
    ("id_moon", PyInt 18);
    ("id_city", PyInt 5);
    ("id_jurisdiction", PyInt 1);
    ("id_outpost", PyInt 44);
    ("id_terminal", PyInt 74);
    ("id_faction", PyInt 23);
    ("id_space_station", PyInt 11);
    ("id_category", PyInt 1);
    ("id_organization", PyInt 1);
    ("id_company", PyInt 1);
    ("id_vehicle", PyInt 19);
    ("id_parent", PyInt 169);
    ("id_item", PyInt 1);
    ("id_poi", PyInt 0);
    ("commodity_name", PyStr "GOLD");
    ("commodity_code", PyStr "GOLD");
    ("commodity_slug", PyStr "gold");
    ("terminal_name", PyStr "TDD");
    ("terminal_code", PyStr "TDORI");
    ("terminal_slug", PyStr "tdori");
    ("uuid", PyStr "a6ec85a5-feba-4239-88e4-02e1a6e521e1");
    ("code", PyStr "TDORI");
    ("name", PyStr "ARC");
    ("is_lagrange", PyInt 1);
    ("is_item_manufacturer", PyBool true);
    ("is_vehicle_manufacturer", PyBool true);
    ("id_terminal_origin", PyInt 89);
    ("id_planet_origin", PyInt 59);
    ("id_orbit_origin", PyInt 59);
    ("id_faction_origin", PyInt 23);
    ("id_star_system_origin", PyInt 19);
    ("id_terminal_destination", PyInt 12);
    ("id_faction_destination", PyInt 23);
    ("id_planet_destination", PyInt 4);
    ("id_orbit_destination", PyInt 4);
    ("id_star_system_destination", PyInt 26);
    ("investment", PyInt 1000000);
    ("specialization", PyStr "trading");
    ("slug", PyStr "slug");
    ("languages", PyStr "en");
    ("day_availability", PyStr "weekends");
    ("time_availability", PyStr "morning");
    ("username", PyStr "kronny");
    ("timezone", PyStr "Europe/Prague");
    ("archetypes", PyStr "strategist") ].

(** The class attribute [required_args_all]. *)
Definition required_args_all : list string :=
  [ "commodities_prices_history" ].

(** The [match self.get_id()] of [get_defaults]; the last case is
    [re.match(r"^items", id)]. *)
Definition default_overrides (id : string) : list (string * PyVal) :=
  if String.eqb id "categories" then
    [ ("type", PyStr "item"); ("section", PyStr "other") ]
  else if String.eqb id "marketplace_listings" then
    [ ("id", PyStr "9Nor6zAazH");
      ("slug", PyStr "training-mining-and-refining-9Nor6zAazH") ]
  else if String.eqb id "organizations" then
    [ ("slug", PyStr "uexcorp") ]
  else if String.eqb id "terminals" then
    [ ("type", PyStr "commodity") ]
  else if String.eqb id "commodities_raw_prices" then
    [ ("id_terminal", PyStr "237,241"); ("id_commodity", PyInt 45) ]
  else if String.eqb id "commodities_prices_history" then
    [ ("id_terminal", PyInt 74); ("id_commodity", PyInt 68) ]
  else if String.eqb id "vehicles_loaners" then
    [ ("id_vehicle", PyInt 19) ]
  else if String.eqb id "vehicles_purchases_prices" then
    [ ("id_vehicle", PyInt 19); ("id_terminal", PyInt 148) ]
  else if String.eqb id "vehicles_rentals_prices" then
    [ ("id_vehicle", PyInt 148); ("id_terminal", PyInt 150) ]
  else if String.prefix "items" id then
    [ ("id_item", PyInt 1743); ("id_terminal", PyInt 268) ]
  else [].

Definition get_defaults (self : Parser) (parameter_name : string)
    (default : PyVal) : PyVal :=
  if get_templated_paths self then PyStr ("{" ++ parameter_name ++ "}")
  else
    match dict_get parameter_name (default_overrides (get_id self)) with
    | Some v => v
    | None =>
        match dict_get parameter_name defaults with
        | Some v => v
        | None => default
        end
    end.

Definition create_endpoint_url (self : Parser) (base_endpoint_path : string)
    (optional_params required_params : list UEXEndpointParameter)
    : UEXEndpointLink :=
  let parameters_path :=
    fold_left
      (fun acc parameter =>
         acc ++ param_name parameter ++ "/"
             ++ py_str (get_defaults self (param_name parameter) PyNone) ++ "/")
      required_params "/" in
  let parameters_query :=
    fold_left
      (fun q parameter =>
         dict_set (param_name parameter)
                  (get_defaults self (param_name parameter) (PyStr "")) q)
      optional_params [] in
  let parameters_query_str :=
    join "&" (map (fun kv => fst kv ++ "=" ++ py_str (snd kv)) parameters_query) in
  let parameters_query_str :=
    if String.eqb parameters_query_str "" then parameters_query_str
    else "?" ++ parameters_query_str in
  let url :=
    if get_templated_paths self then base_endpoint_path ++ parameters_path
    else base_endpoint_path ++ parameters_path ++ parameters_query_str in
  mkLink url required_params.

(** An element of [optional_params_x]: the list [[]] put first, or a bare
    parameter ([isinstance(optionals, list)] tells them apart). *)
Inductive Optionals : Type :=
| OptList (l : list UEXEndpointParameter)
| OptParam (p : UEXEndpointParameter).

Definition as_list (optionals : Optionals) : list UEXEndpointParameter :=
  match optionals with
  | OptList l => l
  | OptParam p => [p]
  end.

Definition create_method_urls_for_all_optional_params (self : Parser)
    (base_endpoint_path : string) (optional_params : list Optionals)
    (required_params : list UEXEndpointParameter) : list UEXEndpointLink :=
  ((if (Nat.eqb (List.length optional_params) 0 || get_templated_paths self)%bool
    then [create_endpoint_url self base_endpoint_path [] required_params]
    else [])
   ++ map (fun optionals =>
             create_endpoint_url self base_endpoint_path (as_list optionals)
                                 required_params)
          optional_params)%list.

Section SetOrder.
(** A Python [set] is kept as the list of its elements in iteration order.
    That order comes from the hashes of the elements (string hashes are
    salted per process), not from the program: [set_iter l] is the order
    in which the set built from the elements [l] is iterated. *)
Variable set_iter : list UEXEndpointParameter -> list UEXEndpointParameter.

Definition py_set (l : list UEXEndpointParameter) := set_iter l.

(** [s.difference(other)]: a new set. *)
Definition set_difference (s other : list UEXEndpointParameter) :=
  set_iter
    (filter (fun p => if in_dec param_eq_dec p other then false else true) s).

(** The [for requireds in required_params_x] loop; [optional_params_x] is
    one list object that every iteration extends.  Each iteration
    contributes the links of its [yield from]. *)
Fixpoint combinations_loop (self : Parser) (base_endpoint_path : string)
    (required_params : list UEXEndpointParameter)
    (required_params_x : list (list UEXEndpointParameter))
    (optional_params_x : list Optionals) : list (list UEXEndpointLink) :=
  match required_params_x with
  | [] => []
  | requireds :: rest =>
      let optional_params_x :=
        (optional_params_x
           ++ map OptParam (set_difference required_params requireds))%list in
      create_method_urls_for_all_optional_params
        self base_endpoint_path optional_params_x requireds
      :: combinations_loop self base_endpoint_path required_params rest
                           optional_params_x
  end.

Definition required_combinations (self : Parser)
    (required_params : list UEXEndpointParameter)
    : list (list UEXEndpointParameter) :=
  if in_dec string_dec (get_id self) required_args_all
  then [required_params]
  else map (fun required_param => [required_param]) required_params.

(** The links of [create_method_paths_for_all_params], grouped by the
    [yield from] that produced them. *)
Definition method_path_blocks (self : Parser) : list (list UEXEndpointLink) :=
  let base_endpoint_path := get_base_path self in
  let required_params := py_set (get_required_parameters self) in
  let optional_params := py_set (get_optional_parameters self) in
  let required_params_x := required_combinations self required_params in
  let optional_params_x := OptList [] :: map OptParam optional_params in
  ((if Nat.eqb (List.length required_params_x) 0
    then [create_method_urls_for_all_optional_params
            self base_endpoint_path optional_params_x []]
    else [])
   ++ combinations_loop self base_endpoint_path required_params
                        required_params_x optional_params_x)%list.

Definition create_method_paths_for_all_params (self : Parser)
    : list UEXEndpointLink :=
  List.concat (method_path_blocks self).
End SetOrder.

(** Two iteration orders a set may have: the order of insertion, and its
    reverse.  [nodup] keeps one copy of every element. *)
Definition insertion_order (l : list UEXEndpointParameter) :=
  nodup param_eq_dec l.

Definition reverse_order (l : list UEXEndpointParameter) :=
  rev (nodup param_eq_dec l).

(** What every iteration order satisfies: the distinct elements, each once. *)
Definition set_order (set_iter : list UEXEndpointParameter ->
                                 list UEXEndpointParameter) : Prop :=
  forall l, Permutation (set_iter l) (nodup param_eq_dec l).

(* ================================================================== *)
(** * OpenAPIManager: the document as a tree *)

(** What [yaml.safe_load] returns, built from [dict], [list], [str], [int],
    [bool] and [None] (YAML floats and dates are left out). *)
#[warnings="-register-all"]
Inductive Node : Type :=
| NDict (items : list (string * Node))
| NList (elems : list Node)
| NStr (s : string)
| NInt (z : Z)
| NBool (b : bool)
| NNone.

(** Python dictionaries hold a key once: [unique_keys] checks it at every
    level of a tree. *)
Fixpoint distinct (keys : list string) : bool :=
  match keys with
  | [] => true
  | k :: rest =>
      (if in_dec string_dec k rest then false else true) && distinct rest
  end.

Fixpoint unique_keys (n : Node) : bool :=
  match n with
  | NDict items =>
      distinct (map fst items)
      && (fix all (l : list (string * Node)) : bool :=
            match l with
            | [] => true
            | (_, v) :: rest => unique_keys v && all rest
            end) items
  | NList elems =>
      (fix all (l : list Node) : bool :=
         match l with
         | [] => true
         | v :: rest => unique_keys v && all rest
         end) elems
  | _ => true
  end.

Definition int_of_bool (b : bool) : Z := if b then 1%Z else 0%Z.

(** [item1 == item2] where [deep_equals] uses it: the two are not both
    dictionaries and not both lists.  [bool] is a subclass of [int], so
    [True == 1] and [False == 0].  Floats, which a YAML document can hold,
    are not among the values of [Node]: what is proved of [deep_equals]
    says nothing of trees with floats, where [1 == 1.0] holds and
    [nan == nan] does not. *)
Definition py_eq (item1 item2 : Node) : bool :=
  match item1, item2 with
  | NStr s1, NStr s2 => String.eqb s1 s2
  | NInt z1, NInt z2 => Z.eqb z1 z2
  | NInt z, NBool b => Z.eqb z (int_of_bool b)
  | NBool b, NInt z => Z.eqb (int_of_bool b) z
  | NBool b1, NBool b2 => Bool.eqb b1 b2
  | NNone, NNone => true
  | _, _ => false
  end.

Fixpoint deep_equals (item1 item2 : Node) {struct item1} : bool :=
  match item1, item2 with
  | NDict d1, NDict d2 =>
      (fix items_loop (items : list (string * Node))
           (item2_keys : list string) {struct items} : bool :=
         match items with
         | [] => Nat.eqb (List.length item2_keys) 0
         | (key, value) :: rest =>
             match dict_get key d2 with
             | None => false
             | Some value2 =>
                 let item2_keys := remove string_dec key item2_keys in
                 if deep_equals value value2
                 then items_loop rest item2_keys
                 else false
             end
         end) d1 (nodup string_dec (dict_keys d2))
  | NList l1, NList l2 =>
      if negb (Nat.eqb (List.length l1) (List.length l2)) then false
      else
        (fix range_loop (l1 l2 : list Node) {struct l1} : bool :=
           match l1, l2 with
           | x :: r1, y :: r2 =>
               if deep_equals x y then range_loop r1 r2 else false
           | _, _ => true
           end) l1 l2
  | _, _ => py_eq item1 item2
  end.

(** [needle in hay] for two strings. *)
Fixpoint contains (needle hay : string) : bool :=
  if String.prefix needle hay then true
  else match hay with
       | EmptyString => false
       | String _ rest => contains needle rest
       end.

(** [key in x]; [None] is the [TypeError] of a value that is no container. *)
Definition py_in (key : string) (x : Node) : option bool :=
  match x with
  | NDict items => Some (dict_mem key items)
  | NList elems =>
      Some (existsb (fun e => match e with
                              | NStr s => String.eqb key s
                              | _ => false
                              end) elems)
  | NStr s => Some (contains key s)
  | _ => None
  end.

(** [x[key]] with a string key: [KeyError] or [TypeError] is [None]. *)
Definition py_getitem (key : string) (x : Node) : option Node :=
  match x with
  | NDict items => dict_get key items
  | _ => None
  end.

(** [x[key] = v] with a string key, giving [x] after the assignment. *)
Definition py_setitem (key : string) (v : Node) (x : Node) : option Node :=
  match x with
  | NDict items => Some (NDict (dict_set key v items))
  | _ => None
  end.

(** [x.items()]. *)
Definition py_items (x : Node) : option (list (string * Node)) :=
  match x with
  | NDict items => Some items
  | _ => None
  end.

(** [x.update(other)], giving [x] after the call. *)
Definition py_update (x : Node) (other : list (string * Node)) : option Node :=
  match x with
  | NDict items => Some (NDict (dict_update items other))
  | _ => None
  end.

Definition bind {A B : Type} (m : option A) (k : A -> option B) : option B :=
  match m with
  | Some x => k x
  | None => None
  end.

Notation "x <- m ;; k" := (bind m (fun x => k))
  (at level 61, m at next level, right associativity).
Notation "' ( x , y ) <- m ;; k" := (bind m (fun xy => let (x, y) := xy in k))
  (at level 61, x name, y name, m at next level, right associativity).

(** What the module writes to its logger. *)
Inductive Event : Type :=
| Debug_creating_schema (name : string) (new_schema : Node)
| Error_already_defined (name : string)
| Warning_no_data_set (schema_operation schema_path : string)
| Warning_no_data_mapping (schema_path : string)
| Warning_schema_not_found (target_schema : string)
| Debug_updating_ref (target_schema ref : string)
| Debug_overwriting (key : string) (source : Node).

(** [self.schema] and the log so far. *)
Record Manager : Type := mkManager {
  schema : Node;
  log : list Event
}.

(** [copy.deepcopy]: a tree has no object identity, the copy is the tree.
    (Module [Store] below has the copy with fresh objects.) *)
Definition deepcopy (n : Node) : Node := n.

Definition update_path_entry
    (data_by_path : list (string * list (string * list (string * Node))))
    (schema_path schema_operation : string) (schema_operation_props : Node)
    : option (Node * list Event) :=
  match dict_get schema_path data_by_path with
  | Some path_operation_mapping =>
      match dict_get schema_operation path_operation_mapping with
      | Some attrs =>
          props <- py_update schema_operation_props attrs ;;
          Some (props, [])
      | None =>
          Some (schema_operation_props,
                [Warning_no_data_set schema_operation schema_path])
      end
  | None =>
      Some (schema_operation_props, [Warning_no_data_mapping schema_path])
  end.

(** [for schema_operation, schema_operation_props in schema_operations.items()] *)
Fixpoint operations_loop
    (data_by_path : list (string * list (string * list (string * Node))))
    (schema_path : string) (schema_operations : list (string * Node))
    : option (list (string * Node) * list Event) :=
  match schema_operations with
  | [] => Some ([], [])
  | (schema_operation, schema_operation_props) :: rest =>
      '(props, events) <-
        update_path_entry data_by_path schema_path schema_operation
                          schema_operation_props ;;
      '(rest', events') <- operations_loop data_by_path schema_path rest ;;
      Some ((schema_operation, props) :: rest', (events ++ events')%list)
  end.

(** [for schema_path, schema_operations in self.schema["paths"].items()] *)
Fixpoint paths_loop
    (data_by_path : list (string * list (string * list (string * Node))))
    (paths : list (string * Node))
    : option (list (string * Node) * list Event) :=
  match paths with
  | [] => Some ([], [])
  | (schema_path, schema_operations) :: rest =>
      operations <- py_items schema_operations ;;
      '(operations', events) <-
        operations_loop data_by_path schema_path operations ;;
      '(rest', events') <- paths_loop data_by_path rest ;;
      Some ((schema_path, NDict operations') :: rest',
            (events ++ events')%list)
  end.

Definition update_path_data
    (data_by_path : list (string * list (string * list (string * Node))))
    (self : Manager) : option Manager :=
  paths <- py_getitem "paths" (schema self) ;;
  items <- py_items paths ;;
  '(items', events) <- paths_loop data_by_path items ;;
  doc <- py_setitem "paths" (NDict items') (schema self) ;;
  Some (mkManager doc (log self ++ events)%list).

Definition is_none (value : Node) : bool :=
  match value with
  | NNone => true
  | _ => false
  end.

(** The result is the returned object together with [d] after the call;
    [value = NNone] is the default [value=None]. *)
Fixpoint deep_get_overwrite (d : Node) (keys : list string) (value : Node)
    : option (Node * Node) :=
  match keys with
  | [] => Some (d, d)
  | key :: rest =>
      if (Nat.eqb (List.length keys) 1 && negb (is_none value))%bool then
        d' <- py_setitem key value d ;;
        Some (d', d')
      else
        match d with
        | NDict items =>
            let items :=
              if negb (dict_mem key items) then dict_set key (NDict []) items
              else items in
            child <- dict_get key items ;;
            '(result, child') <- deep_get_overwrite child rest value ;;
            Some (result, NDict (dict_set key child' items))
        | _ => None
        end
  end.

(** [s.split(sep)] for a one-character separator. *)
Fixpoint split (sep : ascii) (s : string) : list string :=
  match s with
  | EmptyString => [EmptyString]
  | String c rest =>
      if Ascii.eqb c sep then EmptyString :: split sep rest
      else match split sep rest with
           | [] => [String c EmptyString]
           | word :: words => String c word :: words
           end
  end.

Definition overwrite_keys (key : string) (data : Node) (self : Manager)
    : option (Node * Manager) :=
  let keys := split "." key in
  '(source, data') <- deep_get_overwrite data keys NNone ;;
  '(_, doc) <- deep_get_overwrite (schema self) keys source ;;
  Some (data', mkManager doc (log self ++ [Debug_overwriting key source])%list).

Definition add_new_schema (name : string) (new_schema : Node) (self : Manager)
    : option Manager :=
  has_components <- py_in "components" (schema self) ;;
  doc <- (if negb has_components
          then py_setitem "components" (NDict []) (schema self)
          else Some (schema self)) ;;
  components <- py_getitem "components" doc ;;
  has_schemas <- py_in "schemas" components ;;
  components <- (if negb has_schemas
                 then py_setitem "schemas" (NDict []) components
                 else Some components) ;;
  schemas <- py_getitem "schemas" components ;;
  has_name <- py_in name schemas ;;
  if negb has_name then
    schemas <- py_setitem name (deepcopy new_schema) schemas ;;
    components <- py_setitem "schemas" schemas components ;;
    doc <- py_setitem "components" components doc ;;
    Some (mkManager doc (log self ++ [Debug_creating_schema name new_schema])%list)
  else
    existing_schema <- py_getitem name schemas ;;
    doc <- py_setitem "components" components doc ;;
    if negb (deep_equals existing_schema new_schema)
    then Some (mkManager doc (log self ++ [Error_already_defined name])%list)
    else Some (mkManager doc (log self)).

(** The class attribute [schema_name_by_property_path]. *)
Definition schema_name_by_property_path : list (string * string) :=
  [ ("GetCategoriesOkResponse.properties.data.items", "CategoryDTO");
    ("GetCitiesOkResponse.properties.data.items", "UniverseCityDTO");
    ("GetCommoditiesAveragesOkResponse.properties.data.items", "CommodityAveragePriceDTO");
    ("GetCommoditiesOkResponse.properties.data.items", "CommodityDTO");
    ("GetCommoditiesPricesAllOkResponse.properties.data.items", "CommodityPriceBriefDTO");
    ("GetCommoditiesPricesHistoryOkResponse.properties.data.items", "HistoricalCommodityPriceDTO");
    ("GetCommoditiesPricesOkResponse.properties.data.items", "CommodityPriceDTO");
    ("GetCommoditiesRankingOkResponse.properties.data.items", "CommodityRankingDTO");
    ("GetCommoditiesRawPricesAllOkResponse.properties.data.items", "RawCommodityPriceBriefDTO");
    ("GetCommoditiesRawPricesOkResponse.properties.data.items", "RawCommodityPriceDTO");
    ("GetCommoditiesRoutesOkResponse.properties.data.items", "CommodityRouteDTO");
    ("GetCommoditiesStatusOkResponse.properties.data.properties.buy.items", "CommodityStatusDTO");
    ("GetCommoditiesStatusOkResponse.properties.data.properties.sell.items", "CommodityStatusDTO");
    ("GetCommoditiesRawAveragesOkResponse.properties.data.properties.sell.items", "CommodityRawAverageDTO");
    ("GetCompaniesOkResponse.properties.data.items", "CompanyDTO");
    ("GetContactsOkResponse.properties.data.items", "ContactDTO");
    ("GetContractsOkResponse.properties.data.items", "ContractDTO");
    ("GetCrewOkResponse.properties.data.items", "CrewProfileDTO");
    ("GetDataParametersOkResponse.properties.data", "ParametersDTO");
    ("GetFactionsOkResponse.properties.data.items", "FactionDTO");
    ("GetFleetOkResponse.properties.data.items", "FleetVehicleDTO");
    ("GetGameVersionsOkResponse.properties.data", "GameVersionsDTO");
    ("GetFuelPricesAllOkResponse.properties.data", "FuelPriceDTO");
    ("GetFuelPricesOkResponse.properties.data", "FuelPriceBriefDTO");
    ("GetItemsOkResponse.properties.data.items", "ItemDTO");
    ("GetItemsPricesAllOkResponse.properties.data.items", "ItemPriceBriefDTO");
    ("GetItemsPricesOkResponse.properties.data.items", "ItemPriceDTO");
    ("GetItemsAttributesOkResponse.properties.data.items", "ItemAttributeDTO");
    ("GetWalletBalanceOkResponse.properties.data.items", "WalletBalanceDTO");
    ("GetMarketplaceListingsOkResponse.properties.data.items", "MarketplaceListingDTO");
    ("GetJumpPointsOkResponse.properties.data.items", "JumpPointDTO");
    ("GetJurisdictionsOkResponse.properties.data.items", "JurisdictionDTO");
    ("GetPoiOkResponse.properties.data.items", "PointOfInterestDTO");
    ("GetReleaseNotesOkResponse.properties.data.items", "ReleaseNotDTO");
    ("GetMoonsOkResponse.properties.data.items", "UniverseMoonDTO");
    ("GetOrbitsOkResponse.properties.data.items", "UniverseOrbitDTO");
    ("GetOrganizationsOkResponse.properties.data.items", "OrganizationDTO");
    ("GetOutpostsOkResponse.properties.data.items", "UniverseOutpostDTO");
    ("GetPlanetsOkResponse.properties.data.items", "UniversePlanetDTO");
    ("GetRefineriesAuditsOkResponse.properties.data.items", "RefineryAuditDTO");
    ("GetRefineriesCapacitiesOkResponse.properties.data.items", "RefineryCapacityDTO");
    ("GetRefineriesMethodsOkResponse.properties.data.items", "RefineryMethodDTO");
    ("GetRefineriesYieldsOkResponse.properties.data.items", "RefineryYieldDTO");
    ("GetSpaceStationsOkResponse.properties.data.items", "UniverseSpaceStationDTO");
    ("GetStarSystemsOkResponse.properties.data.items", "UniverseStarSystemDTO");
    ("GetTerminalsOkResponse.properties.data.items", "UniverseTerminalDTO");
    ("GetUserOkResponse.properties.data", "UexUserDTO");
    ("GetUserRefineriesJobsOkResponse.properties.data.items", "UserRefineryJobDTO");
    ("GetUserTradesOkResponse.properties.data.items", "UserTradeDTO");
    ("GetVehiclesLoanersOkResponse.properties.data", "LoanerVehicleDTO");
    ("GetVehiclesOkResponse.properties.data.items", "VehicleDTO");
    ("GetVehiclesPricesOkResponse.properties.data.items", "VehiclePricesDTO");
    ("GetVehiclesPurchasesPricesAllOkResponse.properties.data.items", "VehiclePurchasePriceBriefDTO");
    ("GetVehiclesPurchasesPricesOkResponse.properties.data.items", "VehiclePurchasePriceDTO");
    ("GetVehiclesRentalsPricesAllOkResponse.properties.data.items", "VehicleRentalPriceBriefDTO");
    ("GetVehiclesRentalsPricesOkResponse.properties.data.items", "VehicleRentalPriceDTO") ].

(** The dictionary literal with the one key [$ref]. *)
Definition ref_to (name : string) : Node :=
  NDict [("$ref", NStr ("#/components/schemas/" ++ name))].

(** [self.schema["components"]["schemas"]]. *)
Definition component_schemas (doc : Node) : option Node :=
  components <- py_getitem "components" doc ;;
  py_getitem "schemas" components.

(** The dictionary under [target_schema] was changed in place into
    [target]: the document that holds it. *)
Definition with_component_schema (target_schema : string) (target : Node)
    (doc : Node) : option Node :=
  components <- py_getitem "components" doc ;;
  schemas <- py_getitem "schemas" components ;;
  schemas <- py_setitem target_schema target schemas ;;
  components <- py_setitem "schemas" schemas components ;;
  py_setitem "components" components doc.

(** One turn of the loop of [extract_schemas]. *)
Definition extract_schema (selector ref : string) (self : Manager)
    : option Manager :=
  let selector_items := split "." selector in
  let target_schema := hd "" selector_items in
  let target_prop_path := tl selector_items in
  schemas <- component_schemas (schema self) ;;
  found <- py_in target_schema schemas ;;
  if negb found then
    Some (mkManager (schema self)
                    (log self ++ [Warning_schema_not_found target_schema])%list)
  else
    target <- py_getitem target_schema schemas ;;
    '(new_schema_props, target) <-
      deep_get_overwrite target target_prop_path NNone ;;
    doc <- with_component_schema target_schema target (schema self) ;;
    self <- add_new_schema ref new_schema_props (mkManager doc (log self)) ;;
    let events := [Debug_updating_ref target_schema ref] in
    (* [schema] is still the object stored under [target_schema] *)
    schemas <- component_schemas (schema self) ;;
    target <- py_getitem target_schema schemas ;;
    '(_, target) <- deep_get_overwrite target target_prop_path (ref_to ref) ;;
    doc <- with_component_schema target_schema target (schema self) ;;
    Some (mkManager doc (log self ++ events)%list).

Fixpoint extract_loop (table : list (string * string)) (self : Manager)
    : option Manager :=
  match table with
  | [] => Some self
  | (selector, ref) :: rest =>
      self <- extract_schema selector ref self ;;
      extract_loop rest self
  end.

Definition extract_schemas (self : Manager) : option Manager :=
  components <- py_getitem "components" (schema self) ;;
  has_schemas <- py_in "schemas" components ;;
  if negb has_schemas then Some self
  else extract_loop schema_name_by_property_path self.

(* ================================================================== *)
(** * Structural equality, as the specification words it *)

Definition is_scalar (n : Node) : Prop :=
  match n with
  | NDict _ | NList _ => False
  | _ => True
  end.

(** Object nodes are equal iff they have the same keys and equal values under
    every key; Array nodes iff they have the same length and equal elements
    at every index; scalars as [scalar_eq] says. *)
Inductive structural (scalar_eq : Node -> Node -> Prop) : Node -> Node -> Prop :=
| structural_object d1 d2 :
    (forall k, In k (dict_keys d1) <-> In k (dict_keys d2)) ->
    (forall k v1 v2,
        dict_get k d1 = Some v1 -> dict_get k d2 = Some v2 ->
        structural scalar_eq v1 v2) ->
    structural scalar_eq (NDict d1) (NDict d2)
| structural_array l1 l2 :
    List.length l1 = List.length l2 ->
    (forall i x y,
        nth_error l1 i = Some x -> nth_error l2 i = Some y ->
        structural scalar_eq x y) ->
    structural scalar_eq (NList l1) (NList l2)
| structural_scalar a b :
    is_scalar a -> is_scalar b -> scalar_eq a b ->
    structural scalar_eq a b.

(** Scalars compared by value and type. *)
Definition same_value_and_type (a b : Node) : Prop :=
  match a, b with
  | NStr s1, NStr s2 => s1 = s2
  | NInt z1, NInt z2 => z1 = z2
  | NBool b1, NBool b2 => b1 = b2
  | NNone, NNone => True
  | _, _ => False
  end.

(** [structuralEqual] of the specification. *)
Definition structuralEqual : Node -> Node -> Prop :=
  structural same_value_and_type.

(** The same with scalars compared by Python's [==]. *)
Definition structuralEqual_py : Node -> Node -> Prop :=
  structural (fun a b => py_eq a b = true).

(** [self.schema["paths"][path][method]]. *)
Definition operation_at (doc : Node) (path method : string) : option Node :=
  paths <- py_getitem "paths" doc ;;
  operations <- py_getitem path paths ;;
  py_getitem method operations.

(** The attributes that [data_by_path] supplies for a path and a method. *)
Definition supplied (data_by_path : list (string * list (string * list (string * Node))))
    (path method : string) : option (list (string * Node)) :=
  mapping <- dict_get path data_by_path ;;
  dict_get method mapping.

(** What [update_path_data] makes of the operation object of a path and a
    method: absent stays absent; with supplied attributes they are merged
    into it; without, it stays as it is. *)
Definition merged_operation
    (data_by_path : list (string * list (string * list (string * Node))))
    (path method : string) (before : option Node) (after : option Node) : Prop :=
  match before with
  | None => after = None
  | Some props =>
      match supplied data_by_path path method with
      | Some attrs =>
          exists items,
            props = NDict items
            /\ after = Some (NDict (dict_update items attrs))
      | None => after = Some props
      end
  end.

(** The same for the dictionary of a path: its methods stay the same. *)
Definition merged_path
    (data_by_path : list (string * list (string * list (string * Node))))
    (path : string) (before after : option Node) : Prop :=
  match before with
  | None => after = None
  | Some operations =>
      exists o o',
        operations = NDict o /\ after = Some (NDict o')
        /\ dict_keys o' = dict_keys o
        /\ forall method,
            merged_operation data_by_path path method
                             (dict_get method o) (dict_get method o')
  end.

(** The warnings for the operations of the document that [data_by_path]
    leaves out, in the order of the document. *)
Definition unmatched_warnings
    (data_by_path : list (string * list (string * list (string * Node))))
    (paths : list (string * Node)) : list Event :=
  flat_map
    (fun entry =>
       match snd entry with
       | NDict operations =>
           flat_map
             (fun operation =>
                match dict_get (fst entry) data_by_path with
                | None => [Warning_no_data_mapping (fst entry)]
                | Some mapping =>
                    if dict_mem (fst operation) mapping then []
                    else [Warning_no_data_set (fst operation) (fst entry)]
                end)
             operations
       | _ => []
       end)
    paths.

(** A sequence of [add_new_schema] calls. *)
Fixpoint add_new_schemas (calls : list (string * Node)) (self : Manager)
    : option Manager :=
  match calls with
  | [] => Some self
  | (name, new_schema) :: rest =>
      self <- add_new_schema name new_schema self ;;
      add_new_schemas rest self
  end.

(** Read-only path resolution, as the specification words [resolvePath]:
    the node at [path], or [None] when a segment is missing. *)
Fixpoint resolvePath (root : Node) (path : list string) : option Node :=
  match path with
  | [] => Some root
  | key :: rest =>
      match root with
      | NDict items =>
          match dict_get key items with
          | Some child => resolvePath child rest
          | None => None
          end
      | _ => None
      end
  end.

(** What a read of [deep_get_overwrite] puts under a missing key when the
    segments [rest] follow it: empty dictionaries, one inside the other. *)
Fixpoint created_path (rest : list string) : Node :=
  match rest with
  | [] => NDict []
  | key :: rest => NDict [(key, created_path rest)]
  end.

(** The two loops of [deep_equals], named, over the comparison [eqv] of the
    values. *)
Fixpoint items_loop (eqv : Node -> Node -> bool) (d2 : list (string * Node))
    (items : list (string * Node)) (item2_keys : list string) : bool :=
  match items with
  | [] => Nat.eqb (List.length item2_keys) 0
  | (key, value) :: rest =>
      match dict_get key d2 with
      | None => false
      | Some value2 =>
          let item2_keys := remove string_dec key item2_keys in
          if eqv value value2 then items_loop eqv d2 rest item2_keys else false
      end
  end.

Fixpoint range_loop (eqv : Node -> Node -> bool) (l1 l2 : list Node) : bool :=
  match l1, l2 with
  | x :: r1, y :: r2 => if eqv x y then range_loop eqv r1 r2 else false
  | _, _ => true
  end.

(* ================================================================== *)
(** * OpenAPIManager: the document as objects in a store

    The tree view above has no object identity.  Where a method depends on
    it ([copy.deepcopy] in [add_new_schema], the rewriting in place of
    [consolidate_recursive_object_references] while it scans the live
    catalog), dictionaries and lists are objects at addresses; a value is a
    scalar or the address of an object.  Recursion over the store takes
    fuel: [None] is an exception or fuel that ran out. *)

Module Store.

Inductive Value : Type :=
| VNone
| VBool (b : bool)
| VInt (z : Z)
| VStr (s : string)
| VRef (address : nat).

Inductive Object : Type :=
| ODict (items : list (string * Value))
| OList (elems : list Value).

(** Objects by address; a new object goes to the end. *)
Definition Heap : Type := list Object.

Definition read (h : Heap) (address : nat) : option Object :=
  nth_error h address.

Definition alloc (o : Object) (h : Heap) : Heap * Value :=
  ((h ++ [o])%list, VRef (List.length h)).

Fixpoint write (address : nat) (o : Object) (h : Heap) : Heap :=
  match h, address with
  | [], _ => []
  | _ :: rest, 0 => o :: rest
  | x :: rest, S n => x :: write n o rest
  end.

(** [item1 == item2] for values that are not two dictionaries and not two
    lists. *)
Definition py_eq (item1 item2 : Value) : bool :=
  match item1, item2 with
  | VStr s1, VStr s2 => String.eqb s1 s2
  | VInt z1, VInt z2 => Z.eqb z1 z2
  | VInt z, VBool b => Z.eqb z (int_of_bool b)
  | VBool b, VInt z => Z.eqb (int_of_bool b) z
  | VBool b1, VBool b2 => Bool.eqb b1 b2
  | VNone, VNone => true
  | _, _ => false
  end.

Fixpoint items_loop (eqv : Value -> Value -> option bool)
    (d2 : list (string * Value)) (items : list (string * Value))
    (item2_keys : list string) : option bool :=
  match items with
  | [] => Some (Nat.eqb (List.length item2_keys) 0)
  | (key, value) :: rest =>
      match dict_get key d2 with
      | None => Some false
      | Some value2 =>
          let item2_keys := remove string_dec key item2_keys in
          equal <- eqv value value2 ;;
          if equal then items_loop eqv d2 rest item2_keys else Some false
      end
  end.

Fixpoint range_loop (eqv : Value -> Value -> option bool)
    (l1 l2 : list Value) : option bool :=
  match l1, l2 with
  | x :: r1, y :: r2 =>
      equal <- eqv x y ;;
      if equal then range_loop eqv r1 r2 else Some false
  | _, _ => Some true
  end.

Fixpoint deep_equals (fuel : nat) (h : Heap) (item1 item2 : Value)
    : option bool :=
  match fuel with
  | 0 => None
  | S fuel =>
      match item1, item2 with
      | VRef a1, VRef a2 =>
          o1 <- read h a1 ;;
          o2 <- read h a2 ;;
          match o1, o2 with
          | ODict d1, ODict d2 =>
              items_loop (deep_equals fuel h) d2 d1
                         (nodup string_dec (dict_keys d2))
          | OList l1, OList l2 =>
              if negb (Nat.eqb (List.length l1) (List.length l2))
              then Some false
              else range_loop (deep_equals fuel h) l1 l2
          | _, _ => Some false
          end
      | VRef _, _ | _, VRef _ => Some false
      | _, _ => Some (py_eq item1 item2)
      end
  end.

Fixpoint copy_items (copy : Heap -> Value -> option (Heap * Value))
    (h : Heap) (items : list (string * Value))
    : option (Heap * list (string * Value)) :=
  match items with
  | [] => Some (h, [])
  | (key, value) :: rest =>
      '(h, value') <- copy h value ;;
      '(h, rest') <- copy_items copy h rest ;;
      Some (h, (key, value') :: rest')
  end.

Fixpoint copy_elems (copy : Heap -> Value -> option (Heap * Value))
    (h : Heap) (elems : list Value) : option (Heap * list Value) :=
  match elems with
  | [] => Some (h, [])
  | value :: rest =>
      '(h, value') <- copy h value ;;
      '(h, rest') <- copy_elems copy h rest ;;
      Some (h, value' :: rest')
  end.

(** [copy.deepcopy] on a value whose objects form a tree: every dictionary
    and list reached is built anew, scalars are kept. *)
Fixpoint deepcopy (fuel : nat) (h : Heap) (v : Value) : option (Heap * Value) :=
  match fuel with
  | 0 => None
  | S fuel =>
      match v with
      | VRef a =>
          o <- read h a ;;
          match o with
          | ODict items =>
              '(h, items') <- copy_items (deepcopy fuel) h items ;;
              Some (alloc (ODict items') h)
          | OList elems =>
              '(h, elems') <- copy_elems (deepcopy fuel) h elems ;;
              Some (alloc (OList elems') h)
          end
      | _ => Some (h, v)
      end
  end.

(** [key in x]. *)
Definition py_in (key : string) (x : Value) (h : Heap) : option bool :=
  match x with
  | VRef a =>
      o <- read h a ;;
      match o with
      | ODict items => Some (dict_mem key items)
      | OList elems =>
          Some (existsb (fun e => match e with
                                  | VStr s => String.eqb key s
                                  | _ => false
                                  end) elems)
      end
  | VStr s => Some (contains key s)
  | _ => None
  end.

(** [x[key]]. *)
Definition py_getitem (key : string) (x : Value) (h : Heap) : option Value :=
  match x with
  | VRef a =>
      o <- read h a ;;
      match o with
      | ODict items => dict_get key items
      | OList _ => None
      end
  | _ => None
  end.

(** [x[key] = v]: the object at the address of [x] is changed in place. *)
Definition py_setitem (key : string) (v : Value) (x : Value) (h : Heap)
    : option Heap :=
  match x with
  | VRef a =>
      o <- read h a ;;
      match o with
      | ODict items => Some (write a (ODict (dict_set key v items)) h)
      | OList _ => None
      end
  | _ => None
  end.

(** [x.items()], as the list of the entries at this moment. *)
Definition py_items (x : Value) (h : Heap) : option (list (string * Value)) :=
  match x with
  | VRef a =>
      o <- read h a ;;
      match o with
      | ODict items => Some items
      | OList _ => None
      end
  | _ => None
  end.

Inductive Event : Type :=
| Debug_creating_schema (name : string)
| Error_already_defined (name : string).

(** The objects, [self.schema] and the log. *)
Record Manager : Type := mkManager {
  heap : Heap;
  schema : Value;
  log : list Event
}.

(** [self.schema["components"]["schemas"]]. *)
Definition component_schemas (root : Value) (h : Heap) : option Value :=
  components <- py_getitem "components" root h ;;
  py_getitem "schemas" components h.

Definition add_new_schema (fuel : nat) (name : string) (new_schema : Value)
    (self : Manager) : option Manager :=
  let h := heap self in
  has_components <- py_in "components" (schema self) h ;;
  h <- (if negb has_components
        then let (h, empty) := alloc (ODict []) h in
             py_setitem "components" empty (schema self) h
        else Some h) ;;
  components <- py_getitem "components" (schema self) h ;;
  has_schemas <- py_in "schemas" components h ;;
  h <- (if negb has_schemas
        then let (h, empty) := alloc (ODict []) h in
             py_setitem "schemas" empty components h
        else Some h) ;;
  schemas <- py_getitem "schemas" components h ;;
  has_name <- py_in name schemas h ;;
  if negb has_name then
    '(h, copy) <- deepcopy fuel h new_schema ;;
    h <- py_setitem name copy schemas h ;;
    Some (mkManager h (schema self)
                    (log self ++ [Debug_creating_schema name])%list)
  else
    existing_schema <- py_getitem name schemas h ;;
    equal <- deep_equals fuel h existing_schema new_schema ;;
    if negb equal
    then Some (mkManager h (schema self)
                         (log self ++ [Error_already_defined name])%list)
    else Some (mkManager h (schema self) (log self)).

(** The [for schema_name, schema in ...["schemas"].items()] of
    [process_schema] for a property without [items]: every entry that
    [deep_equals] finds equal to [prop_values] assigns
    [schema_props[prop_name]] anew; the [continue] goes on with the next
    entry. *)
Fixpoint scan_for_property (fuel : nat) (schema_props : Value)
    (prop_name : string) (prop_values : Value)
    (entries : list (string * Value)) (h : Heap) : option Heap :=
  match entries with
  | [] => Some h
  | (schema_name, entry) :: rest =>
      equal <- deep_equals fuel h prop_values entry ;;
      h <- (if equal
            then let (h, ref) :=
                   alloc (ODict [("$ref",
                                  VStr ("#/components/schemas/" ++ schema_name))])
                         h in
                 py_setitem prop_name ref schema_props h
            else Some h) ;;
      scan_for_property fuel schema_props prop_name prop_values rest h
  end.

(** The same loop for a property with [items]: [prop_values["items"]] is
    read again for every entry, and the assignment goes to
    [schema_props[prop_name]["items"]]. *)
Fixpoint scan_for_items (fuel : nat) (schema_props : Value)
    (prop_name : string) (prop_values : Value)
    (entries : list (string * Value)) (h : Heap) : option Heap :=
  match entries with
  | [] => Some h
  | (schema_name, entry) :: rest =>
      items <- py_getitem "items" prop_values h ;;
      equal <- deep_equals fuel h items entry ;;
      h <- (if equal
            then let (h, ref) :=
                   alloc (ODict [("$ref",
                                  VStr ("#/components/schemas/" ++ schema_name))])
                         h in
                 target <- py_getitem prop_name schema_props h ;;
                 py_setitem "items" ref target h
            else Some h) ;;
      scan_for_items fuel schema_props prop_name prop_values rest h
  end.

(** The [for prop_name, prop_values in schema_props.items()] of
    [process_schema], over the keys that the dictionary has when the loop
    starts; the value under a key is read when its turn comes. *)
Fixpoint properties_loop (process : Value -> Heap -> option Heap)
    (fuel : nat) (root schema_props : Value) (prop_names : list string)
    (h : Heap) : option Heap :=
  match prop_names with
  | [] => Some h
  | prop_name :: rest =>
      prop_values <- py_getitem prop_name schema_props h ;;
      has_items <- py_in "items" prop_values h ;;
      h <- (if has_items then
              items <- py_getitem "items" prop_values h ;;
              has_ref <- py_in "$ref" items h ;;
              if negb has_ref then
                catalog <- component_schemas root h ;;
                entries <- py_items catalog h ;;
                scan_for_items fuel schema_props prop_name prop_values entries h
              else Some h
            else
              has_ref <- py_in "$ref" prop_values h ;;
              if negb has_ref then
                catalog <- component_schemas root h ;;
                entries <- py_items catalog h ;;
                h <- scan_for_property fuel schema_props prop_name prop_values
                                       entries h ;;
                process prop_values h
              else Some h) ;;
      properties_loop process fuel root schema_props rest h
  end.

Fixpoint process_schema (fuel : nat) (root : Value) (schema : Value) (h : Heap)
    : option Heap :=
  match fuel with
  | 0 => None
  | S fuel =>
      has_properties <- py_in "properties" schema h ;;
      if has_properties then
        schema_props <- py_getitem "properties" schema h ;;
        props <- py_items schema_props h ;;
        properties_loop (process_schema fuel root) fuel root schema_props
                        (dict_keys props) h
      else Some h
  end.

(** [for schema in ...["schemas"].values(): process_schema(schema)] *)
Fixpoint values_loop (fuel : nat) (root : Value) (entries : list (string * Value))
    (h : Heap) : option Heap :=
  match entries with
  | [] => Some h
  | (_, entry) :: rest =>
      h <- process_schema fuel root entry h ;;
      values_loop fuel root rest h
  end.

Definition consolidate_recursive_object_references (fuel : nat) (self : Manager)
    : option Manager :=
  let h := heap self in
  components <- py_getitem "components" (schema self) h ;;
  has_schemas <- py_in "schemas" components h ;;
  if negb has_schemas then Some self
  else
    catalog <- py_getitem "schemas" components h ;;
    entries <- py_items catalog h ;;
    h <- values_loop fuel (schema self) entries h ;;
    Some (mkManager h (schema self) (log self)).

(** Building the objects of a tree, children first, as a loader does. *)
Fixpoint load (t : Node) (h : Heap) : Heap * Value :=
  match t with
  | NDict items =>
      let (h, items') :=
        (fix load_items (l : list (string * Node)) (h : Heap)
           : Heap * list (string * Value) :=
           match l with
           | [] => (h, [])
           | (k, t) :: rest =>
               let (h, v) := load t h in
               let (h, rest') := load_items rest h in
               (h, (k, v) :: rest')
           end) items h in
      alloc (ODict items') h
  | NList elems =>
      let (h, elems') :=
        (fix load_elems (l : list Node) (h : Heap) : Heap * list Value :=
           match l with
           | [] => (h, [])
           | t :: rest =>
               let (h, v) := load t h in
               let (h, rest') := load_elems rest h in
               (h, v :: rest')
           end) elems h in
      alloc (OList elems') h
  | NStr s => (h, VStr s)
  | NInt z => (h, VInt z)
  | NBool b => (h, VBool b)
  | NNone => (h, VNone)
  end.

(** Reading the tree under a value back. *)
Fixpoint dump (fuel : nat) (h : Heap) (v : Value) : option Node :=
  match fuel with
  | 0 => None
  | S fuel =>
      match v with
      | VNone => Some NNone
      | VBool b => Some (NBool b)
      | VInt z => Some (NInt z)
      | VStr s => Some (NStr s)
      | VRef a =>
          o <- read h a ;;
          match o with
          | ODict items =>
              items' <-
                (fix dump_items (l : list (string * Value))
                   : option (list (string * Node)) :=
                   match l with
                   | [] => Some []
                   | (k, v) :: rest =>
                       t <- dump fuel h v ;;
                       rest' <- dump_items rest ;;
                       Some ((k, t) :: rest')
                   end) items ;;
              Some (NDict items')
          | OList elems =>
              elems' <-
                (fix dump_elems (l : list Value) : option (list Node) :=
                   match l with
                   | [] => Some []
                   | v :: rest =>
                       t <- dump fuel h v ;;
                       rest' <- dump_elems rest ;;
                       Some (t :: rest')
                   end) elems ;;
              Some (NList elems')
          end
      end
  end.

(** [v] stands in [h] for the tree [t], through objects at addresses that
    satisfy [P]. *)
Fixpoint repr (P : nat -> Prop) (h : Heap) (v : Value) (t : Node) {struct t}
    : Prop :=
  match t with
  | NDict titems =>
      match v with
      | VRef a =>
          P a /\
          match read h a with
          | Some (ODict items) =>
              (fix all (items : list (string * Value))
                   (titems : list (string * Node)) {struct titems} : Prop :=
                 match items, titems with
                 | [], [] => True
                 | (k, v) :: items, (k', t) :: titems =>
                     k = k' /\ repr P h v t /\ all items titems
                 | _, _ => False
                 end) items titems
          | _ => False
          end
      | _ => False
      end
  | NList telems =>
      match v with
      | VRef a =>
          P a /\
          match read h a with
          | Some (OList elems) =>
              (fix all (elems : list Value) (telems : list Node)
                   {struct telems} : Prop :=
                 match elems, telems with
                 | [], [] => True
                 | v :: elems, t :: telems => repr P h v t /\ all elems telems
                 | _, _ => False
                 end) elems telems
          | _ => False
          end
      | _ => False
      end
  | NStr s => v = VStr s
  | NInt z => v = VInt z
  | NBool b => v = VBool b
  | NNone => v = VNone
  end.

End Store.


(** One entry of a dictionary object stands for one entry of a tree. *)
Definition repr_item (P : nat -> Prop) (h : Store.Heap)
    (kv : string * Store.Value) (kt : string * Node) : Prop :=
  fst kv = fst kt /\ Store.repr P h (snd kv) (snd kt).



(** The document is a dictionary at [r] whose [components] is a dictionary
    at [cs] whose [schemas] is the catalog, a dictionary at [c]. *)
Definition catalog_at (h : Store.Heap) (root : Store.Value) (r cs c : nat)
    (catalog : list (string * Store.Value)) : Prop :=
  root = Store.VRef r
  /\ (exists top, Store.read h r = Some (Store.ODict top)
                  /\ dict_get "components" top = Some (Store.VRef cs))
  /\ (exists comps, Store.read h cs = Some (Store.ODict comps)
                    /\ dict_get "schemas" comps = Some (Store.VRef c))
  /\ Store.read h c = Some (Store.ODict catalog).

(* ================================================================== *)
(** * Sample inputs *)

(** An endpoint that can be asked by terminal or by commodity. *)
Definition id_terminal_required := mkParam "id_terminal" "int" 11 true.
Definition id_commodity_required := mkParam "id_commodity" "int" 11 true.
Definition id_terminal_optional := mkParam "id_terminal" "int" 11 false.

Definition commodities_prices_parser : Parser :=
  mkParser "commodities_prices" "/commodities_prices" false
           [id_terminal_required; id_commodity_required] [].

(** The endpoint [commodity] of the scenario. *)
Definition commodity_parser : Parser :=
  mkParser "commodity" "/commodity" false
           [id_commodity_required] [id_terminal_optional].

(** The schema [Foo] of the specification's scenario, with [x] a string and
    with [x] a number, and the first with its keys in the other order. *)
Definition foo_string : Node :=
  NDict [ ("type", NStr "object");
          ("properties", NDict [ ("x", NDict [ ("type", NStr "string") ]) ]) ].

Definition foo_number : Node :=
  NDict [ ("type", NStr "object");
          ("properties", NDict [ ("x", NDict [ ("type", NStr "number") ]) ]) ].

Definition foo_string_reordered : Node :=
  NDict [ ("properties", NDict [ ("x", NDict [ ("type", NStr "string") ]) ]);
          ("type", NStr "object") ].

(** A document whose catalog holds [Foo]. *)
Definition foo_document : Node :=
  NDict [ ("paths", NDict []);
          ("components", NDict [ ("schemas", NDict [ ("Foo", foo_string) ]) ]) ].

Definition foo_manager : Manager := mkManager foo_document [].

(** Two schemas that differ in the type of one scalar only, the boolean
    [True] against the integer [1], and a catalog that holds the first. *)
Definition flag_true : Node :=
  NDict [ ("type", NStr "boolean"); ("default", NBool true) ].

Definition flag_one : Node :=
  NDict [ ("type", NStr "boolean"); ("default", NInt 1) ].

Definition flag_manager : Manager :=
  mkManager
    (NDict [ ("paths", NDict []);
             ("components", NDict [ ("schemas", NDict [ ("Flag", flag_true) ]) ]) ])
    [].

(** A document with one operation, and data for that operation and for an
    operation that the document does not have. *)
Definition one_operation_document : Node :=
  NDict [ ("openapi", NStr "3.0.0");
          ("paths",
           NDict [ ("/commodities",
                    NDict [ ("get", NDict [ ("summary", NStr "old");
                                            ("responses", NDict []) ]);
                            ("post", NDict [ ("summary", NStr "kept") ]) ]);
                   ("/cities", NDict [ ("get", NDict []) ]) ]) ].

Definition two_operations_data
    : list (string * list (string * list (string * Node))) :=
  [ ("/commodities",
     [ ("get", [ ("operationId", NStr "get_commodities");
                 ("summary", NStr "new") ]) ]);
    ("/terminals", [ ("get", [ ("operationId", NStr "get_terminals") ]) ]) ].

Definition one_operation_merged : Manager :=
  mkManager
    (NDict [ ("openapi", NStr "3.0.0");
             ("paths",
              NDict [ ("/commodities",
                       NDict [ ("get",
                                NDict [ ("summary", NStr "new");
                                        ("responses", NDict []);
                                        ("operationId", NStr "get_commodities") ]);
                               ("post", NDict [ ("summary", NStr "kept") ]) ]);
                      ("/cities", NDict [ ("get", NDict []) ]) ]) ])
    [ Warning_no_data_set "post" "/commodities";
      Warning_no_data_mapping "/cities" ].

(** The response schema of [/commodities_status], whose [buy] and [sell]
    lists have items of different shapes, in a catalog that already holds
    the items of [buy] as [CommodityStatusDTO]. *)
Definition buy_items : Node :=
  NDict [ ("type", NStr "object");
          ("properties", NDict [ ("code", NDict [ ("type", NStr "string") ]) ]) ].

Definition sell_items : Node :=
  NDict [ ("type", NStr "object");
          ("properties", NDict [ ("code", NDict [ ("type", NStr "integer") ]) ]) ].

Definition status_response (buy sell : Node) : Node :=
  NDict [ ("type", NStr "object");
          ("properties",
           NDict [ ("data",
                    NDict [ ("type", NStr "object");
                            ("properties",
                             NDict [ ("buy", NDict [ ("type", NStr "array");
                                                     ("items", buy) ]);
                                     ("sell", NDict [ ("type", NStr "array");
                                                      ("items", sell) ]) ]) ]) ]) ].

Definition status_catalog (response : Node) (rest : list (string * Node))
    : list (string * Node) :=
  ("GetCommoditiesStatusOkResponse", response) :: rest.

Definition status_document (schemas : list (string * Node)) : Node :=
  NDict [ ("paths", NDict []);
          ("components", NDict [ ("schemas", NDict schemas) ]) ].

(** A catalog in which [AddressDTO] and [LocationDTO] have the same shape,
    and [UserDTO] has a property [home] of that shape written inline. *)
Definition city_object : Node :=
  NDict [ ("type", NStr "object");
          ("properties", NDict [ ("city", NDict [ ("type", NStr "string") ]) ]) ].

Definition user_object (home : Node) : Node :=
  NDict [ ("type", NStr "object");
          ("properties", NDict [ ("home", home) ]) ].

Definition two_matches_document (home : Node) : Node :=
  NDict [ ("paths", NDict []);
          ("components",
           NDict [ ("schemas",
                    NDict [ ("AddressDTO", city_object);
                            ("LocationDTO", city_object);
                            ("UserDTO", user_object home) ]) ]) ].

(** The manager whose document is the loaded tree [doc]. *)
Definition loaded (doc : Node) : Store.Manager :=
  let (h, root) := Store.load doc [] in
  Store.mkManager h root [].

(** The document of a manager, read back as a tree. *)
Definition document_of (fuel : nat) (self : Store.Manager) : option Node :=
  Store.dump fuel (Store.heap self) (Store.schema self).

(** A document with an empty catalog, loaded, and the tree [foo_string]
    loaded after it as the caller's schema. *)
Definition empty_catalog_document : Node :=
  NDict [ ("paths", NDict []);
          ("components", NDict [ ("schemas", NDict []) ]) ].

Definition caller_manager : Store.Manager :=
  let (h, root) := Store.load empty_catalog_document [] in
  let (h, _) := Store.load foo_string h in
  Store.mkManager h root [].

Definition caller_schema : Store.Value :=
  snd (Store.load foo_string (fst (Store.load empty_catalog_document []))).

(* ================================================================== *)
(** * Cache keys *)

(** [s.lstrip(c)] and [s.rstrip(c)] for one character, and [s.strip(c)]. *)
Fixpoint lstrip (c : ascii) (s : string) : string :=
  match s with
  | EmptyString => EmptyString
  | String a rest => if Ascii.eqb a c then lstrip c rest else s
  end.

Fixpoint rstrip (c : ascii) (s : string) : string :=
  match s with
  | EmptyString => EmptyString
  | String a rest =>
      match rstrip c rest with
      | EmptyString => if Ascii.eqb a c then EmptyString
                       else String a EmptyString
      | stripped => String a stripped
      end
  end.

Definition strip (c : ascii) (s : string) : string := rstrip c (lstrip c s).

(** [s.replace(old, new)] for a one-character [old]. *)
Fixpoint replace (old : ascii) (new : string) (s : string) : string :=
  match s with
  | EmptyString => EmptyString
  | String a rest =>
      if Ascii.eqb a old then new ++ replace old new rest
      else String a (replace old new rest)
  end.

Definition create_cache_key (_str : string) : string :=
  let _str := strip "/" _str in
  let _str := replace "/" "-" _str in
  let _str := replace "?" "__" _str in
  let _str := replace "=" "--" _str in
  let _str := replace "&" "__" _str in
  _str.

(** [c in s] for a character. *)
Fixpoint occurs (c : ascii) (s : string) : bool :=
  match s with
  | EmptyString => false
  | String a rest => Ascii.eqb a c || occurs c rest
  end.

(* ================================================================== *)
(** * APICollector *)

Record UEXEndpoint : Type := mkEndpoint {
  endpoint_id : string;
  method : string;
  base_path : string;
  description : string;
  docs_url : string;
  is_user_bound : bool;
  links : list UEXEndpointLink
}.

(** An entry of a list of [tag_mapping]: a string, or the compiled pattern
    [^prefix.*$] (every pattern of the table has this form, with a prefix of
    plain characters). *)
Inductive PathPattern : Type :=
| Exact (path : string)
| Pattern (prefix : string).

(** What [.*$] accepts: no newline, but for one that ends the string. *)
Fixpoint one_line (s : string) : bool :=
  match s with
  | EmptyString => true
  | String a rest =>
      if Ascii.eqb a "010" then String.eqb rest EmptyString else one_line rest
  end.

(** The rest of [s] after [prefix], when [s] starts with it. *)
Fixpoint after_prefix (prefix s : string) : option string :=
  match prefix, s with
  | EmptyString, _ => Some s
  | String a prefix, String b s =>
      if Ascii.eqb a b then after_prefix prefix s else None
  | String _ _, EmptyString => None
  end.

(** [re.compile("^prefix.*$").match(s)] as a truth value. *)
Definition pattern_match (prefix s : string) : bool :=
  match after_prefix prefix s with
  | Some rest => one_line rest
  | None => false
  end.

(** The class attribute [tag_mapping]. *)
Definition tag_mapping : list (string * list PathPattern) :=
  [ ("Static", [ Exact "/languages"; Exact "/data_parameters";
                 Exact "/data_extract" ]);
    ("Game", [ Exact "/categories"; Exact "/categories_attributes";
               Exact "/cities"; Exact "/companies"; Exact "/contacts";
               Exact "/contracts"; Exact "/factions"; Exact "/game_versions";
               Exact "/jump_points"; Exact "/jurisdictions"; Exact "/moons";
               Pattern "/orbits"; Exact "/outposts"; Exact "/planets";
               Exact "/poi"; Exact "/release_notes"; Exact "/space_stations";
               Exact "/star_systems"; Pattern "/terminals";
               Exact "/vehicles" ]);
    ("Organizations", [ Pattern "/organizations" ]);
    ("Crew", [ Pattern "/crew" ]);
    ("Commodities", [ Pattern "/commodities" ]);
    ("Fuel", [ Pattern "/fuel" ]);
    ("Marketplace", [ Pattern "/marketplace" ]);
    ("Items", [ Pattern "/items" ]);
    ("Refineries", [ Pattern "/refineries" ]);
    ("Vehicles", [ Pattern "/vehicles" ]) ].

(** [endpoint.base_path in paths]: a string equals no compiled pattern. *)
Definition in_paths (base_path : string) (paths : list PathPattern) : bool :=
  existsb (fun path => match path with
                       | Exact s => String.eqb base_path s
                       | Pattern _ => false
                       end) paths.

(** The [for path in paths] of [get_tags]: whether it comes to a [break]. *)
Fixpoint paths_break (base_path : string) (paths : list PathPattern) : bool :=
  match paths with
  | [] => false
  | Exact s :: rest =>
      if String.eqb base_path s then true else paths_break base_path rest
  | Pattern prefix :: rest =>
      if pattern_match prefix base_path then true
      else paths_break base_path rest
  end.

(** The [for tag, paths in self.tag_mapping.items()] of [get_tags]. *)
Fixpoint tags_loop (base_path : string)
    (mapping : list (string * list PathPattern)) (tags : list string)
    : list string :=
  match mapping with
  | [] => tags
  | (tag, paths) :: rest =>
      if in_paths base_path paths
      then tags_loop base_path rest (tags ++ [tag])%list
      else if paths_break base_path paths
           then tags_loop base_path rest (tags ++ [tag])%list
           else tags_loop base_path rest tags
  end.

Definition get_tags (endpoint : UEXEndpoint) : list string :=
  let tags := if is_user_bound endpoint then ["User"] else [] in
  tags_loop (base_path endpoint) tag_mapping tags.

(** Whether an entry of [tag_mapping] accepts a path. *)
Definition accepts (base_path : string) (path : PathPattern) : bool :=
  match path with
  | Exact s => String.eqb base_path s
  | Pattern prefix => pattern_match prefix base_path
  end.

(* ================================================================== *)
(** * OpenAPIManager.add_paths *)

(** [paths + self.schema["x-path-templates"]]: a list added to a list. *)
Definition add_paths (paths : list string) (self : Manager) : option Manager :=
  existing <- py_getitem "x-path-templates" (schema self) ;;
  match existing with
  | NList elems =>
      doc <- py_setitem "x-path-templates"
                        (NList (map NStr paths ++ elems)%list) (schema self) ;;
      Some (mkManager doc (log self))
  | _ => None
  end.

(** [self.schema["x-path-templates"]]. *)
Definition path_templates (self : Manager) : option Node :=
  py_getitem "x-path-templates" (schema self).

(* ================================================================== *)
(** * Parts of the generator, named *)

(** [parameters_path] of [create_endpoint_url]. *)
Definition parameters_path (self : Parser)
    (required_params : list UEXEndpointParameter) : string :=
  fold_left
    (fun acc parameter =>
       acc ++ param_name parameter ++ "/"
           ++ py_str (get_defaults self (param_name parameter) PyNone) ++ "/")
    required_params "/".

(** The pool of optional selections before the loop: the empty selection,
    then every optional parameter alone. *)
Definition initial_pool (optional_params : list UEXEndpointParameter)
    : list Optionals :=
  OptList [] :: map OptParam optional_params.

(** An endpoint with all its required parameters in one combination. *)
Definition prices_history_parser : Parser :=
  mkParser "commodities_prices_history" "/commodities_prices_history" false
           [id_terminal_required; id_commodity_required]
           [mkParam "date_start" "int" 11 false].

Definition commodity_templated_parser : Parser :=
  mkParser "commodity" "/commodity" true
           [id_commodity_required] [id_terminal_optional].

(** An endpoint asked by one of two required parameters, with an optional
    one, and the same with templated paths. *)
Definition date_start_optional := mkParam "date_start" "int" 11 false.

Definition prices_dated_parser : Parser :=
  mkParser "commodities_prices" "/commodities_prices" false
           [id_terminal_required; id_commodity_required] [date_start_optional].

Definition prices_templated_parser : Parser :=
  mkParser "commodities_prices" "/commodities_prices" true
           [id_terminal_required; id_commodity_required] [date_start_optional].

(** The characters that a cache key is cleared of. *)
Definition key_separators : list ascii := [ "/"; "?"; "="; "&" ]%char.

(** Sample endpoints and a document with two path templates. *)
Definition vehicles_endpoint : UEXEndpoint :=
  mkEndpoint "vehicles" "GET" "/vehicles" "Vehicles" "" false [].

Definition fleet_endpoint : UEXEndpoint :=
  mkEndpoint "fleet" "GET" "/fleet" "Fleet" "" true [].

Definition templates_manager : Manager :=
  mkManager
    (NDict [ ("paths", NDict []);
             ("x-path-templates", NList [ NStr "/cities/"; NStr "/moons/" ]) ])
    [].

(** The root schema named by a selector of [schema_name_by_property_path]. *)
Definition selector_root (selector : string) : string :=
  hd "" (split "." selector).

(** Every attribute dictionary of [data_by_path] holds a key once. *)
Definition unique_attrs
    (data_by_path : list (string * list (string * list (string * Node))))
    : bool :=
  forallb (fun entry =>
             forallb (fun operation => distinct (dict_keys (snd operation)))
                     (snd entry))
          data_by_path.

(** A base document to merge from, and a managed document. *)
Definition base_document : Node :=
  NDict [ ("openapi", NStr "3.0.3");
          ("info", NDict [ ("title", NStr "UEX API") ]) ].

Definition managed_document : Node :=
  NDict [ ("info", NDict [ ("title", NStr "old"); ("version", NStr "1") ]);
          ("externalDocs", NDict [ ("url", NStr "https://uexcorp.space") ]);
          ("paths", NDict []) ].

(** [isinstance(d, dict)]. *)
Definition is_dict (d : Node) : bool :=
  match d with
  | NDict _ => true
  | _ => false
  end.

(* ================================================================== *)
(** * OpenAPIManager.create_initial_response_schemas *)

(** A [for] loop over a list whose body changes the manager or raises. *)
Fixpoint for_each {A : Type} (body : A -> Manager -> option Manager)
    (l : list A) (self : Manager) : option Manager :=
  match l with
  | [] => Some self
  | x :: rest =>
      self <- body x self ;;
      for_each body rest self
  end.

(** The dictionary literal that names the response codes. *)
Definition response_code_names : list (string * string) :=
  [ ("200", "Ok"); ("201", "Created"); ("400", "Bad_Request");
    ("401", "Unauthorized"); ("403", "Forbidden"); ("404", "Not_Found");
    ("405", "Method_Not_Allowed"); ("429", "Too_Many_Requests");
    ("500", "Internal_Server_Error"); ("503", "Service_Unavailable") ].

(** The dictionary at the end of [location] was given [value] under its last
    key, in place: the document that holds it. *)
Fixpoint assign (location : list string) (value : Node) (d : Node)
    : option Node :=
  match location with
  | [] => Some value
  | [key] => py_setitem key value d
  | key :: rest =>
      child <- py_getitem key d ;;
      child <- assign rest value child ;;
      py_setitem key child d
  end.

(** [items.get(key, {})]. *)
Definition get_or_empty (key : string) (items : list (string * Node)) : Node :=
  match dict_get key items with
  | Some value => value
  | None => NDict []
  end.

(** The dictionary comprehension [path_with_operations]: for every link,
    [self.schema["paths"].get(link, {})]. *)
Fixpoint path_with_operations (links : list UEXEndpointLink) (doc : Node)
    (acc : list (string * Node)) : option (list (string * Node)) :=
  match links with
  | [] => Some acc
  | link_template :: rest =>
      paths <- py_getitem "paths" doc ;;
      items <- py_items paths ;;
      let operations := get_or_empty (link link_template) items in
      path_with_operations rest doc (dict_set (link link_template) operations acc)
  end.

Section ResponseSchemas.
(** [str.lower] and [stringcase.pascalcase], which this file does not
    define: what is proved holds whatever they return. *)
Variable str_lower : string -> string.
Variable pascalcase : string -> string.

Definition response_schema_name (endpoint_name operation
                                 response_code_str : string) : string :=
  pascalcase (str_lower operation ++ "_" ++ endpoint_name ++ "_"
              ++ str_lower response_code_str ++ "_response").

(** The body of [for content_type, content_props in ...["content"].items()]. *)
Definition content_body (endpoint_name path operation response_code
                         response_code_str : string)
    (content : string * Node) (self : Manager) : option Manager :=
  let (content_type, content_props) := content in
  has_schema <- py_in "schema" content_props ;;
  if negb has_schema then Some self
  else
    schema_props <- py_getitem "schema" content_props ;;
    let new_ref :=
      response_schema_name endpoint_name operation response_code_str in
    self <- add_new_schema new_ref schema_props self ;;
    doc <- assign [ "paths"; path; operation; "responses"; response_code;
                    "content"; content_type; "schema" ]
                  (ref_to new_ref) (schema self) ;;
    Some (mkManager doc (log self)).

(** The body of [for response_code, response_props in ...["responses"].items()]. *)
Definition response_body (endpoint_name path operation : string)
    (response : string * Node) (self : Manager) : option Manager :=
  let (response_code, response_props) := response in
  response_code_str <- dict_get response_code response_code_names ;;
  has_content <- py_in "content" response_props ;;
  if negb has_content then Some self
  else
    content <- py_getitem "content" response_props ;;
    contents <- py_items content ;;
    for_each (content_body endpoint_name path operation response_code
                           response_code_str)
             contents self.

(** The body of [for operation, props in operations.items()]. *)
Definition operation_body (endpoint_name path : string)
    (entry : string * Node) (self : Manager) : option Manager :=
  let (operation, props) := entry in
  has_responses <- py_in "responses" props ;;
  if negb has_responses then Some self
  else
    responses <- py_getitem "responses" props ;;
    responses <- py_items responses ;;
    for_each (response_body endpoint_name path operation) responses self.

(** The body of [for path, operations in path_with_operations.items()]. *)
Definition path_body (endpoint_name : string) (entry : string * Node)
    (self : Manager) : option Manager :=
  let (path, operations) := entry in
  operations <- py_items operations ;;
  for_each (operation_body endpoint_name path) operations self.

Definition create_initial_response_schemas (endpoint : UEXEndpoint)
    (self : Manager) : option Manager :=
  let endpoint_name :=
    str_lower (strip "_" (replace "/" "_" (base_path endpoint))) in
  entries <- path_with_operations (links endpoint) (schema self) [] ;;
  for_each (path_body endpoint_name) entries self.
End ResponseSchemas.

(** A document with a response schema written inline, and with a response
    code that has no name. *)
Definition response_document (code : string) : Node :=
  NDict [ ("paths",
           NDict [ ("/cities/",
                    NDict [ ("get",
                             NDict [ ("responses",
                                      NDict [ (code,
                                               NDict [ ("content",
                                                        NDict [ ("application/json",
                                                                 NDict [ ("schema", foo_string) ]) ]) ]) ]) ]) ]) ]);
          ("components", NDict [ ("schemas", NDict [ ("Foo", foo_string) ]) ]) ].

Definition cities_endpoint : UEXEndpoint :=
  mkEndpoint "cities" "GET" "/cities" "Cities" "" false
             [ mkLink "/cities/" [] ].

Definition towns_endpoint : UEXEndpoint :=
  mkEndpoint "towns" "GET" "/towns" "Towns" "" false
             [ mkLink "/towns/" []; mkLink "/towns/id/{id}/" [] ].

(** Stand-ins for [str.lower] and [stringcase.pascalcase] where a sample
    needs some function. *)
Definition keep_case (s : string) : string := s.

Definition log_of (result : option Manager) : option (list Event) :=
  match result with
  | Some self => Some (log self)
  | None => None
  end.

(* ================================================================== *)
(** * The variant generator *)

Section SetOrderFacts.
Variable set_iter : list UEXEndpointParameter -> list UEXEndpointParameter.
Hypothesis set_iter_order : set_order set_iter.

Lemma set_iter_NoDup l : NoDup (set_iter l).
Proof.
  eapply Permutation_NoDup.
  - apply Permutation_sym, set_iter_order.
  - apply NoDup_nodup.
Qed.

Lemma set_iter_length l :
  List.length (set_iter l) = List.length (nodup param_eq_dec l).
Proof. apply Permutation_length, set_iter_order. Qed.

Lemma set_iter_nil : set_iter [] = [].
Proof.
  apply Permutation_nil, Permutation_sym.
  exact (set_iter_order []).
Qed.

Lemma set_iter_small l :
  List.length (nodup param_eq_dec l) <= 1 ->
  set_iter l = nodup param_eq_dec l.
Proof.
  intros Hlen. pose proof (set_iter_order l) as Hperm.
  destruct (nodup param_eq_dec l) as [|x [|y rest]]; simpl in Hlen.
  - apply Permutation_nil, Permutation_sym, Hperm.
  - apply Permutation_length_1_inv, Permutation_sym, Hperm.
  - lia.
Qed.

Lemma set_iter_idem l : nodup param_eq_dec (set_iter l) = set_iter l.
Proof. apply nodup_fixed_point, set_iter_NoDup. Qed.
End SetOrderFacts.

Lemma insertion_order_ok : set_order insertion_order.
Proof. intros l. apply Permutation_refl. Qed.

Lemma reverse_order_ok : set_order reverse_order.
Proof. intros l. apply Permutation_sym, Permutation_rev. Qed.

(** Taking one element out of a duplicate-free list. *)
Lemma length_filter_drop_one {A : Type} (f : A -> bool) (r : A) l :
  (forall p, f p = false <-> p = r) ->
  NoDup l -> In r l ->
  List.length (filter f l) = List.length l - 1.
Proof.
  intros Hf. induction l as [|x l IH]; intros Hnd Hin; [destruct Hin|].
  inversion Hnd as [|? ? Hx Hl]; subst. cbn [filter List.length].
  destruct (f x) eqn:Efx.
  - destruct Hin as [E|Hin].
    + subst x. assert (f r = false) by (apply Hf; reflexivity). congruence.
    + cbn [List.length]. rewrite IH by assumption.
      destruct l; [destruct Hin|]. cbn [List.length]. lia.
  - apply Hf in Efx. subst x.
    replace (S (List.length l) - 1) with (List.length l) by lia.
    assert (Hall : forall y, In y l -> f y = true).
    { intros y Hy. destruct (f y) eqn:E; [reflexivity|].
      apply Hf in E. subst y. contradiction. }
    clear -Hall. induction l as [|y l IHl]; [reflexivity|].
    cbn [filter]. rewrite (Hall y) by (left; reflexivity).
    cbn [List.length]. f_equal. apply IHl. intros z Hz. apply Hall. now right.
Qed.

Lemma length_without (r : UEXEndpointParameter) l :
  NoDup l -> In r l ->
  List.length
    (filter (fun p => if in_dec param_eq_dec p [r] then false else true) l)
  = List.length l - 1.
Proof.
  apply length_filter_drop_one. intros p.
  destruct (in_dec param_eq_dec p [r]) as [H|H].
  - split; [intros _|reflexivity]. destruct H as [E|[]]. auto.
  - split; [discriminate|]. intros E. exfalso. apply H. left. auto.
Qed.

Lemma filter_all_out (c l : list UEXEndpointParameter) :
  incl l c ->
  filter (fun p => if in_dec param_eq_dec p c then false else true) l = [].
Proof.
  induction l as [|x l IH]; intros Hincl; [reflexivity|].
  cbn [filter]. destruct (in_dec param_eq_dec x c) as [_|Hx].
  - apply IH. intros y Hy. apply Hincl. right. exact Hy.
  - exfalso. apply Hx, Hincl. left. reflexivity.
Qed.

Lemma urls_length self base optional_params requireds :
  get_templated_paths self = false ->
  optional_params <> [] ->
  List.length
    (create_method_urls_for_all_optional_params self base optional_params
                                                requireds)
  = List.length optional_params.
Proof.
  intros Ht Hne. unfold create_method_urls_for_all_optional_params.
  rewrite Ht, orb_false_r.
  destruct optional_params; [congruence|].
  simpl. now rewrite length_map.
Qed.

(** The pool is never emptied between two turns of the loop, so after [k]
    further turns it has grown by [k] differences. *)
Lemma combinations_loop_lengths set_iter self base required_params m :
  get_templated_paths self = false ->
  forall combos optional_params_x,
    optional_params_x <> [] ->
    (forall c, In c combos ->
               List.length (set_difference set_iter required_params c) = m) ->
    map (@List.length _)
        (combinations_loop set_iter self base required_params combos
                           optional_params_x)
    = map (fun k => List.length optional_params_x + (k + 1) * m)
          (seq 0 (List.length combos)).
Proof.
  intros Ht. induction combos as [|c combos IH]; intros opts Hne Hm.
  - reflexivity.
  - cbn [combinations_loop List.length seq map].
    assert (Hne' : (opts ++ map OptParam
                      (set_difference set_iter required_params c))%list <> []).
    { destruct opts; [congruence|discriminate]. }
    rewrite urls_length by assumption.
    rewrite IH; [|assumption|intros; apply Hm; right; assumption].
    rewrite length_app, length_map, (Hm c) by (left; reflexivity).
    f_equal; [lia|].
    rewrite <- seq_shift, map_map.
    apply map_ext. intros k. lia.
Qed.

Lemma set_difference_single set_iter (r : UEXEndpointParameter) l :
  set_order set_iter -> In r (set_iter l) ->
  List.length (set_difference set_iter (set_iter l) [r])
  = List.length (nodup param_eq_dec l) - 1.
Proof.
  intros Hord Hin. unfold set_difference.
  rewrite set_iter_length by assumption.
  rewrite nodup_fixed_point
    by (apply NoDup_filter, set_iter_NoDup; assumption).
  rewrite length_without; auto using set_iter_NoDup.
  now rewrite set_iter_length.
Qed.

Lemma set_difference_all set_iter (c l : list UEXEndpointParameter) :
  set_order set_iter -> incl l c -> set_difference set_iter l c = [].
Proof.
  intros Hord Hincl. unfold set_difference.
  rewrite filter_all_out by assumption. now apply set_iter_nil.
Qed.

(** The links that the generator yields for [commodities_prices], whose page
    declares the two required parameters [id_terminal] and [id_commodity]. *)
Example commodities_prices_variants :
  map (map link) (method_path_blocks insertion_order commodities_prices_parser)
  = [ [ "/commodities_prices/id_terminal/74/";
        "/commodities_prices/id_terminal/74/?id_commodity=33" ];
      [ "/commodities_prices/id_commodity/33/";
        "/commodities_prices/id_commodity/33/?id_commodity=33";
        "/commodities_prices/id_commodity/33/?id_terminal=74" ] ].
Proof. vm_compute. reflexivity. Qed.

(** With templated paths every link is the path alone, and the link without
    optional parameters is yielded twice: once by the test on
    [get_templated_paths] and once for the empty list at the head of the
    pool. *)
Example commodity_templated_paths :
  map link
      (create_method_paths_for_all_params insertion_order
         (mkParser "commodity" "/commodity" true
                   [id_commodity_required] [id_terminal_optional]))
  = [ "/commodity/id_commodity/{id_commodity}/";
      "/commodity/id_commodity/{id_commodity}/";
      "/commodity/id_commodity/{id_commodity}/" ].
Proof. vm_compute. reflexivity. Qed.

(** C1 (what the code does).  In ONE_OF_REQUIRED mode, without templated
    paths, an endpoint with [n >= 1] distinct required and [o] distinct
    optional parameters gets one block of links per required parameter, under
    every iteration order of the sets; the block of the [k]-th required
    parameter (counted from 1) has [1 + o + k * (n - 1)] links, because the
    one pool list is extended in every turn of the loop and never reset.
    Only the first block has the [1 + o + (n - 1)] links that the
    specification counts. *)
Theorem one_of_required_block_sizes set_iter self :
  set_order set_iter ->
  get_templated_paths self = false ->
  ~ In (get_id self) required_args_all ->
  get_required_parameters self <> [] ->
  let n := List.length (nodup param_eq_dec (get_required_parameters self)) in
  let o := List.length (nodup param_eq_dec (get_optional_parameters self)) in
  required_combinations self (py_set set_iter (get_required_parameters self))
  = map (fun r => [r]) (set_iter (get_required_parameters self))
  /\ map (@List.length _) (method_path_blocks set_iter self)
     = map (fun k => 1 + o + (k + 1) * (n - 1)) (seq 0 n).
Proof.
  intros Hord Ht Hid Hreq n o.
  assert (Hcombos :
    required_combinations self (py_set set_iter (get_required_parameters self))
    = map (fun r => [r]) (set_iter (get_required_parameters self))).
  { unfold required_combinations.
    destruct (in_dec string_dec (get_id self) required_args_all);
      [contradiction|reflexivity]. }
  split; [exact Hcombos|].
  unfold method_path_blocks. rewrite Hcombos. unfold py_set.
  assert (Hn : List.length (set_iter (get_required_parameters self)) = n)
    by (now apply set_iter_length).
  assert (Hpos : n <> 0).
  { unfold n. intros H0. apply Hreq.
    destruct (get_required_parameters self) as [|x l]; [reflexivity|].
    assert (Hin : In x (nodup param_eq_dec (x :: l)))
      by (apply nodup_In; left; reflexivity).
    destruct (nodup param_eq_dec (x :: l)); [destruct Hin|discriminate]. }
  rewrite length_map, Hn.
  destruct (Nat.eqb_spec n 0) as [E|_]; [contradiction|].
  cbn [app].
  rewrite (combinations_loop_lengths set_iter self _ _ (n - 1) Ht).
  - rewrite length_map, Hn. cbn [List.length]. rewrite length_map.
    rewrite set_iter_length by assumption. reflexivity.
  - discriminate.
  - intros c Hc. apply in_map_iff in Hc. destruct Hc as [r [<- Hr]].
    now apply set_difference_single.
Qed.

Lemma one_of_required_block_sizes_witness :
  map (@List.length _)
      (method_path_blocks insertion_order commodities_prices_parser)
  = [2; 3].
Proof.
  refine (proj2 (one_of_required_block_sizes insertion_order
                   commodities_prices_parser insertion_order_ok eq_refl _ _)).
  - intros [H|[]]. discriminate H.
  - discriminate.
Defined.

Lemma nodup_single (x : UEXEndpointParameter) : nodup param_eq_dec [x] = [x].
Proof. reflexivity. Qed.

(** C2 (as stated, refuted).  For the endpoint [commodity] the generator does
    not yield [/commodity/33] and [/commodity/33?id_terminal=74]. *)
Lemma commodity_scenario_urls_differ :
  map link (create_method_paths_for_all_params insertion_order commodity_parser)
  <> [ "/commodity/33"; "/commodity/33?id_terminal=74" ].
Proof. vm_compute. discriminate. Qed.

(** C2 (amended).  For the endpoint with id [commodity], base path
    [/commodity], the required parameter [id_commodity] and the optional
    parameter [id_terminal], generating sample URLs (not templated paths),
    the generator yields exactly the two links
    [/commodity/id_commodity/33/] and
    [/commodity/id_commodity/33/?id_terminal=74]: a required parameter goes
    into the path as [name/value/], under every iteration order. *)
Theorem commodity_scenario_urls set_iter ty1 len1 ty2 len2 :
  set_order set_iter ->
  map link
      (create_method_paths_for_all_params set_iter
         (mkParser "commodity" "/commodity" false
                   [mkParam "id_commodity" ty1 len1 true]
                   [mkParam "id_terminal" ty2 len2 false]))
  = [ "/commodity/id_commodity/33/";
      "/commodity/id_commodity/33/?id_terminal=74" ].
Proof.
  intros Hord.
  unfold create_method_paths_for_all_params, method_path_blocks, py_set.
  cbn [get_required_parameters get_optional_parameters get_base_path].
  rewrite !(set_iter_small set_iter Hord) by (cbn; lia).
  rewrite !nodup_single.
  unfold required_combinations. cbn [get_id].
  destruct (in_dec string_dec _ required_args_all) as [[H|[]]|_];
    [discriminate H|].
  cbn [map List.length Nat.eqb app combinations_loop].
  rewrite set_difference_all
    by (assumption || (intros x Hx; exact Hx)).
  vm_compute. reflexivity.
Qed.

Lemma commodity_scenario_urls_witness :
  map link (create_method_paths_for_all_params reverse_order commodity_parser)
  = [ "/commodity/id_commodity/33/";
      "/commodity/id_commodity/33/?id_terminal=74" ].
Proof.
  exact (commodity_scenario_urls reverse_order "int" 11%Z "int" 11%Z
           reverse_order_ok).
Defined.

(** C3 (as stated, refuted).  Two admissible iteration orders of the sets
    give the same endpoint different links: the output is not a function of
    the declared order and the mode alone. *)
Lemma generation_depends_on_set_order :
  set_order insertion_order /\ set_order reverse_order /\
  create_method_paths_for_all_params insertion_order commodities_prices_parser
  <> create_method_paths_for_all_params reverse_order commodities_prices_parser.
Proof.
  split; [exact insertion_order_ok|]. split; [exact reverse_order_ok|].
  vm_compute. discriminate.
Qed.

(** C3 (amended).  The links and their order are a function of the declared
    parameters, the endpoint id, the template flag and the iteration order of
    the two parameter sets.  Where the page declares at most one distinct
    required and at most one distinct optional parameter no other order
    exists, and every run yields the same links in the same order. *)
Theorem generation_deterministic_small set_iter1 set_iter2 self :
  set_order set_iter1 -> set_order set_iter2 ->
  List.length (nodup param_eq_dec (get_required_parameters self)) <= 1 ->
  List.length (nodup param_eq_dec (get_optional_parameters self)) <= 1 ->
  create_method_paths_for_all_params set_iter1 self
  = create_method_paths_for_all_params set_iter2 self.
Proof.
  intros H1 H2 Hr Ho.
  unfold create_method_paths_for_all_params, method_path_blocks, py_set.
  rewrite !(set_iter_small set_iter1 H1), !(set_iter_small set_iter2 H2)
    by assumption.
  f_equal. f_equal.
  set (R := nodup param_eq_dec (get_required_parameters self)) in *.
  assert (Hcombo : forall c, In c (required_combinations self R) -> incl R c).
  { intros c Hc. unfold required_combinations in Hc.
    destruct (in_dec string_dec (get_id self) required_args_all).
    - destruct Hc as [<-|[]]. intros x Hx. exact Hx.
    - destruct R as [|r [|r' R']]; cbn in Hr; try lia.
      + destruct Hc.
      + destruct Hc as [<-|[]]. intros x Hx. exact Hx. }
  revert Hcombo. generalize (required_combinations self R).
  generalize (OptList [] :: map OptParam
                (nodup param_eq_dec (get_optional_parameters self))).
  intros opts combos. revert opts.
  induction combos as [|c combos IH]; intros opts Hcombo; [reflexivity|].
  cbn [combinations_loop].
  rewrite !set_difference_all
    by (assumption || (apply Hcombo; left; reflexivity)).
  f_equal. apply IH. intros c' Hc'. apply Hcombo. now right.
Qed.

Lemma generation_deterministic_small_witness :
  create_method_paths_for_all_params insertion_order commodity_parser
  = create_method_paths_for_all_params reverse_order commodity_parser.
Proof.
  apply (generation_deterministic_small insertion_order reverse_order
           commodity_parser insertion_order_ok reverse_order_ok);
    vm_compute; lia.
Defined.
(* ================================================================== *)
(** * Dictionaries *)

Section DictFacts.
Context {V : Type}.
Implicit Types (d : list (string * V)) (k : string) (v : V).

Lemma dict_get_in d k v : dict_get k d = Some v -> In (k, v) d.
Proof.
  induction d as [|[k' v'] d IH]; cbn [dict_get]; [discriminate|].
  destruct (String.eqb_spec k k') as [->|_].
  - intros [= ->]. now left.
  - intros H. right. auto.
Qed.

Lemma dict_get_key d k v : dict_get k d = Some v -> In k (dict_keys d).
Proof.
  intros H. apply dict_get_in in H.
  apply in_map_iff. now exists (k, v).
Qed.

Lemma dict_key_get d k : In k (dict_keys d) -> exists v, dict_get k d = Some v.
Proof.
  induction d as [|[k' v'] d IH]; cbn [dict_keys map fst dict_get];
    [intros []|].
  destruct (String.eqb_spec k k') as [->|Hne].
  - intros _. now exists v'.
  - intros [E|Hin]; [congruence|]. now apply IH.
Qed.

Lemma dict_get_none d k : dict_get k d = None <-> ~ In k (dict_keys d).
Proof.
  split.
  - intros Hn Hin. apply dict_key_get in Hin. destruct Hin as [v Hv].
    congruence.
  - intros Hn. destruct (dict_get k d) eqn:E; [|reflexivity].
    exfalso. apply Hn. eapply dict_get_key. eassumption.
Qed.

Lemma dict_in_get d k v :
  NoDup (dict_keys d) -> In (k, v) d -> dict_get k d = Some v.
Proof.
  induction d as [|[k' v'] d IH]; cbn [dict_keys map fst dict_get];
    intros Hnd Hin; [destruct Hin|].
  inversion Hnd as [|? ? Hk Hd]; subst.
  destruct Hin as [[= -> ->]|Hin].
  - now rewrite String.eqb_refl.
  - destruct (String.eqb_spec k k') as [->|_]; [|auto].
    exfalso. apply Hk. apply in_map_iff. now exists (k', v).
Qed.

Lemma dict_mem_true d k : dict_mem k d = true <-> In k (dict_keys d).
Proof.
  unfold dict_mem. split.
  - destruct (dict_get k d) eqn:E; [|discriminate].
    intros _. eapply dict_get_key. eassumption.
  - intros H. apply dict_key_get in H. destruct H as [v ->]. reflexivity.
Qed.

Lemma dict_set_same d k v : dict_get k d = Some v -> dict_set k v d = d.
Proof.
  induction d as [|[k' v'] d IH]; cbn [dict_get dict_set]; [discriminate|].
  destruct (String.eqb_spec k k') as [->|_].
  - now intros [= ->].
  - intros H. now rewrite IH.
Qed.

Lemma dict_get_set d k k' v :
  dict_get k (dict_set k' v d)
  = if String.eqb k k' then Some v else dict_get k d.
Proof.
  induction d as [|[k0 v0] d IH]; cbn [dict_get dict_set].
  - destruct (String.eqb k k'); reflexivity.
  - destruct (String.eqb_spec k' k0) as [->|Hne]; cbn [dict_get].
    + destruct (String.eqb k k0); reflexivity.
    + rewrite IH. destruct (String.eqb_spec k k0) as [->|_]; [|reflexivity].
      destruct (String.eqb_spec k0 k'); [congruence|reflexivity].
Qed.

Lemma dict_keys_set d k v :
  dict_mem k d = true -> dict_keys (dict_set k v d) = dict_keys d.
Proof.
  unfold dict_mem.
  induction d as [|[k0 v0] d IH]; cbn [dict_get dict_set dict_keys map fst];
    [discriminate|].
  destruct (String.eqb_spec k k0) as [->|_]; [reflexivity|].
  intros H. cbn [map fst]. f_equal. now apply IH.
Qed.

Lemma dict_set_set d k v w : dict_set k v (dict_set k w d) = dict_set k v d.
Proof.
  induction d as [|[k0 v0] d IH]; cbn [dict_set].
  - now rewrite String.eqb_refl.
  - destruct (String.eqb_spec k k0) as [->|Hne]; cbn [dict_set].
    + now rewrite String.eqb_refl.
    + destruct (String.eqb_spec k k0); [congruence|]. now rewrite IH.
Qed.
End DictFacts.

Lemma distinct_NoDup keys : distinct keys = true <-> NoDup keys.
Proof.
  induction keys as [|k keys IH]; cbn [distinct].
  - split; [constructor|reflexivity].
  - destruct (in_dec string_dec k keys) as [Hin|Hout]; cbn [andb].
    + split; [discriminate|]. intros H. inversion H. contradiction.
    + rewrite IH. split.
      * intros H. now constructor.
      * intros H. now inversion H.
Qed.

(* ================================================================== *)
(** * Induction on trees *)

Lemma Node_nested_ind (P : Node -> Prop) :
  (forall items, Forall (fun kv => P (snd kv)) items -> P (NDict items)) ->
  (forall elems, Forall P elems -> P (NList elems)) ->
  (forall s, P (NStr s)) -> (forall z, P (NInt z)) ->
  (forall b, P (NBool b)) -> P NNone ->
  forall n, P n.
Proof.
  intros Hdict Hlist Hstr Hint Hbool Hnone.
  fix self 1. intros [items|elems|s|z|b|].
  - apply Hdict. induction items as [|[k v] items IH]; constructor.
    + apply self.
    + exact IH.
  - apply Hlist. induction elems as [|v elems IH]; constructor.
    + apply self.
    + exact IH.
  - apply Hstr.
  - apply Hint.
  - apply Hbool.
  - apply Hnone.
Qed.

Lemma unique_keys_dict items :
  unique_keys (NDict items) = true <->
  NoDup (dict_keys items) /\ Forall (fun kv => unique_keys (snd kv) = true) items.
Proof.
  cbn [unique_keys]. rewrite andb_true_iff, distinct_NoDup.
  apply and_iff_compat_l.
  induction items as [|[k v] items IH].
  - split; [constructor|reflexivity].
  - rewrite andb_true_iff, IH. split.
    + intros [Hv Hr]. now constructor.
    + intros H. inversion H; subst. now split.
Qed.

Lemma unique_keys_list elems :
  unique_keys (NList elems) = true <->
  Forall (fun v => unique_keys v = true) elems.
Proof.
  cbn [unique_keys].
  induction elems as [|v elems IH].
  - split; [constructor|reflexivity].
  - rewrite andb_true_iff, IH. split.
    + intros [Hv Hr]. now constructor.
    + intros H. inversion H; subst. now split.
Qed.

(* ================================================================== *)
(** * deep_equals *)

Lemma deep_equals_dict d1 d2 :
  deep_equals (NDict d1) (NDict d2)
  = items_loop deep_equals d2 d1 (nodup string_dec (dict_keys d2)).
Proof.
  cbn [deep_equals]. generalize (nodup string_dec (dict_keys d2)).
  induction d1 as [|[k v] d1 IH]; intros keys; cbn [items_loop]; [reflexivity|].
  destruct (dict_get k d2); [|reflexivity].
  destruct (deep_equals v n); [|reflexivity]. apply IH.
Qed.

Lemma deep_equals_list l1 l2 :
  deep_equals (NList l1) (NList l2)
  = if negb (Nat.eqb (List.length l1) (List.length l2)) then false
    else range_loop deep_equals l1 l2.
Proof.
  cbn [deep_equals]. destruct (negb _); [reflexivity|].
  revert l2. induction l1 as [|x l1 IH]; intros [|y l2]; cbn [range_loop];
    try reflexivity.
  destruct (deep_equals x y); [|reflexivity]. apply IH.
Qed.

Lemma deep_equals_scalar a b :
  is_scalar a \/ is_scalar b \/
  (exists d l, a = NDict d /\ b = NList l) \/
  (exists d l, a = NList l /\ b = NDict d) ->
  deep_equals a b = py_eq a b.
Proof.
  intros [H|[H|[(d & l & -> & ->)|(d & l & -> & ->)]]];
    try reflexivity; destruct a, b; try reflexivity; destruct H.
Qed.

(** What is left of [item2_keys] once the keys [ks] are removed. *)
Lemma items_loop_true eqv d2 items keys :
  items_loop eqv d2 items keys = true <->
  Forall (fun kv => exists v2, dict_get (fst kv) d2 = Some v2
                               /\ eqv (snd kv) v2 = true) items
  /\ (forall k, In k keys -> In k (dict_keys items)).
Proof.
  revert keys. induction items as [|[k v] items IH]; intros keys;
    cbn [items_loop dict_keys map fst].
  - split.
    + intros H. apply Nat.eqb_eq in H.
      destruct keys; [|discriminate]. split; [constructor|intros ? []].
    + intros [_ H]. destruct keys as [|k keys]; [reflexivity|].
      destruct (H k). now left.
  - destruct (dict_get k d2) as [v2|] eqn:Eg.
    + destruct (eqv v v2) eqn:Ee.
      * rewrite IH. split; intros [Hall Hkeys]; split.
        -- constructor; [now exists v2|exact Hall].
        -- intros k' Hk'. destruct (string_dec k k') as [->|Hne];
             [now left|right].
           apply Hkeys. now apply in_in_remove.
        -- now inversion Hall.
        -- intros k' Hk'. apply in_remove in Hk'. destruct Hk' as [Hin Hne].
           destruct (Hkeys k' Hin) as [E|Hr]; [congruence|exact Hr].
      * split; [discriminate|]. intros [Hall _].
        inversion Hall as [|? ? (w & Hw & Hv) _]; subst. cbn in Hw, Hv.
        congruence.
    + split; [discriminate|]. intros [Hall _].
      inversion Hall as [|? ? (w & Hw & _) _]; subst. cbn in Hw. congruence.
Qed.

Lemma range_loop_true eqv l1 l2 :
  List.length l1 = List.length l2 ->
  (range_loop eqv l1 l2 = true <->
   forall i x y, nth_error l1 i = Some x -> nth_error l2 i = Some y ->
                 eqv x y = true).
Proof.
  revert l2. induction l1 as [|x l1 IH]; intros [|y l2] Hlen;
    cbn [range_loop]; try discriminate.
  - split; [|reflexivity]. intros _ [|i] ? ?; discriminate.
  - injection Hlen as Hlen. destruct (eqv x y) eqn:E.
    + rewrite (IH l2 Hlen). split.
      * intros H [|i] x' y'; cbn [nth_error].
        -- now intros [= <-] [= <-].
        -- apply H.
      * intros H i. apply (H (S i)).
    + split; [discriminate|]. intros H.
      specialize (H 0 x y eq_refl eq_refl). congruence.
Qed.

Ltac kinds_differ :=
  first [ left; exact I
        | right; left; exact I
        | right; right; left; do 2 eexists; split; reflexivity
        | right; right; right; do 2 eexists; split; reflexivity ].

Lemma deep_equals_structural a :
  forall b, unique_keys a = true ->
            (deep_equals a b = true <-> structuralEqual_py a b).
Proof.
  induction a as [d1 IH|l1 IH|s|z|c|] using Node_nested_ind; intros b Hwf.
  - apply unique_keys_dict in Hwf. destruct Hwf as [Hnd Hwf].
    rewrite Forall_forall in IH, Hwf.
    destruct b as [d2| | | | |];
      try (rewrite deep_equals_scalar by kinds_differ;
           split; [discriminate|];
           intros H; inversion H; subst; contradiction).
    rewrite deep_equals_dict, items_loop_true, Forall_forall. split.
    + intros [Hvals Hkeys]. constructor.
      * intros k. split.
        -- intros Hk. apply dict_key_get in Hk. destruct Hk as [v Hv].
           destruct (Hvals (k, v) (dict_get_in _ _ _ Hv)) as (v2 & Hv2 & _).
           eapply dict_get_key. exact Hv2.
        -- intros Hk. apply Hkeys. apply nodup_In. exact Hk.
      * intros k v1 v2 H1 H2. apply dict_get_in in H1.
        destruct (Hvals _ H1) as (w & Hw & He). cbn [fst snd] in Hw, He.
        assert (w = v2) by congruence. subst w.
        apply (IH _ H1); [apply (Hwf _ H1)|exact He].
    + intros H. inversion H as [? ? Hkeys Hvals| |? ? Ha]; subst;
        [|destruct Ha]. split.
      * intros [k v] Hin. cbn [fst snd].
        assert (Hk : In k (dict_keys d2)).
        { apply Hkeys. apply in_map_iff. now exists (k, v). }
        apply dict_key_get in Hk. destruct Hk as [v2 Hv2]. exists v2.
        split; [exact Hv2|].
        apply (IH _ Hin); [apply (Hwf _ Hin)|].
        eapply Hvals; [|exact Hv2]. now apply dict_in_get.
      * intros k Hk. apply Hkeys. apply nodup_In in Hk. exact Hk.
  - apply unique_keys_list in Hwf. rewrite Forall_forall in IH, Hwf.
    destruct b as [|l2| | | |];
      try (rewrite deep_equals_scalar by kinds_differ;
           split; [discriminate|];
           intros H; inversion H; subst; contradiction).
    rewrite deep_equals_list.
    destruct (Nat.eqb_spec (List.length l1) (List.length l2)) as [Hlen|Hlen];
      cbn [negb].
    + rewrite (range_loop_true _ _ _ Hlen). split.
      * intros H. constructor; [exact Hlen|].
        intros i x y Hx Hy. pose proof (nth_error_In _ _ Hx) as Hin.
        apply (IH _ Hin); [apply (Hwf _ Hin)|]. eapply H; eassumption.
      * intros H. inversion H as [|? ? _ Hel|? ? Ha]; subst; [|destruct Ha].
        intros i x y Hx Hy. pose proof (nth_error_In _ _ Hx) as Hin.
        apply (IH _ Hin); [apply (Hwf _ Hin)|]. eapply Hel; eassumption.
    + split; [discriminate|]. intros H.
      inversion H as [|? ? Hl _|? ? Ha]; subst; [contradiction|destruct Ha].
  - rewrite deep_equals_scalar by (left; exact I). split.
    + intros H. apply structural_scalar; [exact I| |exact H].
      destruct b; try exact I; discriminate.
    + intros H. now inversion H.
  - rewrite deep_equals_scalar by (left; exact I). split.
    + intros H. apply structural_scalar; [exact I| |exact H].
      destruct b; try exact I; discriminate.
    + intros H. now inversion H.
  - rewrite deep_equals_scalar by (left; exact I). split.
    + intros H. apply structural_scalar; [exact I| |exact H].
      destruct b; try exact I; discriminate.
    + intros H. now inversion H.
  - rewrite deep_equals_scalar by (left; exact I). split.
    + intros H. apply structural_scalar; [exact I| |exact H].
      destruct b; try exact I; discriminate.
    + intros H. now inversion H.
Qed.

Lemma structural_mono (R S : Node -> Node -> Prop) :
  (forall a b, R a b -> S a b) ->
  forall a b, structural R a b -> structural S a b.
Proof.
  intros HRS a b H.
  induction H as [d1 d2 Hk Hv IH|l1 l2 Hl Hv IH|a b Ha Hb Hr].
  - now apply structural_object.
  - now apply structural_array.
  - apply structural_scalar; auto.
Qed.

Lemma same_value_and_type_py_eq a b :
  same_value_and_type a b -> py_eq a b = true.
Proof.
  destruct a, b; cbn; try contradiction; intros H; subst;
    auto using String.eqb_refl, Z.eqb_refl, Bool.eqb_reflx.
Qed.

Lemma append_inj_r (p a b : string) : p ++ a = p ++ b -> a = b.
Proof.
  induction p as [|c p IH]; cbn; [auto|]. intros [= H]. auto.
Qed.

Lemma deep_equals_ref_to n m :
  deep_equals (ref_to n) (ref_to m) = true <-> n = m.
Proof.
  unfold ref_to. rewrite deep_equals_dict.
  cbn -[String.append String.eqb]. rewrite String.eqb_refl.
  cbn -[String.append String.eqb].
  destruct (string_dec "$ref" "$ref") as [_|H]; [|congruence].
  destruct (String.eqb_spec ("#/components/schemas/" ++ n)
                            ("#/components/schemas/" ++ m)) as [E|E].
  - apply append_inj_r in E. split; auto.
  - split; [discriminate|]. intros ->. congruence.
Qed.

(** C4 (as stated, refuted).  [deep_equals] finds the boolean [True] and the
    integer [1] equal; scalars are not compared by type. *)
Lemma deep_equals_ignores_scalar_type :
  deep_equals (NBool true) (NInt 1) = true
  /\ ~ structuralEqual (NBool true) (NInt 1).
Proof.
  split; [reflexivity|]. intros H.
  inversion H; subst.
  match goal with Hs : same_value_and_type _ _ |- _ => exact Hs end.
Qed.

(** C4 (amended).  For every pair of trees, the first with unique keys as
    every Python dictionary has, [deep_equals] decides structural equality
    with scalars (strings, integers, booleans and [None]) compared by
    Python's [==], so by value, a boolean being equal to the integer of its
    value and scalars of otherwise different types being different: two
    Object nodes are
    equal iff they have the same keys and recursively equal values under
    each key, in any key order; two Array nodes iff they have the same length
    and recursively equal elements at the same index, so [1,2] and [2,1]
    differ; Reference nodes are equal iff they name the same target.  Trees
    that are equal by value and type are found equal. *)
Theorem deep_equals_decides_structural_equality a b :
  unique_keys a = true ->
  (deep_equals a b = true <-> structuralEqual_py a b)
  /\ (structuralEqual a b -> deep_equals a b = true)
  /\ deep_equals (NList [NInt 1; NInt 2]) (NList [NInt 2; NInt 1]) = false
  /\ (forall n m, deep_equals (ref_to n) (ref_to m) = true <-> n = m).
Proof.
  intros Hwf. split; [now apply deep_equals_structural|].
  split; [|split; [reflexivity|exact deep_equals_ref_to]].
  intros H. apply deep_equals_structural; [exact Hwf|].
  revert H. apply structural_mono. exact same_value_and_type_py_eq.
Qed.

Lemma deep_equals_decides_structural_equality_witness :
  (deep_equals foo_string foo_string_reordered = true
   <-> structuralEqual_py foo_string foo_string_reordered)
  /\ (structuralEqual foo_string foo_string_reordered ->
      deep_equals foo_string foo_string_reordered = true)
  /\ deep_equals (NList [NInt 1; NInt 2]) (NList [NInt 2; NInt 1]) = false
  /\ (forall n m, deep_equals (ref_to n) (ref_to m) = true <-> n = m).
Proof.
  exact (deep_equals_decides_structural_equality
           foo_string foo_string_reordered eq_refl).
Defined.

(* ================================================================== *)
(** * add_new_schema *)

Lemma component_schemas_inv doc schemas :
  component_schemas doc = Some schemas ->
  exists top components,
    doc = NDict top
    /\ dict_get "components" top = Some (NDict components)
    /\ dict_get "schemas" components = Some schemas.
Proof.
  unfold component_schemas, bind.
  destruct doc as [top| | | | |]; cbn [py_getitem]; try discriminate.
  destruct (dict_get "components" top) as [[components| | | | |]|] eqn:Ec;
    cbn [py_getitem]; try discriminate.
  intros H. now exists top, components.
Qed.

Lemma component_schemas_set top components schemas schemas' :
  dict_get "components" top = Some (NDict components) ->
  dict_get "schemas" components = Some schemas ->
  component_schemas
    (NDict (dict_set "components"
              (NDict (dict_set "schemas" schemas' components)) top))
  = Some schemas'.
Proof.
  intros Hc Hs. unfold component_schemas, bind. cbn [py_getitem].
  rewrite dict_get_set. cbn [String.eqb Ascii.eqb Bool.eqb]. cbn [py_getitem].
  rewrite dict_get_set. reflexivity.
Qed.

Lemma add_new_schema_present self name new_schema schemas existing :
  component_schemas (schema self) = Some (NDict schemas) ->
  dict_get name schemas = Some existing ->
  add_new_schema name new_schema self
  = Some (mkManager (schema self)
            (log self ++ if deep_equals existing new_schema then []
                         else [Error_already_defined name])%list).
Proof.
  intros Hcat Hname.
  destruct (component_schemas_inv _ _ Hcat) as (top & comps & Hdoc & Hc & Hs).
  unfold add_new_schema. rewrite Hdoc.
  cbn [py_in bind]. unfold dict_mem at 1. rewrite Hc. cbn [negb bind py_getitem].
  rewrite Hc. cbn [bind py_in]. unfold dict_mem at 1. rewrite Hs.
  cbn [negb bind py_getitem]. rewrite Hs. cbn [bind py_in].
  unfold dict_mem. rewrite Hname. cbn [negb bind py_getitem]. rewrite Hname.
  cbn [bind py_setitem]. rewrite (dict_set_same _ _ _ Hc).
  destruct (deep_equals existing new_schema); cbn [negb].
  - rewrite app_nil_r. now destruct self.
  - reflexivity.
Qed.

Lemma add_new_schema_absent self name new_schema schemas :
  component_schemas (schema self) = Some (NDict schemas) ->
  dict_get name schemas = None ->
  exists doc,
    add_new_schema name new_schema self
    = Some (mkManager doc
              (log self ++ [Debug_creating_schema name new_schema])%list)
    /\ component_schemas doc
       = Some (NDict (dict_set name new_schema schemas)).
Proof.
  intros Hcat Hname.
  destruct (component_schemas_inv _ _ Hcat) as (top & comps & Hdoc & Hc & Hs).
  unfold add_new_schema. rewrite Hdoc.
  cbn [py_in bind]. unfold dict_mem at 1. rewrite Hc. cbn [negb bind py_getitem].
  rewrite Hc. cbn [bind py_in]. unfold dict_mem at 1. rewrite Hs.
  cbn [negb bind py_getitem]. rewrite Hs. cbn [bind py_in].
  unfold dict_mem. rewrite Hname. cbn [negb bind py_setitem]. unfold deepcopy.
  eexists. split; [reflexivity|].
  now apply component_schemas_set with (schemas := NDict schemas).
Qed.

Lemma add_new_schema_keeps self name new_schema other schemas existing :
  component_schemas (schema self) = Some (NDict schemas) ->
  dict_get other schemas = Some existing ->
  exists self' schemas',
    add_new_schema name new_schema self = Some self'
    /\ component_schemas (schema self') = Some (NDict schemas')
    /\ dict_get other schemas' = Some existing.
Proof.
  intros Hcat Hother.
  destruct (dict_get name schemas) as [e|] eqn:Hname.
  - rewrite (add_new_schema_present _ _ _ _ _ Hcat Hname).
    eexists. exists schemas. cbn [schema]. auto.
  - destruct (add_new_schema_absent _ _ new_schema _ Hcat Hname)
      as (doc & -> & Hdoc).
    eexists. eexists. cbn [schema]. split; [reflexivity|].
    split; [exact Hdoc|]. rewrite dict_get_set.
    destruct (String.eqb_spec other name) as [->|_]; [congruence|exact Hother].
Qed.

(** Whatever the document, a call that returns leaves the name in the
    catalog, so a second call with the same arguments changes nothing. *)
Lemma add_new_schema_registers name new_schema self self1 :
  add_new_schema name new_schema self = Some self1 ->
  exists schemas existing,
    component_schemas (schema self1) = Some (NDict schemas)
    /\ dict_get name schemas = Some existing.
Proof.
  unfold add_new_schema. destruct (schema self) as [top| | | | |];
    cbn [py_in bind]; try discriminate;
    try (match goal with
         | |- bind (if ?c then _ else _) _ = _ -> _ => destruct c
         end; cbn [py_setitem py_getitem bind]; discriminate).
  set (top1 := if negb (dict_mem "components" top)
               then dict_set "components" (NDict []) top else top).
  replace (if negb (dict_mem "components" top)
           then py_setitem "components" (NDict []) (NDict top)
           else Some (NDict top)) with (Some (NDict top1))
    by (unfold top1; destruct (negb (dict_mem "components" top)); reflexivity).
  cbn [bind py_getitem].
  destruct (dict_get "components" top1) as [components|] eqn:Ec;
    cbn [bind]; [|discriminate].
  destruct components as [comps| | | | |]; cbn [py_in bind]; try discriminate;
    try (match goal with
         | |- bind (if ?c then _ else _) _ = _ -> _ => destruct c
         end; cbn [py_setitem py_getitem bind]; discriminate).
  set (comps1 := if negb (dict_mem "schemas" comps)
                 then dict_set "schemas" (NDict []) comps else comps).
  replace (if negb (dict_mem "schemas" comps)
           then py_setitem "schemas" (NDict []) (NDict comps)
           else Some (NDict comps)) with (Some (NDict comps1))
    by (unfold comps1; destruct (negb (dict_mem "schemas" comps)); reflexivity).
  cbn [bind py_getitem].
  destruct (dict_get "schemas" comps1) as [schemas|] eqn:Es;
    cbn [bind]; [|discriminate].
  destruct schemas as [schemas| | | | |]; cbn [py_in bind]; try discriminate;
    try (match goal with
         | |- (if ?c then _ else _) = _ -> _ => destruct c
         end; cbn [py_setitem py_getitem bind]; discriminate).
  unfold dict_mem at 1.
  destruct (dict_get name schemas) as [existing|] eqn:En;
    cbn [negb py_setitem py_getitem bind].
  - rewrite En. cbn [bind].
    intros H. exists schemas, existing. split; [|exact En].
    assert (Hdoc : schema self1
                   = NDict (dict_set "components" (NDict comps1) top1))
      by (destruct (negb (deep_equals existing new_schema));
          injection H as <-; reflexivity).
    rewrite Hdoc. unfold component_schemas. cbn [py_getitem bind].
    rewrite dict_get_set. cbn [String.eqb Ascii.eqb Bool.eqb py_getitem bind].
    exact Es.
  - intros [= <-]. cbn [schema].
    exists (dict_set name (deepcopy new_schema) schemas), (deepcopy new_schema).
    split.
    + unfold component_schemas. cbn [py_getitem bind].
      rewrite dict_get_set. cbn [String.eqb Ascii.eqb Bool.eqb py_getitem bind].
      now rewrite dict_get_set.
    + now rewrite dict_get_set, String.eqb_refl.
Qed.

Lemma add_new_schema_twice name new_schema self self1 :
  add_new_schema name new_schema self = Some self1 ->
  exists self2,
    add_new_schema name new_schema self1 = Some self2
    /\ schema self2 = schema self1.
Proof.
  intros H. destruct (add_new_schema_registers _ _ _ _ H)
    as (schemas & existing & Hcat & Hname).
  rewrite (add_new_schema_present _ _ new_schema _ _ Hcat Hname).
  eexists. split; reflexivity.
Qed.

(** C5 (as stated, refuted).  The catalog holds a schema whose [default] is
    the boolean [True]; the schema offered for the same name has the integer
    [1] there.  The two are not structurally equal, scalars being compared
    by value and type, yet [add_new_schema] reports no conflict. *)
Lemma add_new_schema_misses_scalar_type_conflict :
  ~ structuralEqual flag_true flag_one
  /\ add_new_schema "Flag" flag_one flag_manager = Some flag_manager.
Proof.
  split; [|reflexivity]. intros H.
  inversion H as [d1 d2 _ Hvalues| |a b Hs]; subst; [|destruct Hs].
  specialize (Hvalues "default" (NBool true) (NInt 1) eq_refl eq_refl).
  inversion Hvalues; subst.
  match goal with Hs : same_value_and_type _ _ |- _ => exact Hs end.
Qed.

(** C5 (amended).  Once the catalog holds a schema under [name], a later
    [add_new_schema] for that name leaves the whole document as it is and
    reports one conflict exactly when [deep_equals] finds the new tree
    different, none otherwise: for a stored tree with unique keys, none when
    the two trees are structurally equal with scalars compared by Python's
    [==] (so [True] against [1] is no conflict), one when they are not.
    After any sequence of [add_new_schema] calls, for this or other names,
    the catalog still holds the original tree under [name]. *)
Theorem add_new_schema_first_writer_wins self name schemas existing :
  component_schemas (schema self) = Some (NDict schemas) ->
  dict_get name schemas = Some existing ->
  (forall new_schema,
      add_new_schema name new_schema self
      = Some (mkManager (schema self)
                (log self ++ if deep_equals existing new_schema then []
                             else [Error_already_defined name])%list))
  /\ (unique_keys existing = true ->
      forall new_schema,
        (structuralEqual_py existing new_schema ->
         add_new_schema name new_schema self
         = Some (mkManager (schema self) (log self)))
        /\ (~ structuralEqual_py existing new_schema ->
            add_new_schema name new_schema self
            = Some (mkManager (schema self)
                      (log self ++ [Error_already_defined name])%list)))
  /\ (forall calls, exists self' schemas',
         add_new_schemas calls self = Some self'
         /\ component_schemas (schema self') = Some (NDict schemas')
         /\ dict_get name schemas' = Some existing).
Proof.
  intros Hcat Hname.
  assert (Hcall : forall new_schema,
      add_new_schema name new_schema self
      = Some (mkManager (schema self)
                (log self ++ if deep_equals existing new_schema then []
                             else [Error_already_defined name])%list)).
  { intros new_schema.
    now apply add_new_schema_present with (schemas := schemas). }
  split; [exact Hcall|]. split.
  - intros Hu new_schema. rewrite Hcall.
    pose proof (deep_equals_structural existing new_schema Hu) as Hiff.
    split; intros Hs.
    + apply Hiff in Hs. rewrite Hs. now rewrite app_nil_r.
    + destruct (deep_equals existing new_schema); [|reflexivity].
      exfalso. apply Hs, Hiff. reflexivity.
  - intros calls. revert self schemas Hcat Hname Hcall.
    induction calls as [|[name' new_schema] calls IH];
      intros self schemas Hcat Hname _.
    + exists self, schemas. cbn [add_new_schemas]. auto.
    + destruct (add_new_schema_keeps self name' new_schema name schemas existing
                  Hcat Hname) as (self1 & schemas1 & Hadd & Hcat1 & Hname1).
      cbn [add_new_schemas]. rewrite Hadd. cbn [bind].
      apply IH with (schemas := schemas1); [assumption|assumption|].
      intros new_schema'.
      now apply add_new_schema_present with (schemas := schemas1).
Qed.

Lemma add_new_schema_first_writer_wins_witness :
  add_new_schema "Foo" foo_number foo_manager
  = Some (mkManager foo_document [Error_already_defined "Foo"])
  /\ add_new_schema "Foo" foo_string_reordered foo_manager
     = Some (mkManager foo_document []).
Proof.
  pose proof (add_new_schema_first_writer_wins
                foo_manager "Foo" [("Foo", foo_string)] foo_string
                eq_refl eq_refl) as [H _].
  split; [exact (H foo_number)|exact (H foo_string_reordered)].
Defined.

(* ================================================================== *)
(** * deep_get_overwrite *)

Lemma deep_get_overwrite_resolved d keys node :
  resolvePath d keys = Some node ->
  deep_get_overwrite d keys NNone = Some (node, d).
Proof.
  revert d. induction keys as [|key rest IH]; intros d; cbn [resolvePath].
  - now intros [= ->].
  - destruct d as [items| | | | |]; try discriminate.
    destruct (dict_get key items) as [child|] eqn:Eg; [|discriminate].
    intros Hres. cbn [deep_get_overwrite is_none negb andb].
    rewrite andb_false_r. unfold dict_mem. rewrite Eg. cbn [negb].
    rewrite Eg. cbn [bind]. rewrite (IH _ Hres). cbn [bind].
    now rewrite (dict_set_same _ _ _ Eg).
Qed.

Lemma dict_set_absent_neq {V : Type} (d : list (string * V)) k v :
  dict_get k d = None -> dict_set k v d <> d.
Proof.
  intros Hn E. assert (H : dict_get k (dict_set k v d) = Some v).
  { rewrite dict_get_set. now rewrite String.eqb_refl. }
  rewrite E in H. congruence.
Qed.

Lemma deep_get_overwrite_read d keys result d' :
  deep_get_overwrite d keys NNone = Some (result, d') ->
  resolvePath d' keys = Some result
  /\ (resolvePath d keys = None -> result = NDict [] /\ d' <> d).
Proof.
  revert d result d'. induction keys as [|key rest IH]; intros d result d'.
  - cbn. intros [= -> ->]. split; [reflexivity|discriminate].
  - cbn [deep_get_overwrite is_none negb]. rewrite andb_false_r.
    destruct d as [items| | | | |]; try discriminate.
    destruct (dict_get key items) as [child|] eqn:Eg; unfold dict_mem;
      rewrite Eg; cbn [negb].
    + rewrite Eg. cbn [bind].
      destruct (deep_get_overwrite child rest NNone) as [[r child']|] eqn:Er;
        cbn [bind]; [|discriminate].
      intros [= <- <-]. destruct (IH _ _ _ Er) as [Hres Hnew].
      cbn [resolvePath]. rewrite dict_get_set, String.eqb_refl, Eg.
      split; [exact Hres|]. intros Hn. destruct (Hnew Hn) as [-> Hne].
      split; [reflexivity|]. intros [= E]. apply Hne.
      assert (H : dict_get key (dict_set key child' items) = Some child').
      { rewrite dict_get_set. now rewrite String.eqb_refl. }
      rewrite E in H. congruence.
    + rewrite dict_get_set, String.eqb_refl. cbn [bind].
      destruct (deep_get_overwrite (NDict []) rest NNone) as [[r child']|] eqn:Er;
        cbn [bind]; [|discriminate].
      intros [= <- <-]. destruct (IH _ _ _ Er) as [Hres Hnew].
      cbn [resolvePath]. rewrite dict_get_set, String.eqb_refl, Eg.
      split; [exact Hres|]. intros _. split.
      * destruct rest as [|key' rest'].
        -- cbn in Er. now injection Er as <- _.
        -- apply Hnew. reflexivity.
      * rewrite dict_set_set. intros [= E].
        apply (dict_set_absent_neq items key child' Eg). exact E.
Qed.

(** C8 (as stated, refuted).  Reading the path [a.b] in the empty document
    puts [a] and [b] into the document and returns the new empty dictionary;
    nothing signals that the path was not there. *)
Lemma deep_get_overwrite_read_creates :
  resolvePath (NDict []) ["a"; "b"] = None
  /\ deep_get_overwrite (NDict []) ["a"; "b"] NNone
     = Some (NDict [], NDict [("a", NDict [("b", NDict [])])]).
Proof. split; reflexivity. Qed.

Lemma dict_set_absent {V : Type} (d : list (string * V)) k v :
  dict_get k d = None -> dict_set k v d = (d ++ [(k, v)])%list.
Proof.
  induction d as [|[k0 v0] d IH]; cbn [dict_get dict_set app]; [reflexivity|].
  destruct (String.eqb k k0); [discriminate|].
  intros H. now rewrite (IH H).
Qed.

Lemma resolvePath_created_path rest :
  resolvePath (created_path rest) rest = Some (NDict []).
Proof.
  induction rest as [|key rest IH]; cbn [created_path resolvePath dict_get];
    [reflexivity|].
  now rewrite String.eqb_refl.
Qed.

Lemma resolvePath_app root front rest node :
  resolvePath root front = Some node ->
  resolvePath root (front ++ rest)%list = resolvePath node rest.
Proof.
  revert root. induction front as [|key front IH]; intros root;
    cbn [app resolvePath].
  - now intros [= ->].
  - destruct root as [items| | | | |]; try discriminate.
    destruct (dict_get key items) as [child|]; [apply IH|discriminate].
Qed.

(** A read in the empty dictionary makes the whole path. *)
Lemma deep_get_overwrite_creates rest :
  deep_get_overwrite (NDict []) rest NNone
  = Some (NDict [], created_path rest).
Proof.
  induction rest as [|key rest IH]; [reflexivity|].
  cbn [deep_get_overwrite is_none negb created_path]. rewrite andb_false_r.
  cbn [dict_mem dict_get dict_set negb]. rewrite String.eqb_refl.
  cbn [bind]. rewrite IH. cbn [bind dict_set].
  rewrite ?String.eqb_refl. reflexivity.
Qed.

(** A read through a key that a dictionary of the path lacks. *)
Lemma deep_get_overwrite_read_missing front :
  forall root items key rest,
    resolvePath root front = Some (NDict items) ->
    dict_get key items = None ->
    exists root',
      deep_get_overwrite root (front ++ key :: rest)%list NNone
      = Some (NDict [], root')
      /\ resolvePath root' front
         = Some (NDict (items ++ [(key, created_path rest)])%list)
      /\ root' <> root.
Proof.
  induction front as [|k0 front IH]; intros root items key rest Hres Hkey.
  - cbn [resolvePath] in Hres. injection Hres as ->. cbn [app].
    cbn [deep_get_overwrite is_none negb]. rewrite andb_false_r.
    unfold dict_mem. rewrite Hkey. cbn [negb].
    rewrite dict_get_set, String.eqb_refl. cbn [bind].
    rewrite deep_get_overwrite_creates. cbn [bind].
    rewrite dict_set_set. eexists. split; [reflexivity|].
    cbn [resolvePath]. rewrite (dict_set_absent _ _ _ Hkey).
    split; [reflexivity|].
    intros [= E]. rewrite <- (dict_set_absent _ _ _ Hkey) in E.
    exact (dict_set_absent_neq _ _ _ Hkey E).
  - cbn [resolvePath] in Hres.
    destruct root as [its| | | | |]; try discriminate.
    destruct (dict_get k0 its) as [child|] eqn:Eg; [|discriminate].
    destruct (IH child items key rest Hres Hkey) as (child' & Hcall & Hfront & Hne).
    cbn [app deep_get_overwrite is_none negb]. rewrite andb_false_r.
    unfold dict_mem. rewrite Eg. cbn [negb]. rewrite Eg. cbn [bind].
    rewrite Hcall. cbn [bind]. eexists. split; [reflexivity|].
    cbn [resolvePath]. rewrite dict_get_set, String.eqb_refl.
    split; [exact Hfront|].
    intros [= E]. apply Hne.
    assert (Hg : dict_get k0 (dict_set k0 child' its) = Some child').
    { now rewrite dict_get_set, String.eqb_refl. }
    rewrite E, Eg in Hg. congruence.
Qed.

(** A node that is no dictionary, met with segments left. *)
Lemma deep_get_overwrite_read_no_dict front :
  forall root node rest,
    resolvePath root front = Some node ->
    (forall items, node <> NDict items) -> rest <> [] ->
    deep_get_overwrite root (front ++ rest)%list NNone = None.
Proof.
  induction front as [|k0 front IH]; intros root node rest Hres Hnode Hrest.
  - cbn [resolvePath] in Hres. injection Hres as ->. cbn [app].
    destruct rest as [|key rest]; [congruence|].
    cbn [deep_get_overwrite is_none negb]. rewrite andb_false_r.
    destruct node as [items| | | | |]; try reflexivity.
    exfalso. now apply (Hnode items).
  - cbn [resolvePath] in Hres.
    destruct root as [its| | | | |]; try discriminate.
    destruct (dict_get k0 its) as [child|] eqn:Eg; [|discriminate].
    cbn [app deep_get_overwrite is_none negb]. rewrite andb_false_r.
    unfold dict_mem. rewrite Eg. cbn [negb]. rewrite Eg. cbn [bind].
    now rewrite (IH child node rest Hres Hnode Hrest).
Qed.

(** C8 (amended).  Without a value, [deep_get_overwrite] returns the node at
    the path and leaves the tree as it is when every segment of the path is
    there.  When a dictionary on the way lacks the next segment, the call
    returns all the same: it puts an empty dictionary under that segment and
    under every later one, last in the dictionary that lacked it, and returns
    the innermost new empty dictionary, so the tree has changed, the path
    resolves afterwards, and nothing tells that it did not before.  When a
    node that is no dictionary is met with segments left, it raises.
    Whenever it returns, the path resolves in the tree it leaves to the node
    it returned. *)
Theorem deep_get_overwrite_read_mode root :
  (forall keys node,
      resolvePath root keys = Some node ->
      deep_get_overwrite root keys NNone = Some (node, root))
  /\ (forall front items key rest,
         resolvePath root front = Some (NDict items) ->
         dict_get key items = None ->
         exists root',
           deep_get_overwrite root (front ++ key :: rest)%list NNone
           = Some (NDict [], root')
           /\ resolvePath root' front
              = Some (NDict (items ++ [(key, created_path rest)])%list)
           /\ resolvePath root' (front ++ key :: rest)%list = Some (NDict [])
           /\ resolvePath root (front ++ key :: rest)%list = None
           /\ root' <> root)
  /\ (forall front node rest,
         resolvePath root front = Some node ->
         (forall items, node <> NDict items) -> rest <> [] ->
         deep_get_overwrite root (front ++ rest)%list NNone = None)
  /\ (forall keys result root',
         deep_get_overwrite root keys NNone = Some (result, root') ->
         resolvePath root' keys = Some result
         /\ (resolvePath root keys = None -> result = NDict [] /\ root' <> root)).
Proof.
  split; [intros keys node; apply deep_get_overwrite_resolved|].
  split; [|split].
  - intros front items key rest Hres Hkey.
    destruct (deep_get_overwrite_read_missing front root items key rest
                Hres Hkey) as (root' & Hcall & Hfront & Hne).
    exists root'. split; [exact Hcall|]. split; [exact Hfront|].
    split; [|split; [|exact Hne]].
    + rewrite (resolvePath_app _ _ _ _ Hfront). cbn [resolvePath].
      rewrite <- (dict_set_absent _ _ _ Hkey), dict_get_set, String.eqb_refl.
      apply resolvePath_created_path.
    + rewrite (resolvePath_app _ _ _ _ Hres). cbn [resolvePath].
      now rewrite Hkey.
  - intros front node rest. apply deep_get_overwrite_read_no_dict.
  - intros keys result root'. apply deep_get_overwrite_read.
Qed.

Lemma deep_get_overwrite_read_mode_witness :
  deep_get_overwrite foo_string ["properties"; "x"] NNone
  = Some (NDict [("type", NStr "string")], foo_string)
  /\ (exists root',
         deep_get_overwrite foo_string ["properties"; "y"; "z"] NNone
         = Some (NDict [], root')
         /\ resolvePath root' ["properties"]
            = Some (NDict [ ("x", NDict [("type", NStr "string")]);
                            ("y", NDict [("z", NDict [])]) ])
         /\ resolvePath root' ["properties"; "y"; "z"] = Some (NDict [])
         /\ resolvePath foo_string ["properties"; "y"; "z"] = None
         /\ root' <> foo_string)
  /\ deep_get_overwrite foo_string ["type"; "x"] NNone = None.
Proof.
  pose proof (deep_get_overwrite_read_mode foo_string) as (H1 & H2 & H3 & _).
  split; [exact (H1 ["properties"; "x"] _ eq_refl)|].
  split.
  - exact (H2 ["properties"] [("x", NDict [("type", NStr "string")])]
              "y" ["z"] eq_refl eq_refl).
  - apply (H3 ["type"] (NStr "object") ["x"] eq_refl);
      [intros items; discriminate|discriminate].
Defined.

(* ================================================================== *)
(** * update_path_data *)

Section DictUpdate.
Context {V : Type}.
Implicit Types (d other : list (string * V)) (k : string).

Lemma dict_update_app d other1 other2 :
  dict_update d (other1 ++ other2) = dict_update (dict_update d other1) other2.
Proof. unfold dict_update. apply fold_left_app. Qed.

Lemma dict_update_others d other k :
  dict_mem k other = false ->
  dict_get k (dict_update d other) = dict_get k d.
Proof.
  unfold dict_update. revert d.
  induction other as [|[k' v'] other IH]; intros d; cbn [fold_left fst snd];
    [reflexivity|].
  unfold dict_mem. cbn [dict_get].
  destruct (String.eqb_spec k k') as [->|Hne]; [discriminate|].
  intros Hm. rewrite IH by exact Hm. rewrite dict_get_set.
  destruct (String.eqb_spec k k'); [congruence|reflexivity].
Qed.

Lemma dict_update_supplied d other k v :
  NoDup (dict_keys other) -> dict_get k other = Some v ->
  dict_get k (dict_update d other) = Some v.
Proof.
  unfold dict_update. revert d.
  induction other as [|[k' v'] other IH]; intros d Hnd;
    cbn [fold_left fst snd dict_get]; [discriminate|].
  cbn [dict_keys map fst] in Hnd. inversion Hnd as [|? ? Hk' Hrest]; subst.
  destruct (String.eqb_spec k k') as [->|Hne].
  - intros [= ->].
    change (dict_get k' (dict_update (dict_set k' v d) other) = Some v).
    rewrite dict_update_others.
    + now rewrite dict_get_set, String.eqb_refl.
    + destruct (dict_mem k' other) eqn:E; [|reflexivity].
      apply dict_mem_true in E. contradiction.
  - intros H. now apply IH.
Qed.
End DictUpdate.

Lemma update_path_entry_spec data path method props props' events :
  update_path_entry data path method props = Some (props', events) ->
  merged_operation data path method (Some props) (Some props')
  /\ events = match dict_get path data with
              | None => [Warning_no_data_mapping path]
              | Some mapping =>
                  if dict_mem method mapping then []
                  else [Warning_no_data_set method path]
              end.
Proof.
  unfold update_path_entry, merged_operation, supplied, dict_mem, bind.
  destruct (dict_get path data) as [mapping|].
  - destruct (dict_get method mapping) as [attrs|].
    + destruct props as [items| | | | |]; cbn [py_update]; try discriminate.
      intros [= <- <-]. split; [|reflexivity]. now exists items.
    + now intros [= <- <-].
  - now intros [= <- <-].
Qed.

Lemma operations_loop_spec data path operations operations' events :
  operations_loop data path operations = Some (operations', events) ->
  dict_keys operations' = dict_keys operations
  /\ (forall method,
         merged_operation data path method (dict_get method operations)
                          (dict_get method operations'))
  /\ events
     = flat_map
         (fun operation =>
            match dict_get path data with
            | None => [Warning_no_data_mapping path]
            | Some mapping =>
                if dict_mem (fst operation) mapping then []
                else [Warning_no_data_set (fst operation) path]
            end) operations.
Proof.
  revert operations' events.
  induction operations as [|[m props] operations IH]; intros operations' events;
    cbn [operations_loop].
  - intros [= <- <-]. repeat split.
  - unfold bind at 1.
    destruct (update_path_entry data path m props) as [[props' ev]|] eqn:Ee;
      [|discriminate].
    unfold bind at 1.
    destruct (operations_loop data path operations) as [[rest' ev']|];
      [|discriminate].
    intros [= <- <-]. destruct (IH _ _ eq_refl) as (Hk & Hm & Hev).
    destruct (update_path_entry_spec _ _ _ _ _ _ Ee) as [Hp Hev0].
    split; [cbn [dict_keys map fst] in *; now f_equal|]. split.
    + intros method. cbn [dict_get].
      destruct (String.eqb_spec method m) as [->|_]; [exact Hp|apply Hm].
    + cbn [flat_map fst]. now rewrite <- Hev0, <- Hev.
Qed.

Lemma paths_loop_spec data paths paths' events :
  paths_loop data paths = Some (paths', events) ->
  dict_keys paths' = dict_keys paths
  /\ (forall path,
         merged_path data path (dict_get path paths) (dict_get path paths'))
  /\ events = unmatched_warnings data paths.
Proof.
  revert paths' events.
  induction paths as [|[p ops] paths IH]; intros paths' events;
    cbn [paths_loop].
  - intros [= <- <-]. repeat split.
  - destruct ops as [o| | | | |]; cbn [py_items bind]; try discriminate.
    unfold bind at 1.
    destruct (operations_loop data p o) as [[o' ev]|] eqn:Eo; [|discriminate].
    unfold bind at 1.
    destruct (paths_loop data paths) as [[rest' ev']|]; [|discriminate].
    intros [= <- <-]. destruct (IH _ _ eq_refl) as (Hk & Hm & Hev).
    destruct (operations_loop_spec _ _ _ _ _ Eo) as (Hko & Hmo & Hevo).
    split; [cbn [dict_keys map fst] in *; now f_equal|]. split.
    + intros path. cbn [dict_get].
      destruct (String.eqb_spec path p) as [->|_]; [|apply Hm].
      exists o, o'. auto.
    + unfold unmatched_warnings in *. cbn [flat_map fst snd].
      now rewrite <- Hevo, <- Hev.
Qed.

(** C7 (as stated, refuted).  Data for an operation that the document does
    not have is passed over in silence: nothing is reported for it. *)
Lemma update_path_data_silent_on_unknown_pairs :
  let self := mkManager (NDict [("paths", NDict [])]) [] in
  let data := [("/terminals", [("get", [("summary", NStr "Terminals")])])] in
  operation_at (schema self) "/terminals" "get" = None
  /\ supplied data "/terminals" "get" = Some [("summary", NStr "Terminals")]
  /\ update_path_data data self = Some self.
Proof. repeat split. Qed.

(** C7 (amended).  [update_path_data] adds no path key and no method key to
    the [paths] section and leaves the rest of the document alone: for every
    path and method, the operation object of the document is there afterwards
    exactly when it was there before; when the data has attributes for that
    path and method they are shallow-merged into it (a supplied key takes
    the supplied value, every other key keeps its value), otherwise it is
    unchanged.  Pairs of the data that the document lacks are skipped
    without a report; what is reported, as warnings, are the operations of
    the document for which the data has nothing. *)
Theorem update_path_data_merges data self self' :
  update_path_data data self = Some self' ->
  exists top paths paths',
    schema self = NDict top
    /\ dict_get "paths" top = Some (NDict paths)
    /\ schema self' = NDict (dict_set "paths" (NDict paths') top)
    /\ dict_keys paths' = dict_keys paths
    /\ (forall path,
           merged_path data path (dict_get path paths) (dict_get path paths'))
    /\ (forall path method,
           merged_operation data path method
             (operation_at (schema self) path method)
             (operation_at (schema self') path method))
    /\ (forall (items attrs : list (string * Node)) k,
           dict_mem k attrs = false ->
           dict_get k (dict_update items attrs) = dict_get k items)
    /\ (forall (items attrs : list (string * Node)) k v,
           NoDup (dict_keys attrs) -> dict_get k attrs = Some v ->
           dict_get k (dict_update items attrs) = Some v)
    /\ log self' = (log self ++ unmatched_warnings data paths)%list.
Proof.
  unfold update_path_data. intros H.
  destruct (schema self) as [top| | | | |] eqn:Edoc; cbn [py_getitem bind] in H;
    try discriminate.
  destruct (dict_get "paths" top) as [[paths| | | | |]|] eqn:Ep;
    cbn [bind py_items] in H; try discriminate.
  unfold bind at 1 in H.
  destruct (paths_loop data paths) as [[paths' events]|] eqn:El; [|discriminate].
  cbn [py_setitem bind] in H. injection H as <-.
  destruct (paths_loop_spec _ _ _ _ El) as (Hk & Hm & Hev).
  exists top, paths, paths'. cbn [schema log].
  repeat split; auto using dict_update_others, dict_update_supplied.
  - intros path method. unfold operation_at, bind. cbn [py_getitem].
    rewrite Ep, dict_get_set. cbn [String.eqb Ascii.eqb Bool.eqb py_getitem].
    specialize (Hm path). unfold merged_path in Hm.
    destruct (dict_get path paths) as [ops|].
    + destruct Hm as (o & o' & -> & -> & _ & Hops). cbn [py_getitem].
      apply Hops.
    + rewrite Hm. reflexivity.
  - now rewrite Hev.
Qed.

Lemma update_path_data_merges_witness :
  update_path_data two_operations_data (mkManager one_operation_document [])
  = Some one_operation_merged
  /\ merged_operation two_operations_data "/commodities" "get"
       (operation_at one_operation_document "/commodities" "get")
       (operation_at (schema one_operation_merged) "/commodities" "get")
  /\ log one_operation_merged
     = [ Warning_no_data_set "post" "/commodities";
         Warning_no_data_mapping "/cities" ].
Proof.
  split; [reflexivity|].
  destruct (update_path_data_merges two_operations_data
              (mkManager one_operation_document []) one_operation_merged
              eq_refl)
    as (top & paths & paths' & _ & _ & _ & _ & _ & Hop & _ & _ & Hlog).
  split; [exact (Hop "/commodities" "get")|reflexivity].
Defined.

(* ================================================================== *)
(** * extract_schemas *)

Lemma deep_get_overwrite_write root path node value :
  resolvePath root path = Some node ->
  path <> [] -> is_none value = false ->
  exists result root',
    deep_get_overwrite root path value = Some (result, root')
    /\ resolvePath root' path = Some value.
Proof.
  intros Hres Hne Hval. revert root Hres.
  induction path as [|key rest IH]; intros root Hres; [congruence|].
  cbn [resolvePath] in Hres.
  destruct root as [items| | | | |]; try discriminate.
  destruct (dict_get key items) as [child|] eqn:Eg; [|discriminate].
  cbn [deep_get_overwrite List.length]. rewrite Hval. cbn [negb].
  destruct rest as [|key' rest'].
  - cbn [List.length Nat.eqb andb py_setitem bind].
    do 2 eexists. split; [reflexivity|].
    cbn [resolvePath]. now rewrite dict_get_set, String.eqb_refl.
  - cbn [List.length Nat.eqb andb]. unfold dict_mem. rewrite Eg. cbn [negb].
    rewrite Eg. cbn [bind].
    destruct (IH ltac:(discriminate) child Hres) as (r & child' & -> & Hr).
    cbn [bind]. do 2 eexists. split; [reflexivity|].
    cbn [resolvePath]. rewrite dict_get_set, String.eqb_refl. exact Hr.
Qed.

Lemma with_component_schema_spec target_schema target doc schemas :
  component_schemas doc = Some (NDict schemas) ->
  exists doc',
    with_component_schema target_schema target doc = Some doc'
    /\ component_schemas doc'
       = Some (NDict (dict_set target_schema target schemas)).
Proof.
  intros Hcat.
  destruct (component_schemas_inv _ _ Hcat) as (top & comps & -> & Hc & Hs).
  unfold with_component_schema. cbn [py_getitem bind]. rewrite Hc.
  cbn [py_getitem bind]. rewrite Hs. cbn [py_setitem bind].
  eexists. split; [reflexivity|].
  now apply component_schemas_set with (schemas := NDict schemas).
Qed.

Lemma with_component_schema_same target_schema target doc schemas :
  component_schemas doc = Some (NDict schemas) ->
  dict_get target_schema schemas = Some target ->
  with_component_schema target_schema target doc = Some doc.
Proof.
  intros Hcat Ht.
  destruct (component_schemas_inv _ _ Hcat) as (top & comps & -> & Hc & Hs).
  unfold with_component_schema. cbn [py_getitem bind]. rewrite Hc.
  cbn [py_getitem bind]. rewrite Hs. cbn [py_setitem bind].
  now rewrite (dict_set_same _ _ _ Ht), (dict_set_same _ _ _ Hs),
    (dict_set_same _ _ _ Hc).
Qed.


(** The whole of [extract_schemas] on a catalog with the response of
    [/commodities_status]: the items of [buy] become [CommodityStatusDTO],
    the items of [sell] differ from it and are replaced by a reference to it
    all the same. *)
Example extract_schemas_commodities_status :
  extract_schemas
    (mkManager
       (status_document (status_catalog (status_response buy_items sell_items) []))
       [])
  = Some
      (mkManager
         (status_document
            (status_catalog
               (status_response (ref_to "CommodityStatusDTO")
                                (ref_to "CommodityStatusDTO"))
               [("CommodityStatusDTO", buy_items)]))
         (map Warning_schema_not_found
              [ "GetCategoriesOkResponse"; "GetCitiesOkResponse";
                "GetCommoditiesAveragesOkResponse"; "GetCommoditiesOkResponse";
                "GetCommoditiesPricesAllOkResponse";
                "GetCommoditiesPricesHistoryOkResponse";
                "GetCommoditiesPricesOkResponse";
                "GetCommoditiesRankingOkResponse";
                "GetCommoditiesRawPricesAllOkResponse";
                "GetCommoditiesRawPricesOkResponse";
                "GetCommoditiesRoutesOkResponse" ]
          ++ [ Debug_creating_schema "CommodityStatusDTO" buy_items;
               Debug_updating_ref "GetCommoditiesStatusOkResponse"
                                  "CommodityStatusDTO";
               Error_already_defined "CommodityStatusDTO";
               Debug_updating_ref "GetCommoditiesStatusOkResponse"
                                  "CommodityStatusDTO" ]
          ++ map Warning_schema_not_found
               (skipn 13 (map (fun entry => hd "" (split "." (fst entry)))
                              schema_name_by_property_path)))%list).
Proof. vm_compute. reflexivity. Qed.

(** A selector whose path is not in its root schema: the read creates the
    path, the empty dictionary it returns is registered as the schema, and
    the new location becomes a reference to it. *)
Example extract_schema_creates_missing_path :
  extract_schema "GetUserOkResponse.properties.data" "UexUserDTO"
    (mkManager
       (status_document [("GetUserOkResponse", NDict [("type", NStr "object")])])
       [])
  = Some
      (mkManager
         (status_document
            [ ("GetUserOkResponse",
               NDict [ ("type", NStr "object");
                       ("properties",
                        NDict [ ("data", ref_to "UexUserDTO") ]) ]);
              ("UexUserDTO", NDict []) ])
         [ Debug_creating_schema "UexUserDTO" (NDict []);
           Debug_updating_ref "GetUserOkResponse" "UexUserDTO" ]).
Proof. vm_compute. reflexivity. Qed.


(** A catalog entry that differs from the node by the type of a scalar
    only: the node is replaced by the reference and no conflict is
    logged. *)
Example extract_schema_rewrites_without_report :
  ~ structuralEqual flag_true flag_one
  /\ extract_schema "Settings.properties.enabled" "Flag"
       (mkManager
          (status_document
             [ ("Settings",
                NDict [ ("properties", NDict [ ("enabled", flag_one) ]) ]);
               ("Flag", flag_true) ])
          [])
     = Some
         (mkManager
            (status_document
               [ ("Settings",
                  NDict [ ("properties",
                           NDict [ ("enabled",
                                    NDict [("$ref",
                                            NStr "#/components/schemas/Flag")]) ]) ]);
                 ("Flag", flag_true) ])
            [ Debug_updating_ref "Settings" "Flag" ]).
Proof.
  split; [|vm_compute; reflexivity]. intros H.
  inversion H as [d1 d2 _ Hvalues| |a b Hs]; subst; [|destruct Hs].
  specialize (Hvalues "default" (NBool true) (NInt 1) eq_refl eq_refl).
  inversion Hvalues; subst.
  match goal with Hs : same_value_and_type _ _ |- _ => exact Hs end.
Qed.

(* ================================================================== *)
(** * The store *)

Lemma read_Some_lt h a o : Store.read h a = Some o -> a < List.length h.
Proof. unfold Store.read. intros H. apply nth_error_Some. congruence. Qed.



Lemma length_write a o h : List.length (Store.write a o h) = List.length h.
Proof.
  revert a. induction h as [|x h IH]; intros [|a]; cbn; auto.
Qed.



Lemma repr_dict P h v titems :
  Store.repr P h v (NDict titems) <->
  exists a items,
    v = Store.VRef a /\ P a /\ Store.read h a = Some (Store.ODict items)
    /\ Forall2 (repr_item P h) items titems.
Proof.
  cbn [Store.repr]. split.
  - destruct v as [| | | |a]; try contradiction. intros [HP H].
    destruct (Store.read h a) as [[items|elems]|] eqn:E; try contradiction.
    exists a, items. repeat split; auto. clear E. revert items H.
    induction titems as [|[k' t] titems IH]; intros [|[k v] items] H;
      try contradiction; constructor.
    + destruct H as (-> & Hr & _). now split.
    + apply IH. now destruct H as (_ & _ & H).
  - intros (a & items & -> & HP & -> & H). split; [exact HP|].
    induction H as [|[k v] [k' t] items titems [Hk Hr] _ IH]; [exact I|].
    cbn [fst snd] in Hk, Hr. auto.
Qed.

Lemma repr_list P h v telems :
  Store.repr P h v (NList telems) <->
  exists a elems,
    v = Store.VRef a /\ P a /\ Store.read h a = Some (Store.OList elems)
    /\ Forall2 (Store.repr P h) elems telems.
Proof.
  cbn [Store.repr]. split.
  - destruct v as [| | | |a]; try contradiction. intros [HP H].
    destruct (Store.read h a) as [[items|elems]|] eqn:E; try contradiction.
    exists a, elems. repeat split; auto. clear E. revert elems H.
    induction telems as [|t telems IH]; intros [|v elems] H;
      try contradiction; constructor.
    + now destruct H.
    + apply IH. now destruct H.
  - intros (a & elems & -> & HP & -> & H). split; [exact HP|].
    induction H as [|v t elems telems Hr _ IH]; [exact I|]. auto.
Qed.

(** A representation only looks at the objects of its footprint. *)
Lemma repr_mono P Q h h' t :
  forall v,
    (forall a o, P a -> Store.read h a = Some o ->
                 Q a /\ Store.read h' a = Some o) ->
    Store.repr P h v t -> Store.repr Q h' v t.
Proof.
  induction t as [titems IH|telems IH|s|z|b|] using Node_nested_ind;
    intros v Hpq; try (cbn; tauto).
  - rewrite !repr_dict. intros (a & items & -> & HP & Hread & Hall).
    destruct (Hpq a _ HP Hread) as [HQ Hread'].
    exists a, items. repeat split; auto. clear Hread Hread'.
    induction Hall as [|kv kt items titems [Hk Hr] _ IHall]; constructor.
    + inversion IH; subst. split; auto.
    + apply IHall. now inversion IH.
  - rewrite !repr_list. intros (a & elems & -> & HP & Hread & Hall).
    destruct (Hpq a _ HP Hread) as [HQ Hread'].
    exists a, elems. repeat split; auto. clear Hread Hread'.
    induction Hall as [|v t elems telems Hr _ IHall]; constructor.
    + inversion IH; subst. auto.
    + apply IHall. now inversion IH.
Qed.



Lemma repr_bounded P h v t :
  Store.repr P h v t ->
  Store.repr (fun a => P a /\ a < List.length h) h v t.
Proof.
  apply repr_mono. intros a o HP Hr. repeat split; auto.
  eapply read_Some_lt. exact Hr.
Qed.




(* ================================================================== *)
(** * deepcopy and deep_equals on the store *)











Lemma structuralEqual_py_refl t : structuralEqual_py t t.
Proof.
  induction t as [items IH|elems IH|s|z|b|] using Node_nested_ind.
  - apply structural_object; [tauto|].
    intros k v1 v2 H1 H2. assert (v2 = v1) by congruence. subst v2.
    rewrite Forall_forall in IH. apply (IH (k, v1)). now apply dict_get_in.
  - apply structural_array; [reflexivity|].
    intros i x y Hx Hy. assert (y = x) by congruence. subst y.
    rewrite Forall_forall in IH. apply IH. eapply nth_error_In. exact Hx.
  - apply structural_scalar; cbn; auto using String.eqb_refl.
  - apply structural_scalar; cbn; auto using Z.eqb_refl.
  - apply structural_scalar; cbn; auto using Bool.eqb_reflx.
  - apply structural_scalar; cbn; auto.
Qed.

Lemma deep_equals_refl t : unique_keys t = true -> deep_equals t t = true.
Proof.
  intros H. apply deep_equals_structural; [exact H|].
  apply structuralEqual_py_refl.
Qed.

(* ================================================================== *)
(** * add_new_schema on the store *)



Lemma catalog_at_same h h' root r cs c catalog catalog' :
  catalog_at h root r cs c catalog ->
  Store.read h' r = Store.read h r ->
  Store.read h' cs = Store.read h cs ->
  Store.read h' c = Some (Store.ODict catalog') ->
  catalog_at h' root r cs c catalog'.
Proof.
  intros (Hroot & Htop & Hcomps & _) Hr Hcs Hc. unfold catalog_at.
  rewrite Hr, Hcs. auto.
Qed.








(** The caller changes its own tree after the call: the type of [x] becomes
    [number] in the caller's dictionary, the catalog entry keeps [string]. *)
Example add_new_schema_copy_is_independent :
  let changed h :=
    Store.py_setitem "type" (Store.VStr "number") (Store.VRef 4) h in
  (self <- Store.add_new_schema 5 "Foo" caller_schema caller_manager ;;
   h <- changed (Store.heap self) ;;
   caller <- Store.dump 8 h caller_schema ;;
   doc <- Store.dump 8 h (Store.schema self) ;;
   Some (caller, doc))
  = Some (foo_number,
          NDict [ ("paths", NDict []);
                  ("components",
                   NDict [ ("schemas", NDict [ ("Foo", foo_string) ]) ]) ]).
Proof. vm_compute. reflexivity. Qed.

(* ================================================================== *)
(** * consolidate_recursive_object_references *)

(** C9 (what the code does).  [AddressDTO] and [LocationDTO] are both
    structurally equal to the inline object under [UserDTO.properties.home];
    the scan does not stop at the first of them, every match assigns the
    property anew, and the property ends as a reference to [LocationDTO],
    the last match in catalog order, not to [AddressDTO], the first. *)
Theorem consolidate_last_match_wins :
  (self <- Store.consolidate_recursive_object_references
             10 (loaded (two_matches_document city_object)) ;;
   document_of 10 self)
  = Some (two_matches_document (ref_to "LocationDTO"))
  /\ two_matches_document (ref_to "LocationDTO")
     <> two_matches_document (ref_to "AddressDTO").
Proof. split; [vm_compute; reflexivity|discriminate]. Qed.

(* ================================================================== *)
(** * More on the variant generator *)

Lemma append_empty_r (s : string) : s ++ "" = s.
Proof. induction s as [|c s IH]; cbn; [reflexivity|now rewrite IH]. Qed.


Lemma templated_link self base optionals requireds :
  get_templated_paths self = true ->
  create_endpoint_url self base optionals requireds
  = mkLink (base ++ parameters_path self requireds) requireds.
Proof.
  intros Ht. unfold create_endpoint_url, parameters_path. now rewrite Ht.
Qed.

(** Every turn of the loop yields the links of its combination over a pool
    that begins with the pool the loop started from. *)
Lemma combinations_loop_blocks set_iter self base required_params pool0 :
  forall combos extra,
    Forall2
      (fun requireds block =>
         exists extra',
           block = create_method_urls_for_all_optional_params
                     self base (pool0 ++ extra')%list requireds)
      combos
      (combinations_loop set_iter self base required_params combos
                         (pool0 ++ extra)%list).
Proof.
  induction combos as [|c combos IH]; intros extra; cbn [combinations_loop];
    constructor.
  - rewrite <- app_assoc. eexists. reflexivity.
  - rewrite <- app_assoc. apply IH.
Qed.

(** The blocks of an endpoint, one for every required combination, or one
    for the empty combination when there is none. *)
Lemma method_path_blocks_shape set_iter self :
  let pool0 := initial_pool (set_iter (get_optional_parameters self)) in
  let combos :=
    required_combinations self (set_iter (get_required_parameters self)) in
  Forall2
    (fun requireds block =>
       exists extra,
         block = create_method_urls_for_all_optional_params
                   self (get_base_path self) (pool0 ++ extra)%list requireds)
    (if Nat.eqb (List.length combos) 0 then [[]] else combos)
    (method_path_blocks set_iter self).
Proof.
  intros pool0 combos. unfold method_path_blocks, py_set.
  fold combos. change (OptList [] :: map OptParam
                         (set_iter (get_optional_parameters self)))
    with pool0.
  pose proof (combinations_loop_blocks set_iter self (get_base_path self)
                (set_iter (get_required_parameters self)) pool0 combos [])
    as Hloop.
  rewrite app_nil_r in Hloop.
  destruct combos as [|c combos]; cbn [List.length Nat.eqb app].
  - cbn [combinations_loop]. constructor; [|constructor].
    exists []. now rewrite app_nil_r.
  - exact Hloop.
Qed.


Lemma Forall2_In_r {A B : Type} (R : A -> B -> Prop) l l' y :
  Forall2 R l l' -> In y l' -> exists x, In x l /\ R x y.
Proof.
  induction 1 as [|a b l l' Hab _ IH]; intros Hin; [destruct Hin|].
  destruct Hin as [<-|Hin].
  - exists a. split; [now left|exact Hab].
  - destruct (IH Hin) as (x & Hx & Hr). exists x. split; [now right|exact Hr].
Qed.

Lemma Forall2_In_l {A B : Type} (R : A -> B -> Prop) l l' x :
  Forall2 R l l' -> In x l -> exists y, In y l' /\ R x y.
Proof.
  induction 1 as [|a b l l' Hab _ IH]; intros Hin; [destruct Hin|].
  destruct Hin as [<-|Hin].
  - exists b. split; [now left|exact Hab].
  - destruct (IH Hin) as (y & Hy & Hr). exists y. split; [now right|exact Hr].
Qed.

Lemma string_append_assoc (a b c : string) : (a ++ b) ++ c = a ++ b ++ c.
Proof. induction a as [|x a IH]; cbn; [reflexivity|now rewrite IH]. Qed.

Lemma fold_left_segments {A : Type} (segment : A -> string) l :
  forall start,
    fold_left (fun acc x => acc ++ segment x) l start
    = start ++ String.concat "" (map segment l).
Proof.
  induction l as [|x l IH]; intros start; cbn [fold_left map String.concat].
  - now rewrite append_empty_r.
  - rewrite IH, string_append_assoc. f_equal.
    destruct l as [|y l]; cbn [map String.concat];
      [now rewrite append_empty_r|reflexivity].
Qed.

(** The path of the required parameters, segment by segment. *)
Lemma parameters_path_segments self requireds :
  parameters_path self requireds
  = "/" ++ String.concat ""
             (map (fun p =>
                     param_name p ++ "/"
                     ++ py_str (get_defaults self (param_name p) PyNone) ++ "/")
                  requireds).
Proof.
  unfold parameters_path.
  exact (fold_left_segments
           (fun p => param_name p ++ "/"
                     ++ py_str (get_defaults self (param_name p) PyNone) ++ "/")
           requireds "/").
Qed.

(** The combinations of required parameters that get a block: all of them
    at once for an id of [required_args_all], else every one alone, and the
    empty combination when that leaves none. *)
Lemma blocks_combinations self required_params :
  (if Nat.eqb (List.length (required_combinations self required_params)) 0
   then [[]] else required_combinations self required_params)
  = if in_dec string_dec (get_id self) required_args_all
    then [required_params]
    else match required_params with
         | [] => [[]]
         | _ => map (fun required_param => [required_param]) required_params
         end.
Proof.
  unfold required_combinations.
  destruct (in_dec string_dec (get_id self) required_args_all);
    [reflexivity|].
  destruct required_params; reflexivity.
Qed.



(** The links of that endpoint, block by block: the second block has the
    required parameter of the first among its optional ones. *)
Example prices_dated_links :
  map (map link) (method_path_blocks reverse_order prices_dated_parser)
  = [ [ "/commodities_prices/id_commodity/33/";
        "/commodities_prices/id_commodity/33/?date_start=";
        "/commodities_prices/id_commodity/33/?id_terminal=74" ];
      [ "/commodities_prices/id_terminal/74/";
        "/commodities_prices/id_terminal/74/?date_start=";
        "/commodities_prices/id_terminal/74/?id_terminal=74";
        "/commodities_prices/id_terminal/74/?id_commodity=33" ] ].
Proof. vm_compute. reflexivity. Qed.

(** X2.  An endpoint whose id is in [required_args_all], or whose page
    declares no required parameter, gets one block of links, for the one
    combination of all its required parameters: without templated paths,
    the link without optional parameters and then one link for every
    optional parameter alone, in the iteration order of the set; no required
    parameter is folded into the pool. *)
Theorem all_required_single_block set_iter self :
  set_order set_iter ->
  get_templated_paths self = false ->
  In (get_id self) required_args_all \/ get_required_parameters self = [] ->
  method_path_blocks set_iter self
  = [ map (fun optionals =>
             create_endpoint_url self (get_base_path self) optionals
                                 (set_iter (get_required_parameters self)))
          ([] :: map (fun o => [o]) (set_iter (get_optional_parameters self))) ].
Proof.
  intros Hord Ht Hcase. unfold method_path_blocks, py_set, required_combinations.
  assert (Hurls : forall requireds,
    create_method_urls_for_all_optional_params self (get_base_path self)
      (OptList [] :: map OptParam (set_iter (get_optional_parameters self)))
      requireds
    = map (fun optionals =>
             create_endpoint_url self (get_base_path self) optionals requireds)
          ([] :: map (fun o => [o]) (set_iter (get_optional_parameters self)))).
  { intros requireds. unfold create_method_urls_for_all_optional_params.
    rewrite Ht. cbn [List.length Nat.eqb orb app map as_list]. f_equal.
    rewrite !map_map. reflexivity. }
  destruct (in_dec string_dec (get_id self) required_args_all) as [_|Hout].
  - cbn [List.length Nat.eqb app combinations_loop].
    rewrite set_difference_all
      by (assumption || (intros x Hx; exact Hx)).
    cbn [map]. rewrite app_nil_r. now rewrite Hurls.
  - destruct Hcase as [Hin|Hnone]; [contradiction|].
    rewrite Hnone, (set_iter_nil set_iter Hord).
    cbn [map List.length Nat.eqb app combinations_loop]. now rewrite Hurls.
Qed.

Lemma all_required_single_block_witness :
  map (map link) (method_path_blocks reverse_order prices_history_parser)
  = [ [ "/commodities_prices_history/id_commodity/68/id_terminal/74/";
        "/commodities_prices_history/id_commodity/68/id_terminal/74/?date_start=" ] ].
Proof.
  rewrite (all_required_single_block reverse_order prices_history_parser
             reverse_order_ok eq_refl (or_introl (or_introl eq_refl))).
  vm_compute. reflexivity.
Defined.

Lemma map_constant {A B : Type} (b : B) (l : list A) :
  map (fun _ => b) l = repeat b (List.length l).
Proof. induction l as [|x l IH]; cbn; [reflexivity|now rewrite IH]. Qed.

(** X3.  With templated paths there is still one block for every
    combination of required parameters (all of them for an id of
    [required_args_all], else every one alone, or the empty one), and all
    the links of a block are one and the same link: the base path, [/] and
    [name/{name}/] for every parameter of the combination, without a query.
    A block has at least two of them: the optional parameters change nothing
    but the number of copies. *)
Theorem templated_block_repeats_one_link set_iter self :
  get_templated_paths self = true ->
  Forall2
    (fun requireds block =>
       block = repeat (mkLink (get_base_path self ++ "/"
                               ++ String.concat ""
                                    (map (fun p =>
                                            param_name p ++ "/{"
                                            ++ param_name p ++ "}/")
                                         requireds))
                              requireds)
                      (List.length block)
       /\ 2 <= List.length block)
    (if in_dec string_dec (get_id self) required_args_all
     then [set_iter (get_required_parameters self)]
     else match set_iter (get_required_parameters self) with
          | [] => [[]]
          | _ => map (fun required_param => [required_param])
                     (set_iter (get_required_parameters self))
          end)
    (method_path_blocks set_iter self).
Proof.
  intros Ht. pose proof (method_path_blocks_shape set_iter self) as Hshape.
  cbv zeta in Hshape. rewrite blocks_combinations in Hshape.
  revert Hshape. apply Forall2_impl. intros requireds block (extra & ->).
  assert (Hpath : parameters_path self requireds
                  = "/" ++ String.concat ""
                             (map (fun p => param_name p ++ "/{"
                                            ++ param_name p ++ "}/")
                                  requireds)).
  { rewrite parameters_path_segments. f_equal. f_equal.
    apply map_ext. intros p. unfold get_defaults. rewrite Ht.
    cbn [py_str]. f_equal. cbn. f_equal. f_equal.
    now rewrite string_append_assoc. }
  unfold create_method_urls_for_all_optional_params. rewrite Ht, orb_true_r.
  rewrite (map_ext _ (fun _ => mkLink (get_base_path self
                                       ++ parameters_path self requireds)
                                      requireds))
    by (intros optionals; now apply templated_link).
  rewrite (templated_link _ _ _ _ Ht), map_constant, Hpath.
  cbn [app List.length]. rewrite repeat_length. split; [reflexivity|].
  unfold initial_pool. cbn [app List.length]. lia.
Qed.

Lemma templated_block_repeats_one_link_witness :
  Forall2
    (fun requireds block =>
       block = repeat (mkLink ("/commodities_prices" ++ "/"
                               ++ String.concat ""
                                    (map (fun p =>
                                            param_name p ++ "/{"
                                            ++ param_name p ++ "}/")
                                         requireds))
                              requireds)
                      (List.length block)
       /\ 2 <= List.length block)
    [ [id_terminal_required]; [id_commodity_required] ]
    (method_path_blocks insertion_order prices_templated_parser).
Proof.
  exact (templated_block_repeats_one_link insertion_order
           prices_templated_parser eq_refl).
Defined.

(** The links of that endpoint: four copies for the first parameter, five
    for the second. *)
Example prices_templated_links :
  map (map link) (method_path_blocks insertion_order prices_templated_parser)
  = [ repeat "/commodities_prices/id_terminal/{id_terminal}/" 4;
      repeat "/commodities_prices/id_commodity/{id_commodity}/" 5 ].
Proof. vm_compute. reflexivity. Qed.

(* ================================================================== *)
(** * create_cache_key *)

Lemma occurs_append c a b : occurs c (a ++ b) = occurs c a || occurs c b.
Proof.
  induction a as [|x a IH]; cbn [append occurs]; [reflexivity|].
  now rewrite IH, orb_assoc.
Qed.

Lemma occurs_replace_same old new s :
  occurs old new = false -> occurs old (replace old new s) = false.
Proof.
  intros Hnew. induction s as [|a s IH]; cbn [replace]; [reflexivity|].
  destruct (Ascii.eqb a old) eqn:E.
  - now rewrite occurs_append, Hnew, IH.
  - cbn [occurs]. now rewrite E, IH.
Qed.

Lemma occurs_replace_other c old new s :
  occurs c new = false -> occurs c s = false ->
  occurs c (replace old new s) = false.
Proof.
  intros Hnew. induction s as [|a s IH]; cbn [replace occurs]; [reflexivity|].
  intros H. apply orb_false_iff in H. destruct H as [Ha Hs].
  destruct (Ascii.eqb a old).
  - now rewrite occurs_append, Hnew, IH.
  - cbn [occurs]. now rewrite Ha, IH.
Qed.

Lemma replace_absent old new s :
  occurs old s = false -> replace old new s = s.
Proof.
  induction s as [|a s IH]; cbn [replace occurs]; [reflexivity|].
  intros H. apply orb_false_iff in H. destruct H as [Ha Hs].
  now rewrite Ha, IH.
Qed.

Lemma lstrip_absent c s : occurs c s = false -> lstrip c s = s.
Proof.
  destruct s as [|a s]; cbn [lstrip occurs]; [reflexivity|].
  intros H. apply orb_false_iff in H. destruct H as [Ha _]. now rewrite Ha.
Qed.

Lemma rstrip_absent c s : occurs c s = false -> rstrip c s = s.
Proof.
  induction s as [|a s IH]; cbn [rstrip occurs]; [reflexivity|].
  intros H. apply orb_false_iff in H. destruct H as [Ha Hs].
  rewrite IH by exact Hs. rewrite Ha. now destruct s.
Qed.

Lemma create_cache_key_clean s c :
  In c key_separators -> occurs c (create_cache_key s) = false.
Proof.
  unfold create_cache_key, key_separators.
  set (s1 := replace "/" "-" (strip "/" s)).
  assert (H1 : occurs "/" s1 = false) by (now apply occurs_replace_same).
  set (s2 := replace "?" "__" s1).
  assert (H2 : occurs "?" s2 = false) by (now apply occurs_replace_same).
  assert (H2' : occurs "/" s2 = false) by (now apply occurs_replace_other).
  set (s3 := replace "=" "--" s2).
  assert (H3 : occurs "=" s3 = false) by (now apply occurs_replace_same).
  assert (H3' : occurs "/" s3 = false) by (now apply occurs_replace_other).
  assert (H3'' : occurs "?" s3 = false) by (now apply occurs_replace_other).
  intros [<-|[<-|[<-|[<-|[]]]]].
  - now apply occurs_replace_other.
  - now apply occurs_replace_other.
  - now apply occurs_replace_other.
  - now apply occurs_replace_same.
Qed.

Lemma create_cache_key_fixed s :
  (forall c, In c key_separators -> occurs c s = false) ->
  create_cache_key s = s.
Proof.
  intros H. unfold create_cache_key, strip.
  assert (Hslash : occurs "/" s = false) by (apply H; cbn; auto).
  rewrite (lstrip_absent _ _ Hslash), (rstrip_absent _ _ Hslash).
  rewrite (replace_absent "/") by exact Hslash.
  rewrite (replace_absent "?") by (apply H; cbn; auto).
  rewrite (replace_absent "=") by (apply H; cbn; auto).
  rewrite (replace_absent "&") by (apply H; cbn; auto).
  reflexivity.
Qed.

(** X4.  A cache key holds none of the characters [/], [?], [=] and [&],
    whatever the string it is made from; and making the key of a key
    changes nothing. *)
Theorem create_cache_key_separator_free s :
  (forall c, In c key_separators -> occurs c (create_cache_key s) = false)
  /\ create_cache_key (create_cache_key s) = create_cache_key s.
Proof.
  split.
  - intros c. apply create_cache_key_clean.
  - apply create_cache_key_fixed. intros c. apply create_cache_key_clean.
Qed.

(** The key of a path with its slashes, and of a query. *)
Example create_cache_key_samples :
  create_cache_key "/commodities_prices/id_terminal/74/"
  = "commodities_prices-id_terminal-74"
  /\ create_cache_key "id_terminal=74&id_commodity=33"
     = "id_terminal--74__id_commodity--33".
Proof. split; reflexivity. Qed.

(* ================================================================== *)
(** * get_tags *)

Lemma in_paths_accepts base paths :
  in_paths base paths = true -> existsb (accepts base) paths = true.
Proof.
  unfold in_paths. rewrite !existsb_exists. intros (p & Hin & Hp).
  exists p. split; [exact Hin|]. destruct p; [exact Hp|discriminate].
Qed.

Lemma paths_break_accepts base paths :
  paths_break base paths = existsb (accepts base) paths.
Proof.
  induction paths as [|[s|prefix] paths IH]; cbn [paths_break existsb accepts];
    [reflexivity| |].
  - destruct (String.eqb base s); [reflexivity|exact IH].
  - destruct (pattern_match prefix base); [reflexivity|exact IH].
Qed.

Lemma tags_loop_filter base mapping :
  forall tags,
    tags_loop base mapping tags
    = (tags ++ map fst (filter (fun entry => existsb (accepts base) (snd entry))
                               mapping))%list.
Proof.
  induction mapping as [|[tag paths] mapping IH]; intros tags;
    cbn [tags_loop filter snd].
  - now rewrite app_nil_r.
  - rewrite paths_break_accepts.
    destruct (in_paths base paths) eqn:Ein.
    + rewrite (in_paths_accepts _ _ Ein). cbn [map fst].
      now rewrite IH, <- app_assoc.
    + destruct (existsb (accepts base) paths); [|apply IH].
      cbn [map fst]. now rewrite IH, <- app_assoc.
Qed.

Lemma NoDup_map_filter {A B : Type} (g : A -> B) (f : A -> bool) l :
  NoDup (map g l) -> NoDup (map g (filter f l)).
Proof.
  induction l as [|x l IH]; cbn [map filter]; [auto|].
  intros H. inversion H as [|? ? Hx Hl]; subst.
  destruct (f x); cbn [map]; [|auto]. constructor; [|auto].
  intros Hin. apply Hx. apply in_map_iff in Hin.
  destruct Hin as (y & Hy & Hin). apply in_map_iff. exists y.
  split; [exact Hy|]. apply filter_In in Hin. tauto.
Qed.

(** X5.  The tags of an endpoint are [User], first, exactly when the
    endpoint is user bound, and then the tags of [tag_mapping], in the order
    of the table, whose list has an entry that accepts the base path, a
    string equal to it or a pattern matching it; no tag comes twice. *)
Theorem get_tags_characterised endpoint :
  get_tags endpoint
  = ((if is_user_bound endpoint then ["User"] else [])
     ++ map fst (filter (fun entry =>
                           existsb (accepts (base_path endpoint)) (snd entry))
                        tag_mapping))%list
  /\ NoDup (get_tags endpoint).
Proof.
  assert (Heq : get_tags endpoint
    = ((if is_user_bound endpoint then ["User"] else [])
       ++ map fst (filter (fun entry =>
                             existsb (accepts (base_path endpoint)) (snd entry))
                          tag_mapping))%list)
    by (unfold get_tags; apply tags_loop_filter).
  split; [exact Heq|]. rewrite Heq.
  assert (Hkeys : NoDup ("User" :: map fst tag_mapping))
    by (apply distinct_NoDup; reflexivity).
  inversion Hkeys as [|? ? Huser Hmap]; subst.
  pose proof (NoDup_map_filter fst
                (fun entry => existsb (accepts (base_path endpoint)) (snd entry))
                tag_mapping Hmap) as Hnd.
  destruct (is_user_bound endpoint); cbn [app]; [|exact Hnd].
  constructor; [|exact Hnd]. intros Hin. apply Huser.
  apply in_map_iff in Hin. destruct Hin as (y & Hy & Hin).
  change (In "User" (map fst tag_mapping)).
  apply in_map_iff. exists y. split; [exact Hy|].
  apply filter_In in Hin. tauto.
Qed.

(** [/vehicles] is in the list of [Game] and matches the pattern of
    [Vehicles]; [/fleet] is in no list. *)
Example get_tags_samples :
  get_tags vehicles_endpoint = [ "Game"; "Vehicles" ]
  /\ get_tags fleet_endpoint = [ "User" ].
Proof. split; reflexivity. Qed.

(* ================================================================== *)
(** * add_paths *)

(** X6.  [add_paths] puts the new templates before the ones that the
    document has and keeps these, in their order; the log and the other keys
    stay; adding [p1] and then [p2] is adding [p2] followed by [p1] at
    once. *)
Theorem add_paths_prepends p1 p2 self self1 :
  add_paths p1 self = Some self1 ->
  (exists elems,
      path_templates self = Some (NList elems)
      /\ path_templates self1 = Some (NList (map NStr p1 ++ elems)%list))
  /\ log self1 = log self
  /\ (forall key, key <> "x-path-templates" ->
                  py_getitem key (schema self1) = py_getitem key (schema self))
  /\ add_paths p2 self1 = add_paths (p2 ++ p1)%list self.
Proof.
  unfold add_paths, path_templates.
  destruct (schema self) as [top| | | | |] eqn:Edoc; cbn [py_getitem bind];
    try discriminate.
  destruct (dict_get "x-path-templates" top) as [[|elems| | | |]|] eqn:Eg;
    cbn [bind py_setitem]; try discriminate.
  intros [= <-]. cbn [schema log py_getitem]. split; [|split; [|split]].
  - exists elems. split; [reflexivity|].
    now rewrite dict_get_set, String.eqb_refl.
  - reflexivity.
  - intros key Hkey. rewrite dict_get_set.
    destruct (String.eqb_spec key "x-path-templates"); [contradiction|].
    reflexivity.
  - rewrite dict_get_set, String.eqb_refl. cbn [bind py_setitem].
    now rewrite dict_set_set, map_app, <- app_assoc.
Qed.

Lemma add_paths_prepends_witness :
  path_templates templates_manager
  = Some (NList [ NStr "/cities/"; NStr "/moons/" ])
  /\ add_paths ["/items/"] templates_manager
     = Some (mkManager
               (NDict [ ("paths", NDict []);
                        ("x-path-templates",
                         NList [ NStr "/items/"; NStr "/cities/";
                                 NStr "/moons/" ]) ]) [])
  /\ add_paths ["/fuel/"]
       (mkManager
          (NDict [ ("paths", NDict []);
                   ("x-path-templates",
                    NList [ NStr "/items/"; NStr "/cities/";
                            NStr "/moons/" ]) ]) [])
     = add_paths ["/fuel/"; "/items/"] templates_manager.
Proof.
  split; [reflexivity|]. split; [reflexivity|].
  exact (proj2 (proj2 (proj2
           (add_paths_prepends ["/items/"] ["/fuel/"] templates_manager _
                               eq_refl)))).
Defined.

(** Without the key [x-path-templates], or with a value there that is no
    list, [add_paths] raises: it does not make the list. *)
Example add_paths_needs_the_list :
  add_paths ["/items/"] (mkManager (NDict [("paths", NDict [])]) []) = None
  /\ add_paths ["/items/"]
       (mkManager (NDict [("x-path-templates", NNone)]) []) = None.
Proof. split; reflexivity. Qed.

(* ================================================================== *)
(** * deep_equals as an equivalence *)

Lemma py_eq_sym a b : py_eq a b = py_eq b a.
Proof.
  destruct a, b; cbn; auto using String.eqb_sym, Z.eqb_sym.
  destruct b0, b; reflexivity.
Qed.

Lemma py_eq_trans a b c :
  py_eq a b = true -> py_eq b c = true -> py_eq a c = true.
Proof.
  destruct a, b; cbn; try discriminate; destruct c; cbn; try discriminate;
    rewrite ?String.eqb_eq, ?Z.eqb_eq, ?Bool.eqb_true_iff;
    try congruence; intros; subst; try reflexivity;
    repeat match goal with b : bool |- _ => destruct b end; cbn in *;
    congruence.
Qed.

Lemma structural_sym (R : Node -> Node -> Prop) :
  (forall a b, R a b -> R b a) ->
  forall a b, structural R a b -> structural R b a.
Proof.
  intros Hsym a b H.
  induction H as [d1 d2 Hk Hv IH|l1 l2 Hl Hv IH|a b Ha Hb Hr].
  - apply structural_object.
    + intros k. symmetry. apply Hk.
    + intros k v1 v2 H1 H2. eapply IH; eassumption.
  - apply structural_array; [now symmetry|].
    intros i x y Hx Hy. eapply IH; eassumption.
  - apply structural_scalar; auto.
Qed.

Lemma structural_trans (R : Node -> Node -> Prop) :
  (forall a b c, R a b -> R b c -> R a c) ->
  forall a b, structural R a b ->
              forall c, structural R b c -> structural R a c.
Proof.
  intros Htrans a b H.
  induction H as [d1 d2 Hk Hv IH|l1 l2 Hl Hv IH|a b Ha Hb Hr]; intros c Hbc.
  - inversion Hbc; subst.
    + apply structural_object.
      * intros k. etransitivity; [apply Hk|]. auto.
      * intros k v1 v3 Hg1 Hg3.
        assert (Hin : In k (dict_keys d2))
          by (apply Hk; eapply dict_get_key; eassumption).
        apply dict_key_get in Hin. destruct Hin as [v2 Hg2].
        eapply IH; eauto.
    + match goal with Hs : is_scalar (NDict _) |- _ => destruct Hs end.
  - inversion Hbc; subst.
    + apply structural_array; [congruence|].
      intros i x z Hx Hz.
      assert (Hi : i < List.length l2).
      { rewrite <- Hl. apply nth_error_Some. congruence. }
      apply nth_error_Some in Hi.
      destruct (nth_error l2 i) as [y|] eqn:Hy; [|congruence].
      eapply IH; eauto.
    + match goal with Hs : is_scalar (NList _) |- _ => destruct Hs end.
  - inversion Hbc; subst; try solve [ destruct Hb ].
    apply structural_scalar; eauto.
Qed.

(** X7.  On trees made of dictionaries with unique keys, lists, strings,
    integers, booleans and [None], [deep_equals] is an equivalence: a tree
    equals itself, the result does not depend on the order of the two
    arguments, and two trees that are equal to a third are equal.  Floats
    are not among the values of [Node], and the statement does not extend
    to them: the float [nan] is not equal to itself. *)
Theorem deep_equals_equivalence a b c :
  unique_keys a = true -> unique_keys b = true ->
  deep_equals a a = true
  /\ deep_equals a b = deep_equals b a
  /\ (deep_equals a b = true -> deep_equals b c = true ->
      deep_equals a c = true).
Proof.
  intros Ha Hb. split; [now apply deep_equals_refl|]. split.
  - destruct (deep_equals a b) eqn:Eab, (deep_equals b a) eqn:Eba;
      try reflexivity; exfalso.
    + apply deep_equals_structural in Eab; [|exact Ha].
      apply (structural_sym _ (fun x y H => eq_trans (py_eq_sym y x) H)) in Eab.
      apply deep_equals_structural in Eab; [|exact Hb]. congruence.
    + apply deep_equals_structural in Eba; [|exact Hb].
      apply (structural_sym _ (fun x y H => eq_trans (py_eq_sym y x) H)) in Eba.
      apply deep_equals_structural in Eba; [|exact Ha]. congruence.
  - intros Eab Ebc.
    apply deep_equals_structural in Eab; [|exact Ha].
    apply deep_equals_structural in Ebc; [|exact Hb].
    apply deep_equals_structural; [exact Ha|].
    eapply structural_trans; [|exact Eab|exact Ebc].
    intros x y z. apply py_eq_trans.
Qed.

Lemma deep_equals_equivalence_witness :
  deep_equals foo_string foo_string = true
  /\ deep_equals foo_string foo_string_reordered
     = deep_equals foo_string_reordered foo_string
  /\ (deep_equals foo_string foo_string_reordered = true ->
      deep_equals foo_string_reordered foo_number = true ->
      deep_equals foo_string foo_number = true).
Proof.
  exact (deep_equals_equivalence foo_string foo_string_reordered foo_number
           eq_refl eq_refl).
Defined.

(* ================================================================== *)
(** * deep_get_overwrite with a value, and overwrite_keys *)

Lemma deep_get_overwrite_set keys :
  forall d value result d',
    keys <> [] -> is_none value = false ->
    deep_get_overwrite d keys value = Some (result, d') ->
    resolvePath d' keys = Some value
    /\ exists items items',
        d = NDict items /\ d' = NDict items'
        /\ forall k, k <> hd "" keys -> dict_get k items' = dict_get k items.
Proof.
  induction keys as [|key rest IH]; intros d value result d' Hne Hval;
    [congruence|].
  cbn [deep_get_overwrite List.length hd]. rewrite Hval. cbn [negb].
  destruct rest as [|key' rest'].
  - cbn [List.length Nat.eqb andb].
    destruct d as [items| | | | |]; cbn [py_setitem bind]; try discriminate.
    intros [= <- <-]. split.
    + cbn [resolvePath]. now rewrite dict_get_set, String.eqb_refl.
    + exists items, (dict_set key value items). repeat split.
      intros k Hk. rewrite dict_get_set.
      destruct (String.eqb_spec k key); [contradiction|reflexivity].
  - cbn [List.length Nat.eqb andb].
    destruct d as [items| | | | |]; try discriminate.
    set (items1 := if negb (dict_mem key items)
                   then dict_set key (NDict []) items else items).
    assert (Hframe : forall k, k <> key -> dict_get k items1 = dict_get k items).
    { intros k Hk. unfold items1. destruct (negb (dict_mem key items));
        [|reflexivity].
      rewrite dict_get_set.
      destruct (String.eqb_spec k key); [contradiction|reflexivity]. }
    destruct (dict_get key items1) as [child|]; cbn [bind]; [|discriminate].
    destruct (deep_get_overwrite child (key' :: rest') value)
      as [[r child']|] eqn:Er; cbn [bind]; [|discriminate].
    intros [= <- <-].
    destruct (IH child value r child' ltac:(discriminate) Hval Er) as [Hres _].
    split.
    + cbn [resolvePath]. rewrite dict_get_set, String.eqb_refl. exact Hres.
    + exists items, (dict_set key child' items1). repeat split.
      intros k Hk. rewrite dict_get_set.
      destruct (String.eqb_spec k key); [contradiction|now apply Hframe].
Qed.

(** X8.  With a value and a path that is not empty, a call of
    [deep_get_overwrite] that returns has put the value at the path: reading
    the path in the tree it leaves gives the value back, whether the path
    was there before or was made; and what lies under the other keys of the
    root is as it was. *)
Theorem deep_get_overwrite_write_reads_back d keys value result d' :
  keys <> [] -> is_none value = false ->
  deep_get_overwrite d keys value = Some (result, d') ->
  resolvePath d' keys = Some value
  /\ forall k path, k <> hd "" keys ->
                    resolvePath d' (k :: path) = resolvePath d (k :: path).
Proof.
  intros Hne Hval H.
  destruct (deep_get_overwrite_set keys d value result d' Hne Hval H)
    as (Hres & items & items' & -> & -> & Hframe).
  split; [exact Hres|]. intros k path Hk. cbn [resolvePath].
  now rewrite Hframe.
Qed.

Lemma deep_get_overwrite_write_reads_back_witness :
  resolvePath
    (NDict [ ("openapi", NStr "3.0.3");
             ("components",
              NDict [ ("securitySchemes", NDict [ ("user", NDict []) ]) ]) ])
    ["components"; "securitySchemes"]
  = Some (NDict [ ("user", NDict []) ]).
Proof.
  refine (proj1 (deep_get_overwrite_write_reads_back
                   (NDict [ ("openapi", NStr "3.0.3") ])
                   ["components"; "securitySchemes"]
                   (NDict [ ("user", NDict []) ])
                   (NDict [ ("securitySchemes", NDict [ ("user", NDict []) ]) ])
                   _ _ eq_refl eq_refl)).
  discriminate.
Defined.

(** X9.  When the path leads to a node that is no dictionary and goes on
    from there, [deep_get_overwrite] raises, with or without a value: it
    does not replace the node by a dictionary. *)
Theorem deep_get_overwrite_expects_dict d front rest node value :
  resolvePath d front = Some node ->
  is_dict node = false -> rest <> [] ->
  deep_get_overwrite d (front ++ rest)%list value = None.
Proof.
  intros Hres Hnode Hrest. revert d Hres.
  induction front as [|key front IH]; intros d Hres.
  - cbn in Hres. injection Hres as ->. cbn [app].
    destruct rest as [|key rest]; [congruence|].
    cbn [deep_get_overwrite].
    destruct node; try discriminate;
      destruct (Nat.eqb (List.length (key :: rest)) 1 && negb (is_none value));
      reflexivity.
  - cbn [resolvePath] in Hres.
    destruct d as [items| | | | |]; try discriminate.
    destruct (dict_get key items) as [child|] eqn:Eg; [|discriminate].
    cbn [app deep_get_overwrite List.length].
    assert (Hlen : Nat.eqb (S (List.length (front ++ rest)%list)) 1 = false).
    { destruct (front ++ rest)%list eqn:E; [|reflexivity].
      apply app_eq_nil in E. destruct E. contradiction. }
    rewrite Hlen. cbn [andb]. unfold dict_mem. rewrite Eg. cbn [negb].
    rewrite Eg. cbn [bind]. now rewrite (IH child Hres).
Qed.

Lemma deep_get_overwrite_expects_dict_witness :
  deep_get_overwrite base_document ["info"; "title"; "text"]
                     (NStr "UEX") = None.
Proof.
  exact (deep_get_overwrite_expects_dict base_document ["info"; "title"]
           ["text"] (NStr "UEX API") (NStr "UEX") eq_refl eq_refl
           ltac:(discriminate)).
Defined.

Lemma split_nonempty sep s : split sep s <> [].
Proof.
  induction s as [|c s IH]; cbn [split]; [discriminate|].
  destruct (Ascii.eqb c sep); [discriminate|].
  destruct (split sep s); discriminate.
Qed.

(** X10.  A call of [overwrite_keys] that returns has read the source
    document at the dotted key and logged what it found.  A key that the
    source document has is only read.  A key that it lacks is made in the
    source document as an empty dictionary, and that empty dictionary is
    what is found.  What is found, unless it is [None], is put at the same
    place of the managed document, where it can be read back.  When it is
    [None], nothing is copied: the managed document is read at the key as
    the source document was, so it keeps what it has there, or gets an empty
    dictionary there when it lacks the key. *)
Theorem overwrite_keys_copies key data self data' self' :
  overwrite_keys key data self = Some (data', self') ->
  exists source,
    resolvePath data' (split "." key) = Some source
    /\ (forall node, resolvePath data (split "." key) = Some node ->
                     source = node /\ data' = data)
    /\ (resolvePath data (split "." key) = None ->
        source = NDict [] /\ data' <> data)
    /\ (is_none source = false ->
        resolvePath (schema self') (split "." key) = Some source)
    /\ (is_none source = true ->
        (forall node, resolvePath (schema self) (split "." key) = Some node ->
                      schema self' = schema self)
        /\ (resolvePath (schema self) (split "." key) = None ->
            resolvePath (schema self') (split "." key) = Some (NDict [])
            /\ schema self' <> schema self))
    /\ log self' = (log self ++ [Debug_overwriting key source])%list.
Proof.
  unfold overwrite_keys.
  destruct (deep_get_overwrite data (split "." key) NNone)
    as [[source data1]|] eqn:Eread; cbn [bind]; [|discriminate].
  destruct (deep_get_overwrite (schema self) (split "." key) source)
    as [[r doc]|] eqn:Ewrite; cbn [bind]; [|discriminate].
  intros [= <- <-]. exists source. cbn [schema log].
  destruct (deep_get_overwrite_read _ _ _ _ Eread) as [Hres Hnew].
  split; [exact Hres|]. split; [|split; [exact Hnew|]].
  - intros node Hnode. apply deep_get_overwrite_resolved in Hnode.
    rewrite Hnode in Eread. now injection Eread as <- <-.
  - split; [|split; [|reflexivity]].
    + intros Hsource.
      apply (deep_get_overwrite_set _ _ _ _ _ (split_nonempty _ _) Hsource
               Ewrite).
    + intros Hsource. destruct source; try discriminate.
      split.
      * intros node Hnode. apply deep_get_overwrite_resolved in Hnode.
        rewrite Hnode in Ewrite. now injection Ewrite as _ <-.
      * intros Hnone.
        destruct (deep_get_overwrite_read _ _ _ _ Ewrite) as [Hr Hn].
        destruct (Hn Hnone) as [-> Hne]. now split.
Qed.

Lemma overwrite_keys_copies_witness :
  exists source,
    resolvePath base_document ["info"] = Some source
    /\ (forall node, resolvePath base_document ["info"] = Some node ->
                     source = node /\ base_document = base_document)
    /\ (resolvePath base_document ["info"] = None ->
        source = NDict [] /\ base_document <> base_document)
    /\ (is_none source = false ->
        resolvePath
          (NDict [ ("info", NDict [ ("title", NStr "UEX API") ]);
                   ("externalDocs",
                    NDict [ ("url", NStr "https://uexcorp.space") ]);
                   ("paths", NDict []) ])
          ["info"] = Some source)
    /\ (is_none source = true ->
        (forall node, resolvePath managed_document ["info"] = Some node ->
                      NDict [ ("info", NDict [ ("title", NStr "UEX API") ]);
                              ("externalDocs",
                               NDict [ ("url", NStr "https://uexcorp.space") ]);
                              ("paths", NDict []) ]
                      = managed_document)
        /\ (resolvePath managed_document ["info"] = None ->
            resolvePath
              (NDict [ ("info", NDict [ ("title", NStr "UEX API") ]);
                       ("externalDocs",
                        NDict [ ("url", NStr "https://uexcorp.space") ]);
                       ("paths", NDict []) ])
              ["info"] = Some (NDict [])
            /\ NDict [ ("info", NDict [ ("title", NStr "UEX API") ]);
                       ("externalDocs",
                        NDict [ ("url", NStr "https://uexcorp.space") ]);
                       ("paths", NDict []) ]
               <> managed_document))
    /\ [ Debug_overwriting "info" (NDict [ ("title", NStr "UEX API") ]) ]
       = ([] ++ [Debug_overwriting "info" source])%list.
Proof.
  exact (overwrite_keys_copies "info" base_document
           (mkManager managed_document []) base_document
           (mkManager
              (NDict [ ("info", NDict [ ("title", NStr "UEX API") ]);
                       ("externalDocs",
                        NDict [ ("url", NStr "https://uexcorp.space") ]);
                       ("paths", NDict []) ])
              [ Debug_overwriting "info" (NDict [ ("title", NStr "UEX API") ]) ])
           eq_refl).
Defined.

(** A source document that holds [None] under the key: the managed
    document keeps what it has there. *)
Example overwrite_keys_none_in_source :
  overwrite_keys "info" (NDict [ ("info", NNone) ])
                 (mkManager managed_document [])
  = Some (NDict [ ("info", NNone) ],
          mkManager managed_document [ Debug_overwriting "info" NNone ]).
Proof. reflexivity. Qed.

(** The base document has no [externalDocs]: merging that key empties the
    [externalDocs] of the managed document and adds the key to the base
    document. *)
Example overwrite_keys_missing_in_source :
  overwrite_keys "externalDocs" base_document (mkManager managed_document [])
  = Some
      (NDict [ ("openapi", NStr "3.0.3");
               ("info", NDict [ ("title", NStr "UEX API") ]);
               ("externalDocs", NDict []) ],
       mkManager
         (NDict [ ("info", NDict [ ("title", NStr "old");
                                   ("version", NStr "1") ]);
                  ("externalDocs", NDict []);
                  ("paths", NDict []) ])
         [ Debug_overwriting "externalDocs" (NDict []) ]).
Proof. reflexivity. Qed.

(* ================================================================== *)
(** * extract_schemas without a conflict, and without its root schemas *)

(** X11.  When the path of a selector resolves inside its root schema and
    the catalog has nothing under the canonical name, one turn of
    [extract_schemas] registers the node at the path under that name, puts a
    reference to the name in its place and leaves every other schema of the
    catalog as it was. *)
Theorem extract_schema_registers_new_name
    selector ref self schemas root node :
  tl (split "." selector) <> [] ->
  component_schemas (schema self) = Some (NDict schemas) ->
  dict_get (selector_root selector) schemas = Some root ->
  resolvePath root (tl (split "." selector)) = Some node ->
  dict_get ref schemas = None ->
  exists doc schemas' root',
    extract_schema selector ref self
    = Some (mkManager doc
              (log self ++ [ Debug_creating_schema ref node;
                             Debug_updating_ref (selector_root selector) ref ])%list)
    /\ component_schemas doc = Some (NDict schemas')
    /\ dict_get ref schemas' = Some node
    /\ dict_get (selector_root selector) schemas' = Some root'
    /\ resolvePath root' (tl (split "." selector)) = Some (ref_to ref)
    /\ (forall name, name <> selector_root selector -> name <> ref ->
                     dict_get name schemas' = dict_get name schemas).
Proof.
  unfold selector_root. intros Hpath Hcat Hroot Hres Href.
  unfold extract_schema.
  set (target_schema := hd "" (split "." selector)) in *.
  set (target_prop_path := tl (split "." selector)) in *.
  assert (Hne : target_schema <> ref) by congruence.
  rewrite Hcat. cbn [bind py_in]. unfold dict_mem. rewrite Hroot.
  cbn [negb bind py_getitem]. rewrite Hroot. cbn [bind].
  rewrite (deep_get_overwrite_resolved _ _ _ Hres). cbn [bind].
  rewrite (with_component_schema_same _ _ _ _ Hcat Hroot). cbn [bind].
  destruct (add_new_schema_absent (mkManager (schema self) (log self)) ref node
              schemas Hcat Href) as (doc1 & -> & Hcat1).
  cbn [bind schema log]. rewrite Hcat1. cbn [bind py_getitem].
  assert (Hroot1 : dict_get target_schema (dict_set ref node schemas)
                   = Some root).
  { rewrite dict_get_set.
    destruct (String.eqb_spec target_schema ref); [contradiction|exact Hroot]. }
  rewrite Hroot1. cbn [bind].
  destruct (deep_get_overwrite_write root target_prop_path node (ref_to ref)
              Hres Hpath eq_refl) as (r & root' & -> & Hr).
  cbn [bind].
  destruct (with_component_schema_spec target_schema root' _ _ Hcat1)
    as (doc & -> & Hdoc).
  cbn [bind].
  exists doc, (dict_set target_schema root' (dict_set ref node schemas)), root'.
  rewrite <- app_assoc. cbn [app].
  split; [reflexivity|]. split; [exact Hdoc|]. split.
  { rewrite !dict_get_set, String.eqb_refl.
    destruct (String.eqb_spec ref target_schema); [congruence|reflexivity]. }
  split; [now rewrite dict_get_set, String.eqb_refl|].
  split; [exact Hr|].
  intros name Hn1 Hn2. rewrite !dict_get_set.
  destruct (String.eqb_spec name target_schema); [contradiction|].
  destruct (String.eqb_spec name ref); [contradiction|reflexivity].
Qed.

Lemma extract_schema_registers_new_name_witness :
  let selector :=
    "GetCommoditiesStatusOkResponse.properties.data.properties.buy.items" in
  let response := status_response buy_items sell_items in
  let self := mkManager (status_document (status_catalog response [])) [] in
  exists doc schemas' root',
    extract_schema selector "CommodityStatusDTO" self
    = Some (mkManager doc
              [ Debug_creating_schema "CommodityStatusDTO" buy_items;
                Debug_updating_ref "GetCommoditiesStatusOkResponse"
                                   "CommodityStatusDTO" ])
    /\ component_schemas doc = Some (NDict schemas')
    /\ dict_get "CommodityStatusDTO" schemas' = Some buy_items
    /\ dict_get "GetCommoditiesStatusOkResponse" schemas' = Some root'
    /\ resolvePath root' ["properties"; "data"; "properties"; "buy"; "items"]
       = Some (ref_to "CommodityStatusDTO")
    /\ (forall name, name <> "GetCommoditiesStatusOkResponse" ->
                     name <> "CommodityStatusDTO" ->
                     dict_get name schemas'
                     = dict_get name (status_catalog response [])).
Proof.
  intros selector response self.
  refine (extract_schema_registers_new_name selector "CommodityStatusDTO" self
            (status_catalog response []) response buy_items
            _ eq_refl eq_refl eq_refl eq_refl).
  vm_compute. discriminate.
Defined.

Lemma extract_loop_without_roots table :
  forall self schemas,
    component_schemas (schema self) = Some (NDict schemas) ->
    forallb (fun entry => negb (dict_mem (selector_root (fst entry)) schemas))
            table = true ->
    extract_loop table self
    = Some (mkManager (schema self)
              (log self
               ++ map (fun entry =>
                         Warning_schema_not_found (selector_root (fst entry)))
                      table)%list).
Proof.
  induction table as [|[selector ref] table IH]; intros self schemas Hcat Hall.
  - cbn. rewrite app_nil_r. now destruct self.
  - cbn [forallb fst] in Hall. apply andb_true_iff in Hall.
    destruct Hall as [Hroot Hall]. apply negb_true_iff in Hroot.
    cbn [extract_loop]. unfold extract_schema at 1. rewrite Hcat.
    cbn [bind py_in]. fold (selector_root selector). rewrite Hroot.
    cbn [negb bind].
    rewrite (IH _ schemas) by assumption.
    cbn [schema log map fst]. now rewrite <- app_assoc.
Qed.

(** X12.  On a catalog that holds none of the root schemas that the table
    of selectors names, [extract_schemas] changes nothing in the document
    and logs one warning for every selector of the table, in its order. *)
Theorem extract_schemas_without_roots self schemas :
  component_schemas (schema self) = Some (NDict schemas) ->
  forallb (fun entry => negb (dict_mem (selector_root (fst entry)) schemas))
          schema_name_by_property_path = true ->
  extract_schemas self
  = Some (mkManager (schema self)
            (log self
             ++ map (fun entry =>
                       Warning_schema_not_found (selector_root (fst entry)))
                    schema_name_by_property_path)%list).
Proof.
  intros Hcat Hall. unfold extract_schemas.
  destruct (component_schemas_inv _ _ Hcat) as (top & comps & Hdoc & Hc & Hs).
  rewrite Hdoc. cbn [py_getitem bind]. rewrite Hc. cbn [bind py_in].
  unfold dict_mem. rewrite Hs. cbn [negb].
  rewrite <- Hdoc. now apply extract_loop_without_roots with (schemas := schemas).
Qed.

Lemma extract_schemas_without_roots_witness :
  extract_schemas foo_manager
  = Some (mkManager foo_document
            (map (fun entry =>
                    Warning_schema_not_found (selector_root (fst entry)))
                 schema_name_by_property_path)).
Proof.
  exact (extract_schemas_without_roots foo_manager [("Foo", foo_string)]
           eq_refl eq_refl).
Defined.

(* ================================================================== *)
(** * add_new_schema on a document without a catalog *)

(** X13.  On a document that has no [components], or whose [components]
    has no [schemas], [add_new_schema] makes the missing dictionaries and
    registers the schema: the catalog is then the one entry, the call logs
    the creation, and every other key of the document keeps its value. *)
Theorem add_new_schema_creates_catalog name new_schema self top :
  schema self = NDict top ->
  dict_get "components" top = None
  \/ (exists components,
         dict_get "components" top = Some (NDict components)
         /\ dict_get "schemas" components = None) ->
  exists doc,
    add_new_schema name new_schema self
    = Some (mkManager doc
              (log self ++ [Debug_creating_schema name new_schema])%list)
    /\ component_schemas doc = Some (NDict [(name, new_schema)])
    /\ forall key, key <> "components" ->
                   py_getitem key doc = py_getitem key (schema self).
Proof.
  intros Hdoc Hcase. unfold add_new_schema. rewrite Hdoc.
  cbn [py_in bind]. unfold dict_mem at 1.
  destruct Hcase as [Hc|(comps & Hc & Hs)]; rewrite Hc; cbn [negb py_setitem bind].
  - cbn [py_getitem]. rewrite dict_get_set.
    cbn [String.eqb Ascii.eqb Bool.eqb bind py_in dict_mem dict_get negb
         py_setitem dict_set py_getitem].
    unfold deepcopy. eexists. split; [reflexivity|]. split.
    + unfold component_schemas. cbn [py_getitem bind].
      rewrite dict_get_set.
      cbn [String.eqb Ascii.eqb Bool.eqb bind py_getitem dict_get].
      reflexivity.
    + intros key Hkey. cbn [py_getitem]. rewrite !dict_get_set.
      destruct (String.eqb_spec key "components"); [contradiction|reflexivity].
  - cbn [py_getitem]. rewrite Hc. cbn [bind py_in]. unfold dict_mem at 1.
    rewrite Hs. cbn [negb py_setitem bind py_getitem]. rewrite dict_get_set.
    cbn [String.eqb Ascii.eqb Bool.eqb bind py_in dict_mem dict_get negb
         py_setitem dict_set].
    unfold deepcopy. eexists. split; [reflexivity|]. split.
    + unfold component_schemas. cbn [py_getitem bind].
      rewrite dict_get_set.
      cbn [String.eqb Ascii.eqb Bool.eqb bind py_getitem].
      rewrite dict_set_set, dict_get_set.
      cbn [String.eqb Ascii.eqb Bool.eqb]. reflexivity.
    + intros key Hkey. cbn [py_getitem]. rewrite dict_get_set.
      destruct (String.eqb_spec key "components"); [contradiction|reflexivity].
Qed.

Lemma add_new_schema_creates_catalog_witness :
  exists doc,
    add_new_schema "Foo" foo_string (mkManager base_document [])
    = Some (mkManager doc [Debug_creating_schema "Foo" foo_string])
    /\ component_schemas doc = Some (NDict [("Foo", foo_string)])
    /\ forall key, key <> "components" ->
                   py_getitem key doc = py_getitem key base_document.
Proof.
  exact (add_new_schema_creates_catalog "Foo" foo_string
           (mkManager base_document []) _ eq_refl (or_introl eq_refl)).
Defined.

(* ================================================================== *)
(** * update_path_data twice *)

Lemma dict_update_fixed {V : Type} (d other : list (string * V)) :
  (forall k v, In (k, v) other -> dict_get k d = Some v) ->
  dict_update d other = d.
Proof.
  unfold dict_update. induction other as [|[k v] other IH]; intros H;
    cbn [fold_left fst snd]; [reflexivity|].
  rewrite (dict_set_same d k v) by (apply H; now left).
  apply IH. intros k' v' Hin. apply H. now right.
Qed.

Lemma dict_update_idem {V : Type} (d other : list (string * V)) :
  NoDup (dict_keys other) ->
  dict_update (dict_update d other) other = dict_update d other.
Proof.
  intros Hnd. apply dict_update_fixed. intros k v Hin.
  apply dict_update_supplied; [exact Hnd|]. now apply dict_in_get.
Qed.

Lemma unique_attrs_supplied data path method attrs :
  unique_attrs data = true ->
  supplied data path method = Some attrs ->
  NoDup (dict_keys attrs).
Proof.
  unfold unique_attrs, supplied, bind. intros Hu.
  destruct (dict_get path data) as [mapping|] eqn:Ep; [|discriminate].
  intros Hm. apply dict_get_in in Ep. apply dict_get_in in Hm.
  rewrite forallb_forall in Hu. specialize (Hu _ Ep). cbn [snd] in Hu.
  rewrite forallb_forall in Hu. specialize (Hu _ Hm). cbn [snd] in Hu.
  now apply distinct_NoDup.
Qed.

Lemma update_path_entry_again data path method props props' events :
  unique_attrs data = true ->
  update_path_entry data path method props = Some (props', events) ->
  update_path_entry data path method props' = Some (props', events).
Proof.
  intros Hu. pose proof (unique_attrs_supplied data path method) as Hnd.
  unfold update_path_entry, supplied, bind in *.
  destruct (dict_get path data) as [mapping|].
  - destruct (dict_get method mapping) as [attrs|].
    + destruct props as [items| | | | |]; cbn [py_update]; try discriminate.
      intros [= <- <-]. cbn [py_update].
      now rewrite dict_update_idem by (apply (Hnd attrs); auto).
    + now intros [= <- <-].
  - now intros [= <- <-].
Qed.

Lemma operations_loop_again data path operations operations' events :
  unique_attrs data = true ->
  operations_loop data path operations = Some (operations', events) ->
  operations_loop data path operations' = Some (operations', events).
Proof.
  intros Hu. revert operations' events.
  induction operations as [|[m props] operations IH]; intros operations' events;
    cbn [operations_loop].
  - now intros [= <- <-].
  - unfold bind at 1.
    destruct (update_path_entry data path m props) as [[props' ev]|] eqn:Ee;
      [|discriminate].
    unfold bind at 1.
    destruct (operations_loop data path operations) as [[rest' ev']|];
      [|discriminate].
    intros [= <- <-]. cbn [operations_loop].
    rewrite (update_path_entry_again _ _ _ _ _ _ Hu Ee). cbn [bind].
    now rewrite (IH _ _ eq_refl).
Qed.

Lemma paths_loop_again data paths paths' events :
  unique_attrs data = true ->
  paths_loop data paths = Some (paths', events) ->
  paths_loop data paths' = Some (paths', events).
Proof.
  intros Hu. revert paths' events.
  induction paths as [|[p ops] paths IH]; intros paths' events;
    cbn [paths_loop].
  - now intros [= <- <-].
  - destruct ops as [o| | | | |]; cbn [py_items bind]; try discriminate.
    unfold bind at 1.
    destruct (operations_loop data p o) as [[o' ev]|] eqn:Eo; [|discriminate].
    unfold bind at 1.
    destruct (paths_loop data paths) as [[rest' ev']|]; [|discriminate].
    intros [= <- <-]. cbn [paths_loop py_items bind].
    rewrite (operations_loop_again _ _ _ _ _ Hu Eo). cbn [bind].
    now rewrite (IH _ _ eq_refl).
Qed.

(** X14.  With data whose attribute dictionaries hold every key once, a
    second [update_path_data] with the same data returns and leaves the
    document as the first call left it; only the warnings are logged
    again. *)
Theorem update_path_data_twice data self self1 :
  unique_attrs data = true ->
  update_path_data data self = Some self1 ->
  exists events,
    log self1 = (log self ++ events)%list
    /\ update_path_data data self1
       = Some (mkManager (schema self1) (log self1 ++ events)%list).
Proof.
  intros Hu. unfold update_path_data.
  destruct (schema self) as [top| | | | |]; cbn [py_getitem bind];
    try discriminate.
  destruct (dict_get "paths" top) as [[paths| | | | |]|] eqn:Ep;
    cbn [bind py_items]; try discriminate.
  unfold bind at 1.
  destruct (paths_loop data paths) as [[paths' events]|] eqn:El; [|discriminate].
  cbn [py_setitem bind]. intros [= <-]. exists events. cbn [schema log].
  split; [reflexivity|]. cbn [py_getitem].
  rewrite dict_get_set. cbn [String.eqb Ascii.eqb Bool.eqb bind py_items].
  rewrite (paths_loop_again _ _ _ _ Hu El). cbn [bind py_setitem].
  now rewrite dict_set_set.
Qed.

Lemma update_path_data_twice_witness :
  exists events,
    log one_operation_merged = ([] ++ events)%list
    /\ update_path_data two_operations_data one_operation_merged
       = Some (mkManager (schema one_operation_merged)
                         (log one_operation_merged ++ events)%list).
Proof.
  exact (update_path_data_twice two_operations_data
           (mkManager one_operation_document []) one_operation_merged
           eq_refl eq_refl).
Defined.

(* ================================================================== *)
(** * create_initial_response_schemas *)

Lemma for_each_fails {A : Type} (body : A -> Manager -> option Manager) x l :
  In x l -> (forall self, body x self = None) ->
  forall self, for_each body l self = None.
Proof.
  intros Hin Hx. induction l as [|y l IH]; intros self; [destruct Hin|].
  cbn [for_each]. destruct Hin as [->|Hin].
  - now rewrite Hx.
  - destruct (body y self); cbn [bind]; [now apply IH|reflexivity].
Qed.

Lemma for_each_skips {A : Type} (body : A -> Manager -> option Manager) l :
  (forall x self, In x l -> body x self = Some self) ->
  forall self, for_each body l self = Some self.
Proof.
  induction l as [|y l IH]; intros H self; [reflexivity|].
  cbn [for_each]. rewrite H by (now left). cbn [bind].
  apply IH. intros x s Hx. apply H. now right.
Qed.

Lemma for_each_keeps {A : Type} (I : Manager -> Prop)
    (body : A -> Manager -> option Manager) l :
  (forall x self self', In x l -> I self -> body x self = Some self' ->
                        I self') ->
  forall self self', I self -> for_each body l self = Some self' -> I self'.
Proof.
  induction l as [|y l IH]; intros H self self' HI; cbn [for_each].
  - now intros [= <-].
  - destruct (body y self) as [self1|] eqn:E; cbn [bind]; [|discriminate].
    apply IH.
    + intros x s s' Hx. apply H. now right.
    + eapply H; [now left|exact HI|exact E].
Qed.

Lemma dict_set_in {V : Type} (d : list (string * V)) k v k' v' :
  In (k, v) (dict_set k' v' d) -> (k = k' /\ v = v') \/ In (k, v) d.
Proof.
  induction d as [|[k0 v0] d IH]; cbn [dict_set].
  - intros [[= <- <-]|[]]. now left.
  - destruct (String.eqb_spec k' k0) as [->|_].
    + intros [[= <- <-]|Hin]; [now left|right; now right].
    + intros [Heq|Hin]; [right; now left|].
      destruct (IH Hin) as [?|?]; [now left|right; now right].
Qed.

Lemma path_with_operations_spec doc paths links :
  py_getitem "paths" doc = Some (NDict paths) ->
  forall acc,
  exists entries,
    path_with_operations links doc acc = Some entries
    /\ (forall key value,
          In (key, value) entries ->
          In (key, value) acc
          \/ exists l, In l links /\ key = link l
                       /\ value = get_or_empty key paths)
    /\ forall key,
        dict_get key entries
        = if existsb (fun l => String.eqb key (link l)) links
          then Some (get_or_empty key paths)
          else dict_get key acc.
Proof.
  intros Hpaths. induction links as [|l links IH]; intros acc.
  - exists acc. split; [reflexivity|]. split; [now left|reflexivity].
  - cbn [path_with_operations]. rewrite Hpaths. cbn [bind py_items].
    destruct (IH (dict_set (link l) (get_or_empty (link l) paths) acc))
      as (entries & Hentries & Hin & Hget).
    exists entries. split; [exact Hentries|]. split.
    + intros key value Hkv. destruct (Hin key value Hkv) as [Hacc|Hl].
      * destruct (dict_set_in _ _ _ _ _ Hacc) as [[-> ->]|?]; [|now left].
        right. exists l. split; [now left|]. now split.
      * destruct Hl as (l' & Hl' & Hk & Hv). right. exists l'.
        split; [now right|]. now split.
    + intros key. rewrite Hget. cbn [existsb].
      destruct (existsb (fun l0 => String.eqb key (link l0)) links);
        [now rewrite orb_true_r|].
      rewrite orb_false_r, dict_get_set.
      destruct (String.eqb_spec key (link l)) as [->|_]; reflexivity.
Qed.

(** An assignment below one key of the document leaves what the document
    holds under every other key. *)
Lemma assign_frame key rest value d d' other :
  assign (key :: rest) value d = Some d' ->
  other <> key ->
  py_getitem other d' = py_getitem other d.
Proof.
  intros Hassign Hother.
  assert (Hset : exists child, py_setitem key child d = Some d').
  { cbn [assign] in Hassign. destruct rest as [|k rest].
    - now exists value.
    - destruct (py_getitem key d) as [child|]; cbn [bind] in Hassign;
        [|discriminate].
      destruct (assign (k :: rest) value child) as [child'|];
        cbn [bind] in Hassign; [|discriminate].
      now exists child'. }
  destruct Hset as (child & Hset).
  destruct d; try discriminate. cbn [py_setitem] in Hset.
  injection Hset as <-. cbn [py_getitem]. rewrite dict_get_set.
  destruct (String.eqb_spec other key); [contradiction|reflexivity].
Qed.

Section ResponseSchemaFacts.
Variable str_lower : string -> string.
Variable pascalcase : string -> string.

(** X15.  When none of the links of the endpoint is a path of the
    document, [create_initial_response_schemas] changes nothing: no schema
    is registered and nothing is logged. *)
Theorem create_initial_response_schemas_unknown_paths endpoint self paths :
  py_getitem "paths" (schema self) = Some (NDict paths) ->
  (forall l, In l (links endpoint) -> dict_get (link l) paths = None) ->
  create_initial_response_schemas str_lower pascalcase endpoint self
  = Some self.
Proof.
  intros Hpaths Hnone. unfold create_initial_response_schemas.
  destruct (path_with_operations_spec _ _ (links endpoint) Hpaths [])
    as (entries & -> & Hin & _).
  cbn [bind]. apply for_each_skips. intros [path operations] s Hentry.
  destruct (Hin _ _ Hentry) as [[]|(l & Hl & -> & ->)].
  unfold get_or_empty. rewrite (Hnone l Hl). reflexivity.
Qed.

(** X16.  A response code that the table of names does not list makes
    [create_initial_response_schemas] raise, whether the response has a
    content or not: the name is looked up before the content is. *)
Theorem create_initial_response_schemas_unnamed_code
    endpoint self paths l operations operation props responses code response :
  py_getitem "paths" (schema self) = Some (NDict paths) ->
  In l (links endpoint) ->
  dict_get (link l) paths = Some (NDict operations) ->
  In (operation, props) operations ->
  py_getitem "responses" props = Some (NDict responses) ->
  In (code, response) responses ->
  dict_get code response_code_names = None ->
  create_initial_response_schemas str_lower pascalcase endpoint self = None.
Proof.
  intros Hpaths Hl Hops Hop Hresponses Hcode Hname.
  unfold create_initial_response_schemas.
  destruct (path_with_operations_spec _ _ (links endpoint) Hpaths [])
    as (entries & -> & _ & Hget).
  cbn [bind].
  assert (Hentry : In (link l, NDict operations) entries).
  { apply dict_get_in. rewrite Hget.
    replace (existsb _ _) with true.
    - unfold get_or_empty. now rewrite Hops.
    - symmetry. apply existsb_exists. exists l.
      split; [exact Hl|apply String.eqb_refl]. }
  apply (for_each_fails _ _ _ Hentry). intros s1.
  cbn [path_body py_items bind].
  apply (for_each_fails _ _ _ Hop). intros s2.
  cbn [operation_body].
  destruct props as [items| | | | |]; try discriminate.
  cbn [py_in py_getitem] in *. unfold dict_mem. rewrite Hresponses.
  cbn [bind negb py_items].
  apply (for_each_fails _ _ _ Hcode). intros s3.
  cbn [response_body]. now rewrite Hname.
Qed.

(** X17.  A call of [create_initial_response_schemas] that returns leaves
    every schema that the catalog held before the call in the catalog,
    with its definition unchanged. *)
Theorem create_initial_response_schemas_keeps_catalog
    endpoint self self' schemas name existing :
  component_schemas (schema self) = Some (NDict schemas) ->
  dict_get name schemas = Some existing ->
  create_initial_response_schemas str_lower pascalcase endpoint self
  = Some self' ->
  exists schemas',
    component_schemas (schema self') = Some (NDict schemas')
    /\ dict_get name schemas' = Some existing.
Proof.
  intros Hcat Hname. unfold create_initial_response_schemas.
  destruct (path_with_operations (links endpoint) (schema self) [])
    as [entries|]; cbn [bind]; [|discriminate].
  set (I := fun s : Manager =>
              exists schemas',
                component_schemas (schema s) = Some (NDict schemas')
                /\ dict_get name schemas' = Some existing).
  assert (HI : I self) by (exists schemas; now split).
  clear Hcat. intros Hrun. change (I self').
  refine (for_each_keeps I _ entries _ self self' HI Hrun).
  clear self self' HI Hrun.
  intros [path operations] s s' _ Hs. cbn [path_body].
  destruct (py_items operations) as [ops|]; cbn [bind]; [|discriminate].
  intros Hrun. refine (for_each_keeps I _ _ _ s s' Hs Hrun).
  clear s s' Hs Hrun.
  intros [operation props] s s' _ Hs. cbn [operation_body].
  destruct (py_in "responses" props) as [[|]|]; cbn [bind negb];
    try discriminate; [|now intros [= <-]].
  destruct (py_getitem "responses" props) as [responses|]; cbn [bind];
    [|discriminate].
  destruct (py_items responses) as [rs|]; cbn [bind]; [|discriminate].
  intros Hrun. refine (for_each_keeps I _ _ _ s s' Hs Hrun).
  clear s s' Hs Hrun.
  intros [code response] s s' _ Hs. cbn [response_body].
  destruct (dict_get code response_code_names) as [code_str|]; cbn [bind];
    [|discriminate].
  destruct (py_in "content" response) as [[|]|]; cbn [bind negb];
    try discriminate; [|now intros [= <-]].
  destruct (py_getitem "content" response) as [content|]; cbn [bind];
    [|discriminate].
  destruct (py_items content) as [cs|]; cbn [bind]; [|discriminate].
  intros Hrun. refine (for_each_keeps I _ _ _ s s' Hs Hrun).
  clear s s' Hs Hrun.
  intros [content_type content_props] s s' _ Hs. cbn [content_body].
  destruct (py_in "schema" content_props) as [[|]|]; cbn [bind negb];
    try discriminate; [|now intros [= <-]].
  destruct (py_getitem "schema" content_props) as [schema_props|];
    cbn [bind]; [|discriminate].
  destruct Hs as (schemas1 & Hcat1 & Hname1).
  destruct (add_new_schema_keeps s
              (response_schema_name str_lower pascalcase
                 (str_lower (strip "_" (replace "/" "_" (base_path endpoint))))
                 operation code_str)
              schema_props name schemas1 existing Hcat1 Hname1)
    as (s1 & schemas2 & -> & Hcat2 & Hname2).
  cbn [bind].
  destruct (assign _ _ (schema s1)) as [doc|] eqn:Hassign; cbn [bind];
    [|discriminate].
  intros [= <-]. exists schemas2. split; [|exact Hname2].
  cbn [schema]. unfold component_schemas in *.
  rewrite (assign_frame _ _ _ _ _ "components" Hassign); [exact Hcat2|].
  discriminate.
Qed.
End ResponseSchemaFacts.

Lemma create_initial_response_schemas_unknown_paths_witness :
  create_initial_response_schemas keep_case keep_case towns_endpoint
    (mkManager (response_document "200") [])
  = Some (mkManager (response_document "200") []).
Proof.
  apply (create_initial_response_schemas_unknown_paths keep_case keep_case
           towns_endpoint (mkManager (response_document "200") [])
           [ ("/cities/",
              NDict [ ("get",
                       NDict [ ("responses",
                                NDict [ ("200",
                                         NDict [ ("content",
                                                  NDict [ ("application/json",
                                                           NDict [ ("schema", foo_string) ]) ]) ]) ]) ]) ]) ]).
  - reflexivity.
  - intros l [<-|[<-|[]]]; reflexivity.
Defined.

Lemma create_initial_response_schemas_unnamed_code_witness :
  create_initial_response_schemas keep_case keep_case cities_endpoint
    (mkManager (response_document "204") [])
  = None.
Proof.
  exact (create_initial_response_schemas_unnamed_code keep_case keep_case
           cities_endpoint (mkManager (response_document "204") [])
           _ (mkLink "/cities/" []) _ "get" _ _ "204" _
           eq_refl (or_introl eq_refl) eq_refl (or_introl eq_refl)
           eq_refl (or_introl eq_refl) eq_refl).
Defined.

Lemma create_initial_response_schemas_keeps_catalog_witness :
  exists self',
    create_initial_response_schemas keep_case keep_case cities_endpoint
      (mkManager (response_document "200") [])
    = Some self'
    /\ exists schemas',
         component_schemas (schema self') = Some (NDict schemas')
         /\ dict_get "Foo" schemas' = Some foo_string.
Proof.
  eexists. split; [reflexivity|].
  exact (create_initial_response_schemas_keeps_catalog keep_case keep_case
           cities_endpoint (mkManager (response_document "200") []) _
           [ ("Foo", foo_string) ] "Foo" foo_string
           eq_refl eq_refl eq_refl).
Defined.

(** The lookup of the name comes first: the unnamed code of a response
    without content raises all the same, and so does the code of a path
    that a later link names. *)
Example create_initial_response_schemas_samples :
  create_initial_response_schemas keep_case keep_case cities_endpoint
    (mkManager
       (NDict [ ("paths",
                 NDict [ ("/cities/",
                          NDict [ ("get",
                                   NDict [ ("responses",
                                            NDict [ ("default", NDict []) ]) ]) ]) ]) ])
       [])
  = None
  /\ log_of (create_initial_response_schemas keep_case keep_case
               cities_endpoint (mkManager (response_document "200") []))
     = Some [ Debug_creating_schema "get_cities_Ok_response" foo_string ].
Proof. split; reflexivity. Qed.
